(** * FastBERT: adaptive-depth inference and two-phase training

    A shallow embedding of [pypi/fastbert/fastbert.py] (classes
    [MiniClassifier] and [FastBERT]) together with the properties of the
    design document that can be settled on it.

    Conventions of the embedding.
    - Python [int] is [Z]; list positions and loop counters that the code
      only ever uses non-negatively are [nat].
    - Python [float] is an IEEE-754 binary64 number, [spec_float] at
      precision 53 and maximal exponent 1024; [<] and [>] on floats are
      [SFltb], which is false as soon as one side is NaN.
    - A Python exception is the [Raise] case of [result]; state written
      before the exception is kept, as in Python.
    - The collaborators the module imports are parameters: the tokenizer
      and the vocabulary are the record [Text]; torch, the UER kernel, the
      optimizer, [calc_uncertainty] and [shuffle_pairs] are fields of the
      record [Env].  Tensors are an abstract type there; shape errors of
      torch are not modelled.  The model saver and loader are modelled as
      snapshots of all the parameters stored by path.
    - [self.train()] and [self.eval()] are the first argument of every
      module call: each forward pass sets the mode before it calls one.
    - [print] calls are not modelled; the calls to the collaborators that
      matter (optimizer creation, evaluation, save, load) are recorded in
      a trace kept with the state. *)

From Stdlib Require Import Ascii String ZArith List Bool Lia SpecFloat.
Import ListNotations.
Local Open Scope string_scope.
Local Open Scope list_scope.


(** ** Python values the module manipulates *)

Module Py.

Inductive exn : Type :=
  | KeyError
  | IndexError
  | TypeError
  | ZeroDivisionError
  | UnboundLocalError
  | AttributeError
  | OverflowError
  | ValueError
  | FileNotFoundError.

Inductive result (A : Type) : Type :=
  | Ok (a : A)
  | Raise (e : exn).
Arguments Ok {A} a.
Arguments Raise {A} e.

Definition bind {A B} (r : result A) (k : A -> result B) : result B :=
  match r with
  | Ok a => k a
  | Raise e => Raise e
  end.

Definition is_ok {A} (r : result A) : bool :=
  match r with Ok _ => true | Raise _ => false end.

(** [for x in xs: body], with an accumulator and exceptions. *)
Fixpoint for_each {A S} (body : S -> A -> result S) (xs : list A) (s : S)
  : result S :=
  match xs with
  | [] => Ok s
  | x :: xs' => bind (body s x) (for_each body xs')
  end.

(** [[f(x) for x in xs]] where [f] may raise. *)
Fixpoint map_result {A B} (f : A -> result B) (xs : list A)
  : result (list B) :=
  match xs with
  | [] => Ok []
  | x :: xs' =>
      bind (f x) (fun y => bind (map_result f xs') (fun ys => Ok (y :: ys)))
  end.

Definition len {A} (l : list A) : Z := Z.of_nat (length l).

(** Normalisation of a slice bound against a list of length [n]. *)
Definition clamp (n i : Z) : nat :=
  Z.to_nat (if (i <? 0)%Z then Z.max (i + n) 0 else Z.min i n).

(** [l[a:b]] *)
Definition slice {A} (l : list A) (a b : Z) : list A :=
  let a' := clamp (len l) a in
  let b' := clamp (len l) b in
  firstn (b' - a') (skipn a' l).

(** [l[:b]] *)
Definition slice_to {A} (l : list A) (b : Z) : list A :=
  firstn (clamp (len l) b) l.

(** [[x] * n]: empty when [n <= 0]. *)
Definition replicate {A} (x : A) (n : Z) : list A := repeat x (Z.to_nat n).

(** [l[i]] for a non-negative index. *)
Definition index {A} (l : list A) (i : nat) : result A :=
  match nth_error l i with
  | Some x => Ok x
  | None => Raise IndexError
  end.

(** [l[-1]] *)
Definition index_last {A} (l : list A) : result A :=
  match rev l with
  | x :: _ => Ok x
  | [] => Raise IndexError
  end.

(** binary64 *)
Definition float := spec_float.
Definition prec : Z := 53.
Definition emax : Z := 1024.

(** [float(n)]: the nearest binary64, ties to even (infinity where Python
    raises [OverflowError]). *)
Definition float_of_Z (n : Z) : float := binary_normalize prec emax n 0 false.

Definition flt (x y : float) : bool := SFltb x y.
Definition fmul (x y : float) : float := SFmul prec emax x y.
Definition fdiv (x y : float) : float := SFdiv prec emax x y.

(** An [int] as the exact operand of a division: the mantissa is the
    integer itself, not rounded to 53 bits. *)
Definition exact_int (n : Z) : float :=
  match n with
  | Z0 => S754_zero false
  | Zpos p => S754_finite false p 0
  | Zneg p => S754_finite true p 0
  end.

(** [a / b] on two [int]s: true division.  The exact quotient is rounded
    once to the nearest binary64, ties to even, whatever the sizes of [a]
    and [b]; a quotient too large for a float raises [OverflowError]. *)
Definition truediv (a b : Z) : result float :=
  if (b =? 0)%Z then Raise ZeroDivisionError
  else match SFdiv prec emax (exact_int a) (exact_int b) with
       | S754_infinity _ => Raise OverflowError
       | q => Ok q
       end.

(** [int(x)]: truncation towards zero of a finite float; [OverflowError]
    on an infinity and [ValueError] on a NaN. *)
Definition int_of_float (x : float) : result Z :=
  match x with
  | S754_zero _ => Ok 0%Z
  | S754_finite s m e =>
      let a := match e with
               | Zneg p => Z.shiftr (Zpos m) (Zpos p)
               | _ => Z.shiftl (Zpos m) e
               end in
      Ok (if s then Z.opp a else a)
  | S754_infinity _ => Raise OverflowError
  | S754_nan => Raise ValueError
  end.

Definition f0_0 : float := S754_zero false.
Definition f0_5 : float := S754_finite false 4503599627370496 (-53).
(** [2e-5], that is [0x3EF4F8B588E368F1]. *)
Definition f2em5 : float := S754_finite false 5902958103587057 (-68).
(** [0.1], that is [0x3FB999999999999A]. *)
Definition f0_1 : float := S754_finite false 7205759403792794 (-56).

(** A label is a [str] or an [int] (docstring of [FastBERT.forward]). *)
Inductive label : Type :=
  | LStr (s : string)
  | LInt (n : Z).

(** [a == b] on labels: a [str] never equals an [int]. *)
Definition label_eqb (a b : label) : bool :=
  match a, b with
  | LStr s, LStr t => String.eqb s t
  | LInt m, LInt n => Z.eqb m n
  | _, _ => false
  end.

(** A [dict] as an association list in insertion order. *)
Definition dict (Key V : Type) := list (Key * V).

Section Dict.
Context {Key V : Type} (eqb : Key -> Key -> bool).

  (** [d[k]] *)
Fixpoint get (d : dict Key V) (k : Key) : result V :=
    match d with
    | [] => Raise KeyError
    | (k', v) :: d' => if eqb k' k then Ok v else get d' k
    end.

  (** [d[k] = v]: an existing key keeps its place and takes the new value. *)
Fixpoint set (d : dict Key V) (k : Key) (v : V) : dict Key V :=
    match d with
    | [] => [(k, v)]
    | (k', v') :: d' =>
        if eqb k' k then (k', v) :: d' else (k', v') :: set d' k v
    end.
End Dict.

(** [enumerate(l)] *)
Fixpoint enumerate_from {A} (i : Z) (l : list A) : list (Z * A) :=
  match l with
  | [] => []
  | x :: l' => (i, x) :: enumerate_from (i + 1) l'
  end.
Definition enumerate {A} (l : list A) := enumerate_from 0 l.

End Py.

Import Py.

Notation "x <- c1 ;; c2" := (Py.bind c1 (fun x => c2))
  (at level 61, c1 at next level, right associativity).
Notation "' pat <- c1 ;; c2" :=
  (Py.bind c1 (fun x => match x with pat => c2 end))
  (at level 61, pat pattern, c1 at next level, right associativity).

(** ** Token conversion: [FastBERT._convert_to_id_and_mask] *)

(** The tokenizer and the vocabulary ([uer.utils.tokenizer.BertTokenizer],
    [uer.utils.vocab.Vocab]) and [args.seq_length]. *)
Record Text : Type := {
  tokenize : string -> list string;
  vocab_get : string -> Z;
  seq_length : Z
}.

Section Convert.
Context (T : Text).

(** [self.cls_id = self.vocab.get('[CLS]')] *)
Definition cls_id : Z := vocab_get T "[CLS]".
(** [self.pad_id = self.vocab.get('[PAD]')] *)
Definition pad_id : Z := vocab_get T "[PAD]".

Definition _convert_to_id_and_mask (sentence : string) : list Z * list Z :=
  let ids := [cls_id] ++ map (vocab_get T) (tokenize T sentence) in
  let mask := replicate 1%Z (len ids) in
  if (seq_length T <=? len ids)%Z then
    (slice_to ids (seq_length T), slice_to mask (seq_length T))
  else
    let pad_num := (seq_length T - len ids)%Z in
    (ids ++ replicate pad_id pad_num, mask ++ replicate 0%Z pad_num).

(** The real tokens of a sentence: the start token and the vocabulary ids
    of its tokens. *)
Definition real_tokens (sentence : string) : list Z :=
  cls_id :: map (vocab_get T) (tokenize T sentence).

End Convert.


(** ** The classifier head: [MiniClassifier] *)

(** A tensor is a nested list, outermost dimension first; [R] is the type
    of its entries.  The batch dimension is never empty in this module. *)
Definition tensor2 (R : Type) := list (list R).
Definition tensor3 (R : Type) := list (list (list R)).

(** The torch operations and sub-modules a head uses.  [W] is the type of
    the parameters of one head, [Mask] the type of the attention mask. *)
Record HeadOps (R W Mask : Type) : Type := {
  (** [nn.Linear] applied to one vector of the last dimension *)
  output_layer_0 : W -> list R -> list R;
  output_layer_1 : W -> list R -> list R;
  output_layer_2 : W -> list R -> list R;
  (** [MultiHeadedAttention.forward(key, value, query, mask)] *)
  self_atten : W -> tensor3 R -> tensor3 R -> tensor3 R -> Mask -> tensor3 R;
  (** [torch.tanh] on one entry *)
  tanh : R -> R;
  (** the mean and the maximum of the entries along one dimension *)
  mean_of : list R -> R;
  max_of : list R -> R
}.
Arguments output_layer_0 {R W Mask} h.
Arguments output_layer_1 {R W Mask} h.
Arguments output_layer_2 {R W Mask} h.
Arguments self_atten {R W Mask} h.
Arguments tanh {R W Mask} h.
Arguments mean_of {R W Mask} h.
Arguments max_of {R W Mask} h.

(** The rows of a matrix seen as columns: [m[:, j]] for each [j]. *)
Fixpoint columns {R} (m : list (list R)) : list (list R) :=
  match m with
  | [] => []
  | [row] => map (fun x => [x]) row
  | row :: m' => map (fun xc => fst xc :: snd xc) (combine row (columns m'))
  end.

Section MiniClassifier.
Context {R W Mask : Type} (ops : HeadOps R W Mask).

(** [torch.mean(hidden, dim=-1)]: the last dimension is reduced. *)
Definition torch_mean_last (hidden : tensor3 R) : tensor2 R :=
  map (map (mean_of ops)) hidden.

(** [torch.max(hidden, dim=1)[0]]: dimension 1 is reduced; torch refuses
    an empty reduction dimension. *)
Definition torch_max_dim1 (hidden : tensor3 R) : result (tensor2 R) :=
  map_result
    (fun m => match m with
              | [] => Raise IndexError
              | _ => Ok (map (max_of ops) (columns m))
              end) hidden.

(** [hidden[:, -1, :]] *)
Definition select_last (hidden : tensor3 R) : result (tensor2 R) :=
  map_result (fun m => index_last m) hidden.

(** [hidden[:, 0, :]] *)
Definition select_first (hidden : tensor3 R) : result (tensor2 R) :=
  map_result (fun m => index m 0) hidden.

(** The [if self.pooling == ...] chain of [MiniClassifier.forward]. *)
Definition pool (pooling : string) (hidden : tensor3 R) : result (tensor2 R) :=
  if String.eqb pooling "mean" then Ok (torch_mean_last hidden)
  else if String.eqb pooling "max" then torch_max_dim1 hidden
  else if String.eqb pooling "last" then select_last hidden
  else select_first hidden.

Definition MiniClassifier_forward (pooling : string) (w : W)
    (hidden : tensor3 R) (mask : Mask) : result (tensor2 R) :=
  let hidden := map (map (fun v => map (tanh ops) (output_layer_0 ops w v))) hidden in
  let hidden := self_atten ops w hidden hidden hidden mask in
  hidden <- pool pooling hidden ;;
  let output_1 := map (fun v => map (tanh ops) (output_layer_1 ops w v)) hidden in
  let logits := map (output_layer_2 ops w) output_1 in
  Ok logits.

End MiniClassifier.

(** Shapes of tensors. *)
Definition has_shape2 {R} (b h : nat) (t : tensor2 R) : Prop :=
  length t = b /\ Forall (fun row => length row = h) t.

Definition has_shape3 {R} (b s h : nat) (t : tensor3 R) : Prop :=
  length t = b /\ Forall (has_shape2 s h) t.

(** [shape2 t] is [(batch, width)] as computed from the first row. *)
Definition shape2 {R} (t : tensor2 R) : nat * nat :=
  (length t, match t with [] => 0 | row :: _ => length row end).


(** ** The model object: [FastBERT] *)

(** All the parameters of the model: the backbone and one head per layer
    ([self.kernel], [self.classifiers]). *)
Record Params (KernelW HeadW : Type) : Type := {
  kernel : KernelW;
  classifiers : list HeadW
}.
Arguments kernel {KernelW HeadW} p.
Arguments classifiers {KernelW HeadW} p.

(** The [.grad] attribute of each parameter group; [None] as in torch. *)
Record Grads (G : Type) : Type := {
  kernel_grad : option G;
  classifier_grads : list (option G)
}.
Arguments kernel_grad {G} g.
Arguments classifier_grads {G} g.

(** What FastBERT takes from its imports and from its constructor. *)
Record Env : Type := {
  (** constructor arguments and configuration *)
  text : Text;
  labels : list label;
  layers_num : nat;                          (* kernel.encoder.layers_num *)
  tmp_model_saving_path : string;            (* TMP_DIR/FastBERT_tmp.bin *)
  (** carriers *)
  Tensor : Type;
  KernelW : Type;
  HeadW : Type;
  Grad : Type;
  Optim : Type;                              (* AdamW with its schedule *)
  Rng : Type;                                (* state of [random] *)
  (** torch and the kernel; the first argument of a module is
      [self.training] *)
  tensor_of_rows : list (list Z) -> Tensor;
  tensor_of_ints : list Z -> Tensor;
  embedding : bool -> KernelW -> Tensor -> Tensor -> Tensor;
  extend_mask : Z -> Tensor -> Tensor;
  transformer : bool -> KernelW -> nat -> Tensor -> Tensor -> Tensor;
  classifier : bool -> HeadW -> Tensor -> Tensor -> Tensor;
  softmax : Tensor -> Tensor;
  log_softmax : Tensor -> Tensor;
  view : Tensor -> nat -> Tensor;
  view_flat : Tensor -> Tensor;
  criterion : Tensor -> Tensor -> Tensor;
  soft_criterion : Tensor -> Tensor -> Tensor;
  add_int : Z -> Tensor -> Tensor;
  add : Tensor -> Tensor -> Tensor;
  argmax : Tensor -> Tensor;
  item : Tensor -> float;
  item_int : Tensor -> Z;
  (** [utils.calc_uncertainty] *)
  calc_uncertainty : Tensor -> nat -> Tensor;
  (** autograd and the optimizer *)
  backward : (Params KernelW HeadW -> option Tensor) ->
             Params KernelW HeadW -> Grads Grad -> Grads Grad;
  zero_grad : Grads Grad -> Grads Grad;
  AdamW : float -> Optim;
  WarmupLinearSchedule : Optim -> float -> Z -> Optim;
  optimizer_step : Optim -> Grads Grad -> Params KernelW HeadW ->
                   Params KernelW HeadW * Optim;
  scheduler_step : Optim -> Optim;
  (** [utils.shuffle_pairs] and [random.shuffle] *)
  shuffle_pairs : Rng -> list string -> list label ->
                  list string * list label * Rng;
  random_shuffle : Rng -> list string -> list string * Rng
}.

Definition ParamsOf (E : Env) : Type := Params (KernelW E) (HeadW E).
Definition GradsOf (E : Env) : Type := Grads (Grad E).

(** The value bound to [loss] in [_forward_for_loss]: the [int] [0] or a
    tensor. *)
Inductive py_loss (E : Env) : Type :=
| LossInt (z : Z)
| LossTensor (t : Tensor E).
Arguments LossInt {E} z.
Arguments LossTensor {E} t.

Section Inference.
Context (E : Env).

Definition labels_num : nat := length (labels E).

(** [self.label_map = {k: v for v, k in enumerate(labels)}] *)
Definition label_map : dict label Z :=
  fold_left (fun d vk => set label_eqb d (snd vk) (fst vk))
            (enumerate (labels E)) [].

(** [self.id2label = {v: k for k, v in self.label_map.items()}] *)
Definition id2label : dict Z label :=
  fold_left (fun d kv => set Z.eqb d (snd kv) (fst kv)) label_map [].

(** [self.id2label[x]] for an arbitrary value [x]: the keys are all
    [int]s, so a [str] is never found. *)
Definition id2label_getitem (x : label) : result label :=
  match x with
  | LInt n => get Z.eqb id2label n
  | LStr _ => Raise KeyError
  end.

(** The [for i in range(layers_num)] loop of [_fast_infer], from layer
    [i] on.  [probs] is the last value bound to the variable [probs], if
    any; the result carries it and [Some (i + 1)] when the loop was left by
    [break] at layer [i]. *)
Fixpoint infer_loop (p : ParamsOf E) (mask : Tensor E) (speed : float)
    (layers : list nat) (hidden : Tensor E) (probs : option (Tensor E))
    : result (option (Tensor E) * option nat) :=
  match layers with
  | [] => Ok (probs, None)
  | i :: layers' =>
      let hidden := transformer E false (kernel p) i hidden mask in
      head <- index (classifiers p) i ;;
      let logits := classifier E false head hidden mask in
      let probs := softmax E logits in
      let uncertainty := item E (calc_uncertainty E probs labels_num) in
      if flt uncertainty speed then Ok (Some probs, Some (i + 1))
      else infer_loop p mask speed layers' hidden (Some probs)
  end.

Definition _fast_infer (p : ParamsOf E) (sentence : string) (speed : float)
    : result (label * nat) :=
  let (ids, mask) := _convert_to_id_and_mask (text E) sentence in
  let ids := tensor_of_rows E [ids] in
  let mask := tensor_of_rows E [mask] in
  let emb := embedding E false (kernel p) ids mask in
  let mask := extend_mask E (seq_length (text E)) mask in
  let hidden := emb in
  r <- infer_loop p mask speed (seq 0 (layers_num E)) hidden None ;;
  let exec_layer_num :=
    match snd r with Some n => n | None => layers_num E end in
  match fst r with
  | None => Raise UnboundLocalError
  | Some probs =>
      let label_id := item_int E (argmax E probs) in
      label <- get Z.eqb id2label label_id ;;
      Ok (label, exec_layer_num)
  end.

(** [FastBERT.forward] *)
Definition forward (p : ParamsOf E) (sentence : string) (speed : float)
    : result (label * nat) :=
  r <- _fast_infer p sentence speed ;;
  let (label_id, exec_layer_num) := r in
  label <- id2label_getitem label_id ;;
  Ok (label, exec_layer_num).

(** The body of the [for sent, label in zip(...)] loop of [_evaluate]; the
    accumulator is [(right_count, exec_layers)]. *)
Definition evaluate_body (p : ParamsOf E) (speed : float)
    (acc : Z * list nat) (x : string * label) : result (Z * list nat) :=
  r <- _fast_infer p (fst x) speed ;;
  let (label_pred, el) := r in
  Ok (if label_eqb (snd x) label_pred then (fst acc + 1)%Z else fst acc,
      snd acc ++ [el]).

(** [np.mean] of a list of layer counts: their sum over their number in
    binary64; NaN on the empty list. *)
Definition np_mean (l : list nat) : float :=
  fdiv (float_of_Z (Z.of_nat (fold_right Nat.add 0 l))) (float_of_Z (len l)).

Definition _evaluate (p : ParamsOf E) (sentences_batch : list string)
    (labels_batch : list label) (speed : float) : result (float * float) :=
  let total_num := len sentences_batch in
  r <- for_each (evaluate_body p speed)
         (combine sentences_batch labels_batch) (0%Z, []) ;;
  let (right_count, exec_layers) := r in
  acc <- truediv right_count total_num ;;
  Ok (acc, np_mean exec_layers).

(** The hidden states after each of the layers [layers], in order. *)
Fixpoint hidden_states (training : bool) (k : KernelW E) (mask : Tensor E)
    (layers : list nat) (hidden : Tensor E) : list (Tensor E) :=
  match layers with
  | [] => []
  | i :: layers' =>
      let hidden := transformer E training k i hidden mask in
      hidden :: hidden_states training k mask layers' hidden
  end.

(** [loss += x] *)
Definition loss_iadd (loss : py_loss E) (x : Tensor E) : py_loss E :=
  match loss with
  | LossInt z => LossTensor (add_int E z x)
  | LossTensor t => LossTensor (add E t x)
  end.

(** [FastBERT._forward_for_loss].  The parameters are passed twice: [pc]
    is read by what [with torch.no_grad()] computes, a constant for
    autograd, and [p] by everything else.  The method itself is
    [_forward_for_loss p p]; autograd differentiates it in its second
    argument.  In the distillation branch the embedding is computed before
    the block, but only the block reads it, and what the block returns is
    detached from it: the block's input is [embs_const]. *)
Definition _forward_for_loss (pc p : ParamsOf E)
    (sentences_batch : list string) (labels_batch : option (list label))
    : result (py_loss E) :=
  let conv := map (_convert_to_id_and_mask (text E)) sentences_batch in
  let ids_batch := tensor_of_rows E (map fst conv) in
  let masks_batch0 := tensor_of_rows E (map snd conv) in
  let embs_batch := embedding E true (kernel p) ids_batch masks_batch0 in
  let masks_batch := extend_mask E (seq_length (text E)) masks_batch0 in
  match labels_batch with
  | Some labels_batch =>
      label_ids_batch <- map_result (get label_eqb label_map) labels_batch ;;
      let label_ids_batch := tensor_of_ints E label_ids_batch in
      let hiddens_batch :=
        fold_left (fun h i => transformer E true (kernel p) i h masks_batch)
                  (seq 0 (layers_num E)) embs_batch in
      head <- index_last (classifiers p) ;;
      let logits_batch := classifier E true head hiddens_batch masks_batch in
      Ok (LossTensor
            (criterion E (log_softmax E (view E logits_batch labels_num))
                         (view_flat E label_ids_batch)))
  | None =>
      let embs_const := embedding E true (kernel pc) ids_batch masks_batch0 in
      let hiddens_batch_list :=
        hidden_states true (kernel pc) masks_batch
                      (seq 0 (layers_num E)) embs_const in
      teacher <- index_last (classifiers pc) ;;
      last_hidden <- index_last hiddens_batch_list ;;
      let teacher_logits :=
        view E (classifier E true teacher last_hidden masks_batch) labels_num in
      let teacher_probs := softmax E teacher_logits in
      for_each
        (fun loss i =>
           student <- index (classifiers p) i ;;
           hidden_i <- index hiddens_batch_list i ;;
           let student_logits :=
             view E (classifier E true student hidden_i masks_batch)
                  labels_num in
           Ok (loss_iadd loss
                 (soft_criterion E (log_softmax E student_logits)
                                 teacher_probs)))
        (seq 0 (layers_num E - 1)) (LossInt 0)
  end.

End Inference.


(** ** Training: the mutable state and the two phases *)

(** Calls to collaborators, recorded in order (ghost state). *)
Inductive Event (P : Type) : Type :=
| OptimizerCreated (lr : float)                 (* [AdamW(..., lr=lr)] *)
| Evaluated (sentences : list string) (speed : float) (acc ave : float)
                                                (* a return of [_evaluate] *)
| Saved (path : string) (snapshot : P)          (* [save_model(self, path)] *)
| Loaded (path : string).                       (* [load_model(self, path)] *)
Arguments OptimizerCreated {P} lr.
Arguments Evaluated {P} sentences speed acc ave.
Arguments Saved {P} path snapshot.
Arguments Loaded {P} path.

Record State (E : Env) : Type := {
  params : ParamsOf E;
  grads : GradsOf E;
  files : string -> option (ParamsOf E);        (* checkpoint files *)
  rng : Rng E;
  trace : list (Event (ParamsOf E))
}.
Arguments params {E} s.
Arguments grads {E} s.
Arguments files {E} s.
Arguments rng {E} s.
Arguments trace {E} s.

(** A computation that reads and writes the state and may raise. *)
Definition M (E : Env) (A : Type) : Type := State E -> result A * State E.

Definition ret {E A} (a : A) : M E A := fun st => (Ok a, st).

Definition raise {E A} (e : exn) : M E A := fun st => (Raise e, st).

Definition mbind {E A B} (c : M E A) (k : A -> M E B) : M E B :=
  fun st =>
    match c st with
    | (Ok a, st') => k a st'
    | (Raise e, st') => (Raise e, st')
    end.

Definition lift {E A} (r : result A) : M E A := fun st => (r, st).

Notation "x <~ c1 ;; c2" := (mbind c1 (fun x => c2))
  (at level 61, c1 at next level, right associativity).
Notation "c1 ;;; c2" := (mbind c1 (fun _ => c2))
  (at level 61, right associativity).

(** [for x in xs: s = body(x, s)] *)
Fixpoint mfor {E A S} (xs : list A) (body : A -> S -> M E S) (s : S)
    : M E S :=
  match xs with
  | [] => ret s
  | x :: xs' => s' <~ body x s ;; mfor xs' body s'
  end.

(** [a // b] *)
Definition floordiv (a b : Z) : result Z :=
  if (b =? 0)%Z then Raise ZeroDivisionError else Ok (a / b)%Z.

(** [a % b] *)
Definition pymod (a b : Z) : result Z :=
  if (b =? 0)%Z then Raise ZeroDivisionError else Ok (a mod b)%Z.

(** [range(n)] *)
Definition range (n : Z) : list nat := seq 0 (Z.to_nat n).

Section Training.
Context (E : Env).

Definition log (e : Event (ParamsOf E)) : M E unit :=
  fun st => (Ok tt, {| params := params st; grads := grads st;
                       files := files st; rng := rng st;
                       trace := trace st ++ [e] |}).

Definition get_params : M E (ParamsOf E) := fun st => (Ok (params st), st).

Definition update_grads (f : GradsOf E -> GradsOf E) : M E unit :=
  fun st => (Ok tt, {| params := params st; grads := f (grads st);
                       files := files st; rng := rng st;
                       trace := trace st |}).

(** Modelled from the spec: [uer.model_saver.save_model(self, path)], whose
    source is not part of this file.  A checkpoint is a snapshot of all
    the parameters, backbone and heads, overwritten at the same path on
    each save. *)
Definition save_model (path : string) : M E unit :=
  fun st =>
    (Ok tt, {| params := params st; grads := grads st;
               files := fun q => if String.eqb q path then Some (params st)
                                 else files st q;
               rng := rng st;
               trace := trace st ++ [Saved path (params st)] |}).

(** Modelled from the spec: [uer.model_loader.load_model(self, path)],
    whose source is not part of this file.  Loading restores every
    parameter from the snapshot at [path]; a missing file is a fatal I/O
    error propagated to the caller. *)
Definition load_model (path : string) : M E unit :=
  fun st =>
    match files st path with
    | Some p =>
        (Ok tt, {| params := p; grads := grads st; files := files st;
                   rng := rng st; trace := trace st ++ [Loaded path] |})
    | None => (Raise FileNotFoundError, st)
    end.

(** [AdamW(optimizer_grouped_parameters, lr=lr, correct_bias=False)] *)
Definition new_AdamW (lr : float) : M E (Optim E) :=
  log (OptimizerCreated lr) ;;; ret (AdamW E lr).

(** [self._evaluate(...)] on the current parameters. *)
Definition evaluate (sentences : list string) (labels_ : list label)
    (speed : float) : M E (float * float) :=
  p <~ get_params ;;
  r <~ lift (_evaluate E p sentences labels_ speed) ;;
  log (Evaluated sentences speed (fst r) (snd r)) ;;;
  ret r.

(** [loss.item()] *)
Definition loss_item (loss : py_loss E) : result float :=
  match loss with
  | LossInt _ => Raise AttributeError
  | LossTensor t => Ok (item E t)
  end.

(** The scalar a loss is, as autograd sees it. *)
Definition loss_tensor (r : result (py_loss E)) : option (Tensor E) :=
  match r with
  | Ok (LossTensor t) => Some t
  | _ => None
  end.

(** [optimizer.step(); scheduler.step()] *)
Definition apply_optimizer (optimizer : Optim E) : M E (Optim E) :=
  fun st =>
    let (p', o') := optimizer_step E optimizer (grads st) (params st) in
    (Ok (scheduler_step E o'),
     {| params := p'; grads := grads st; files := files st; rng := rng st;
        trace := trace st |}).

(** One pass of the [for step in range(steps_num)] loop of either phase.
    [labels_train] is [None] in the self-distillation phase.  [report_loss]
    only feeds [print] and is not kept, but [loss.item()] and
    [(step+1) % report_steps] are evaluated. *)
Definition train_step (sentences_train : list string)
    (labels_train : option (list label)) (batch_size report_steps : Z)
    (step : nat) (optimizer : Optim E) : M E (Optim E) :=
  update_grads (zero_grad E) ;;;
  let lo := (Z.of_nat step * batch_size)%Z in
  let hi := ((Z.of_nat step + 1) * batch_size)%Z in
  let sentences_batch := slice sentences_train lo hi in
  let labels_batch := option_map (fun l => slice l lo hi) labels_train in
  p <~ get_params ;;
  loss <~ lift (_forward_for_loss E p p sentences_batch labels_batch) ;;
  _ <~ lift (loss_item loss) ;;
  _ <~ lift (pymod (Z.of_nat step + 1) report_steps) ;;
  update_grads
    (backward E
       (fun q => loss_tensor
                   (_forward_for_loss E p q sentences_batch labels_batch))
       p) ;;;
  apply_optimizer optimizer.

(** The lines of both phases before the epoch loop: the step counts and
    the optimizer with its schedule.  The result is [(steps_num,
    optimizer)]. *)
Definition training_setup (instances_num batch_size : Z)
    (learning_rate : float) (epochs_num : Z) (warmup : float)
    : M E (Z * Optim E) :=
  q <~ lift (truediv (instances_num * epochs_num) batch_size) ;;
  t <~ lift (int_of_float q) ;;
  let train_steps := (t + 1)%Z in
  steps_num <~ lift (floordiv instances_num batch_size) ;;
  optimizer <~ new_AdamW learning_rate ;;
  ret (steps_num,
       WarmupLinearSchedule E optimizer
         (fmul (float_of_Z train_steps) warmup) train_steps).

(** The variables the epoch loop of [_fine_tuning_backbone] updates. *)
Record FineTuneVars : Type := {
  best_acc : float;
  ft_sentences : list string;
  ft_labels : list label;
  ft_optimizer : Optim E
}.

(** [utils.shuffle_pairs(sentences, labels)] *)
Definition do_shuffle_pairs (ss : list string) (ls : list label)
    : M E (list string * list label) :=
  fun st =>
    let '(ss', ls', g) := shuffle_pairs E (rng st) ss ls in
    (Ok (ss', ls'),
     {| params := params st; grads := grads st; files := files st;
        rng := g; trace := trace st |}).

(** [random.shuffle(sentences)] *)
Definition do_random_shuffle (ss : list string) : M E (list string) :=
  fun st =>
    let (ss', g) := random_shuffle E (rng st) ss in
    (Ok ss',
     {| params := params st; grads := grads st; files := files st;
        rng := g; trace := trace st |}).

(** The body of [for epoch in range(epochs_num)] in
    [_fine_tuning_backbone]. *)
Definition fine_tuning_epoch (sentences_dev : list string)
    (labels_dev : list label) (batch_size report_steps : Z)
    (model_saving_path : string) (steps_num : Z)
    (epoch : nat) (v : FineTuneVars) : M E FineTuneVars :=
  let dev_num := len sentences_dev in
  shuffled <~ do_shuffle_pairs (ft_sentences v) (ft_labels v) ;;
  let (sentences_train, labels_train) := shuffled in
  optimizer <~ mfor (range steps_num)
                 (train_step sentences_train (Some labels_train)
                             batch_size report_steps)
                 (ft_optimizer v) ;;
  dev_acc <~ (if (0 <? dev_num)%Z
              then r <~ evaluate sentences_dev labels_dev f0_0 ;; ret (fst r)
              else raise TypeError) ;;
  r <~ evaluate sentences_train labels_train f0_0 ;;
  let train_acc := fst r in
  best <~ (if (0 <? dev_num)%Z then
             if flt (best_acc v) dev_acc
             then save_model model_saving_path ;;; ret dev_acc
             else ret (best_acc v)
           else
             if flt (best_acc v) train_acc
             then save_model model_saving_path ;;; ret train_acc
             else ret (best_acc v)) ;;
  ret {| best_acc := best; ft_sentences := sentences_train;
         ft_labels := labels_train; ft_optimizer := optimizer |}.

(** [_fine_tuning_backbone] up to the end of its epoch loop, over the
    epochs [epochs]. *)
Definition fine_tuning_epochs (sentences_train : list string)
    (labels_train : list label) (sentences_dev : list string)
    (labels_dev : list label) (batch_size : Z) (learning_rate : float)
    (epochs_num : Z) (warmup : float) (report_steps : Z)
    (model_saving_path : string) (epochs : list nat) : M E FineTuneVars :=
  s <~ training_setup (len sentences_train) batch_size learning_rate
         epochs_num warmup ;;
  let (steps_num, optimizer) := s in
  mfor epochs
    (fine_tuning_epoch sentences_dev labels_dev batch_size report_steps
                       model_saving_path steps_num)
    {| best_acc := f0_0; ft_sentences := sentences_train;
       ft_labels := labels_train; ft_optimizer := optimizer |}.

Definition _fine_tuning_backbone (sentences_train : list string)
    (labels_train : list label) (sentences_dev : list string)
    (labels_dev : list label) (batch_size : Z) (learning_rate : float)
    (epochs_num : Z) (warmup : float) (report_steps : Z)
    (model_saving_path : string) : M E unit :=
  fine_tuning_epochs sentences_train labels_train sentences_dev labels_dev
    batch_size learning_rate epochs_num warmup report_steps
    model_saving_path (range epochs_num) ;;;
  load_model model_saving_path.

(** The body of [for epoch in range(epochs_num)] in [self_distillation];
    the loop variables are the training sentences and the optimizer. *)
Definition distillation_epoch (sentences_dev : list string)
    (labels_dev : list label) (batch_size report_steps : Z)
    (model_saving_path : string) (steps_num : Z)
    (epoch : nat) (v : list string * Optim E)
    : M E (list string * Optim E) :=
  let dev_num := len sentences_dev in
  sentences_train <~ do_random_shuffle (fst v) ;;
  optimizer <~ mfor (range steps_num)
                 (train_step sentences_train None batch_size report_steps)
                 (snd v) ;;
  _ <~ (if (0 <? dev_num)%Z
        then evaluate sentences_dev labels_dev f0_5
        else raise TypeError) ;;
  save_model model_saving_path ;;;
  ret (sentences_train, optimizer).

Definition self_distillation (sentences_train : list string)
    (batch_size : Z) (learning_rate : float) (epochs_num : Z)
    (warmup : float) (report_steps : Z) (model_saving_path : string)
    (sentences_dev : list string) (labels_dev : list label)
    (dev_speed : float) : M E unit :=
  s <~ training_setup (len sentences_train) batch_size learning_rate
         epochs_num warmup ;;
  let (steps_num, optimizer) := s in
  mfor (range epochs_num)
    (distillation_epoch sentences_dev labels_dev batch_size report_steps
                        model_saving_path steps_num)
    (sentences_train, optimizer) ;;;
  ret tt.

(** The keyword arguments of [fit]; [None] is an absent key. *)
Record FitKwargs : Type := {
  kw_batch_size : option Z;
  kw_sentences_dev : option (list string);
  kw_labels_dev : option (list label);
  kw_learning_rate : option float;
  kw_finetuning_epochs_num : option Z;
  kw_distilling_epochs_num : option Z;
  kw_report_steps : option Z;
  kw_warmup : option float;
  kw_dev_speed : option float;
  kw_model_saving_path : option string
}.

(** [kwargs.get(key, default)] *)
Definition kwargs_get {A} (o : option A) (default : A) : A :=
  match o with Some a => a | None => default end.

(** [FastBERT.fit] *)
Definition fit (sentences_train : list string) (labels_train : list label)
    (kwargs : FitKwargs) : M E unit :=
  let batch_size := kwargs_get (kw_batch_size kwargs) 16%Z in
  let sentences_dev := kwargs_get (kw_sentences_dev kwargs) [] in
  let labels_dev := kwargs_get (kw_labels_dev kwargs) [] in
  let learning_rate := kwargs_get (kw_learning_rate kwargs) f2em5 in
  let finetuning_epochs_num :=
    kwargs_get (kw_finetuning_epochs_num kwargs) 5%Z in
  let distilling_epochs_num :=
    kwargs_get (kw_distilling_epochs_num kwargs) 10%Z in
  let report_steps := kwargs_get (kw_report_steps kwargs) 100%Z in
  let warmup := kwargs_get (kw_warmup kwargs) f0_1 in
  let dev_speed := kwargs_get (kw_dev_speed kwargs) f0_5 in
  let model_saving_path :=
    kwargs_get (kw_model_saving_path kwargs) (tmp_model_saving_path E) in
  _fine_tuning_backbone sentences_train labels_train sentences_dev
    labels_dev batch_size learning_rate finetuning_epochs_num warmup
    report_steps model_saving_path ;;;
  self_distillation sentences_train batch_size
    (fmul learning_rate (float_of_Z 10)) distilling_epochs_num warmup
    report_steps model_saving_path sentences_dev labels_dev dev_speed ;;;
  save_model model_saving_path.

End Training.


(** ** Definitions used to state the properties *)

(** [l] with position [i] replaced by [x]; [l] itself when [i] is out of
    range. *)
Fixpoint list_set {A} (l : list A) (i : nat) (x : A) : list A :=
  match l, i with
  | [], _ => []
  | _ :: l', O => x :: l'
  | y :: l', S i' => y :: list_set l' i' x
  end.

(** The parameters [p] with head [i] replaced by [h]. *)
Definition set_head {KW HW} (p : Params KW HW) (i : nat) (h : HW)
    : Params KW HW :=
  {| kernel := kernel p; classifiers := list_set (classifiers p) i h |}.

(** Head [i] has no gradient: its [.grad] is [None]. *)
Definition no_grad_at {G} (g : Grads G) (i : nat) : Prop :=
  nth i (classifier_grads g) None = None.

(** What the phases rely on from autograd and from the optimizer:
    [backward] leaves alone the gradient of a head the loss does not depend
    on, [zero_grad] keeps an absent gradient absent, and [optimizer.step]
    skips a parameter whose gradient is absent and keeps the cascade's
    length. *)
Record AutogradContract (E : Env) : Prop := {
  ag_backward : forall f p g i,
    (forall h, f (set_head p i h) = f p) ->
    nth i (classifier_grads (backward E f p g)) None
    = nth i (classifier_grads g) None;
  ag_zero_grad : forall g i,
    no_grad_at g i -> no_grad_at (zero_grad E g) i;
  ag_step_frame : forall o g p i,
    no_grad_at g i ->
    nth_error (classifiers (fst (optimizer_step E o g p))) i
    = nth_error (classifiers p) i;
  ag_step_length : forall o g p,
    length (classifiers (fst (optimizer_step E o g p)))
    = length (classifiers p)
}.

(** What inference relies on from the heads: the arg-max of the
    probabilities of a head is a label id (a head ends in
    [nn.Linear(cla_hidden_size, labels_num)]). *)
Definition LabelIdsInRange (E : Env) : Prop :=
  forall h hidden mask,
    (0 <= item_int E (argmax E (softmax E (classifier E false h hidden mask)))
     < Z.of_nat (labels_num E))%Z.

(** What inference relies on from [utils.calc_uncertainty], whose source is
    not part of this file: by its contract in the design document the score
    lies in [[0, 1]], so it is never below [0.0]. *)
Definition UncertaintyNonNegative (E : Env) : Prop :=
  forall probs n, flt (item E (calc_uncertainty E probs n)) f0_0 = false.

(** The cascade has one head per layer, and at least one layer. *)
Definition CascadeShape (E : Env) (p : ParamsOf E) : Prop :=
  1 <= layers_num E /\ length (classifiers p) = layers_num E.

Section Statements.
Context (E : Env).

(** The attention mask and the embedding [_fast_infer] computes for a
    sentence, in evaluation mode. *)
Definition sentence_mask (sentence : string) : Tensor E :=
  extend_mask E (seq_length (text E))
    (tensor_of_rows E [snd (_convert_to_id_and_mask (text E) sentence)]).

Definition sentence_embedding (p : ParamsOf E) (sentence : string)
    : Tensor E :=
  embedding E false (kernel p)
    (tensor_of_rows E [fst (_convert_to_id_and_mask (text E) sentence)])
    (tensor_of_rows E [snd (_convert_to_id_and_mask (text E) sentence)]).

(** The hidden state after all the layers and the probabilities the
    teacher head (the last one) gives on it, in evaluation mode. *)
Definition teacher_probs (p : ParamsOf E) (sentence : string)
    : result (Tensor E) :=
  let mask := sentence_mask sentence in
  let hidden :=
    fold_left (fun h i => transformer E false (kernel p) i h mask)
              (seq 0 (layers_num E)) (sentence_embedding p sentence) in
  teacher <- index_last (classifiers p) ;;
  Ok (softmax E (classifier E false teacher hidden mask)).

(** A tensor that is the probabilities of some head. *)
Definition head_output (t : Tensor E) : Prop :=
  exists h hidden mask, t = softmax E (classifier E false h hidden mask).

(** What the variable [exec_layer_num] holds after the loop. *)
Definition exec_layers (default : nat) (exit : option nat) : nat :=
  match exit with Some n => n | None => default end.

(** The snapshots written by [save_model], oldest first. *)
Fixpoint saved_snapshots (tr : list (Event (ParamsOf E)))
    : list (string * ParamsOf E) :=
  match tr with
  | [] => []
  | Saved path q :: tr' => (path, q) :: saved_snapshots tr'
  | _ :: tr' => saved_snapshots tr'
  end.

(** The learning rates of the optimizers created, oldest first. *)
Fixpoint optimizer_rates (tr : list (Event (ParamsOf E))) : list float :=
  match tr with
  | [] => []
  | OptimizerCreated lr :: tr' => lr :: optimizer_rates tr'
  | _ :: tr' => optimizer_rates tr'
  end.

(** The speeds [_evaluate] was called with, oldest first. *)
Fixpoint evaluation_speeds (tr : list (Event (ParamsOf E))) : list float :=
  match tr with
  | [] => []
  | Evaluated _ speed _ _ :: tr' => speed :: evaluation_speeds tr'
  | _ :: tr' => evaluation_speeds tr'
  end.

(** The average layer counts [_evaluate] returned, oldest first. *)
Fixpoint evaluation_averages (tr : list (Event (ParamsOf E))) : list float :=
  match tr with
  | [] => []
  | Evaluated _ _ _ ave :: tr' => ave :: evaluation_averages tr'
  | _ :: tr' => evaluation_averages tr'
  end.

(** The larger of [best] and [a] as the checkpoint test computes it. *)
Definition improve (best a : float) : float :=
  if flt best a then a else best.

End Statements.


(** The heads of [q] other than the last one (the students) are those of
    [p0], and the cascade has kept its length. *)
Definition same_students {KW HW} (p0 q : Params KW HW) : Prop :=
  length (classifiers q) = length (classifiers p0) /\
  forall i, i + 1 < length (classifiers p0) ->
            nth_error (classifiers q) i = nth_error (classifiers p0) i.

(** No student head of the cascade of [p0] has a gradient in [g]. *)
Definition students_grad_free {KW HW G} (p0 : Params KW HW) (g : Grads G)
    : Prop :=
  forall i, i + 1 < length (classifiers p0) -> no_grad_at g i.

Section PhaseOneStatements.
Context (E : Env).
Variables (sentences_train : list string) (labels_train : list label).
Variables (sentences_dev : list string) (labels_dev : list label).
Variables (batch_size : Z) (learning_rate : float) (epochs_num : Z).
Variables (warmup : float) (report_steps : Z) (model_saving_path : string).
Variable st0 : State E.

(** The loop variables and the state after the first [k] epochs of
    [_fine_tuning_backbone] started in [st0]. *)
Definition after_epochs (k : nat) : result (FineTuneVars E) * State E :=
  fine_tuning_epochs E sentences_train labels_train sentences_dev labels_dev
    batch_size learning_rate epochs_num warmup report_steps
    model_saving_path (seq 0 k) st0.

(** The accuracy of the parameters [q] on the validation set at speed
    0.0. *)
Definition dev_accuracy (q : ParamsOf E) : float :=
  match _evaluate E q sentences_dev labels_dev f0_0 with
  | Ok r => fst r
  | Raise _ => f0_0
  end.

(** The best validation accuracy seen in the first [k] epochs, starting
    from 0.0. *)
Fixpoint best_so_far (k : nat) : float :=
  match k with
  | O => f0_0
  | S k' =>
      improve (best_so_far k')
              (dev_accuracy (params (snd (after_epochs (S k')))))
  end.

End PhaseOneStatements.

(** Relations between the state before and after a computation. *)
Section Frames.
Context (E : Env).

(** Every run of [c] relates the state it starts in to the state it ends
    in, whether it returns or raises. *)
Definition respects {A} (R : State E -> State E -> Prop) (c : M E A) : Prop :=
  forall st, R st (snd (c st)).

(** Nothing was recorded and no file was written. *)
Definition silent (st st' : State E) : Prop :=
  trace st' = trace st /\ files st' = files st.

(** No checkpoint was written. *)
Definition keeps_checkpoints (st st' : State E) : Prop :=
  saved_snapshots E (trace st') = saved_snapshots E (trace st) /\
  files st' = files st.

(** The parameters are the same. *)
Definition keeps_params (st st' : State E) : Prop :=
  params st' = params st.

(** No optimizer was created. *)
Definition keeps_rates (st st' : State E) : Prop :=
  optimizer_rates E (trace st') = optimizer_rates E (trace st).

(** The optimizers created by a run of [c] from [st] have the learning
    rates [created]. *)
Definition creates {A} (c : M E A) (st : State E) (created : list float)
    : Prop :=
  optimizer_rates E (trace (snd (c st)))
  = optimizer_rates E (trace st) ++ created.

(** Every evaluation that was added ran at the speed [speed]. *)
Definition evaluates_at (speed : float) (st st' : State E) : Prop :=
  exists new,
    evaluation_speeds E (trace st')
    = evaluation_speeds E (trace st) ++ new /\
    Forall (eq speed) new.

(** The invariant of phase 1 on the student heads, for a phase started
    with the parameters [p0] and the checkpoint files [files0], when the
    trace held the snapshots [saved0]: the students in memory are those of
    [p0] and have no gradient, every snapshot written since holds the
    students of [p0], and the file at [path] is the last of them if there is
    one and the initial file otherwise. *)
Definition students_invariant (p0 : ParamsOf E)
    (files0 : string -> option (ParamsOf E))
    (saved0 : list (string * ParamsOf E)) (path : string) (st : State E)
    : Prop :=
  same_students p0 (params st) /\
  students_grad_free p0 (grads st) /\
  exists new,
    saved_snapshots E (trace st) = saved0 ++ new /\
    Forall (fun s => same_students p0 (snd s)) new /\
    (new = [] -> files st path = files0 path) /\
    (new <> [] -> exists q, files st path = Some q /\ same_students p0 q).

End Frames.
Arguments respects {E A} R c.
Arguments silent {E} st st'.
Arguments creates {E A} c st created.

(** ** Definitions used to state further properties *)

Section LayerStatements.
Context (E : Env).

(** The hidden state [_fast_infer] holds once the first [i] layers have
    run. *)
Definition hidden_after (p : ParamsOf E) (sentence : string) (i : nat)
    : Tensor E :=
  fold_left
    (fun h j => transformer E false (kernel p) j h (sentence_mask E sentence))
    (seq 0 i) (sentence_embedding E p sentence).

(** The probabilities the head of layer [i] gives on the hidden state after
    layers [0] to [i], when the cascade has a head [i]. *)
Definition layer_probs (p : ParamsOf E) (sentence : string) (i : nat)
    : option (Tensor E) :=
  option_map
    (fun head =>
       softmax E (classifier E false head (hidden_after p sentence (S i))
                             (sentence_mask E sentence)))
    (nth_error (classifiers p) i).

(** The uncertainty that [_fast_infer] compares with [speed] at layer
    [i]. *)
Definition layer_uncertainty (p : ParamsOf E) (sentence : string) (i : nat)
    : option float :=
  option_map (fun probs => item E (calc_uncertainty E probs (labels_num E)))
             (layer_probs p sentence i).

(** The same model over a backbone of [n] layers. *)
Definition with_layers_num (n : nat) : Env :=
  {| text := text E;
     labels := labels E;
     layers_num := n;
     tmp_model_saving_path := tmp_model_saving_path E;
     Tensor := Tensor E;
     KernelW := KernelW E;
     HeadW := HeadW E;
     Grad := Grad E;
     Optim := Optim E;
     Rng := Rng E;
     tensor_of_rows := tensor_of_rows E;
     tensor_of_ints := tensor_of_ints E;
     embedding := embedding E;
     extend_mask := extend_mask E;
     transformer := transformer E;
     classifier := classifier E;
     softmax := softmax E;
     log_softmax := log_softmax E;
     view := view E;
     view_flat := view_flat E;
     criterion := criterion E;
     soft_criterion := soft_criterion E;
     add_int := add_int E;
     add := add E;
     argmax := argmax E;
     item := item E;
     item_int := item_int E;
     calc_uncertainty := calc_uncertainty E;
     backward := backward E;
     zero_grad := zero_grad E;
     AdamW := AdamW E;
     WarmupLinearSchedule := WarmupLinearSchedule E;
     optimizer_step := optimizer_step E;
     scheduler_step := scheduler_step E;
     shuffle_pairs := shuffle_pairs E;
     random_shuffle := random_shuffle E |}.

End LayerStatements.

(** ** Definitions used to state how self-distillation is run *)

Section DistillationStatements.
Context (E : Env).

(** What a training step updates: the parameters, their gradients and the
    optimizer with its schedule. *)
Definition Trained : Type := (ParamsOf E * GradsOf E * Optim E)%type.

(** One step of self-distillation on batch [step] of [sentences], run with
    the optimizer of [s]: the gradients are cleared, the distillation loss
    at the current parameters is differentiated, and the optimizer and its
    schedule take their step. *)
Definition distill_step (sentences : list string) (batch_size : Z)
    (s : Trained) (step : nat) : Trained :=
  let '(p, g, o) := s in
  let batch := slice sentences (Z.of_nat step * batch_size)
                     ((Z.of_nat step + 1) * batch_size) in
  let g' := backward E
              (fun q => loss_tensor E (_forward_for_loss E p q batch None))
              p (zero_grad E g) in
  let (p', o') := optimizer_step E o g' p in
  (p', g', scheduler_step E o').

(** One epoch: the sentences are shuffled and every batch is stepped on,
    in order. *)
Definition distill_epoch (batch_size steps_num : Z)
    (s : list string * Rng E * Trained) (epoch : nat)
    : list string * Rng E * Trained :=
  let '(sentences, r, m) := s in
  let (sentences', r') := random_shuffle E r sentences in
  (sentences', r',
   fold_left (distill_step sentences' batch_size) (range steps_num) m).

(** The parameters that [epochs_num] epochs of self-distillation over
    [sentences], run with the optimizer [optimizer] from the state [st],
    end with. *)
Definition distilled_with (optimizer : Optim E) (sentences : list string)
    (batch_size epochs_num : Z) (st : State E) : ParamsOf E :=
  let steps_num := (len sentences / batch_size)%Z in
  fst (fst (snd (fold_left (distill_epoch batch_size steps_num)
                           (range epochs_num)
                           (sentences, rng st,
                            (params st, grads st, optimizer))))).

(** The optimizer of a phase: [AdamW] at the learning rate [lr] under a
    linear schedule over [train_steps] steps. *)
Definition phase_optimizer (lr : float) (train_steps : Z) (warmup : float)
    : Optim E :=
  WarmupLinearSchedule E (AdamW E lr)
    (fmul (float_of_Z train_steps) warmup) train_steps.

(** The same model with another [optimizer.step]. *)
Definition with_optimizer_step
    (step : Optim E -> GradsOf E -> ParamsOf E -> ParamsOf E * Optim E)
    : Env :=
  {| text := text E;
     labels := labels E;
     layers_num := layers_num E;
     tmp_model_saving_path := tmp_model_saving_path E;
     Tensor := Tensor E;
     KernelW := KernelW E;
     HeadW := HeadW E;
     Grad := Grad E;
     Optim := Optim E;
     Rng := Rng E;
     tensor_of_rows := tensor_of_rows E;
     tensor_of_ints := tensor_of_ints E;
     embedding := embedding E;
     extend_mask := extend_mask E;
     transformer := transformer E;
     classifier := classifier E;
     softmax := softmax E;
     log_softmax := log_softmax E;
     view := view E;
     view_flat := view_flat E;
     criterion := criterion E;
     soft_criterion := soft_criterion E;
     add_int := add_int E;
     add := add E;
     argmax := argmax E;
     item := item E;
     item_int := item_int E;
     calc_uncertainty := calc_uncertainty E;
     backward := backward E;
     zero_grad := zero_grad E;
     AdamW := AdamW E;
     WarmupLinearSchedule := WarmupLinearSchedule E;
     optimizer_step := step;
     scheduler_step := scheduler_step E;
     shuffle_pairs := shuffle_pairs E;
     random_shuffle := random_shuffle E |}.

End DistillationStatements.

(** ** Definitions used to state what an evaluation counts *)

(** The number of pairs of [pairs] whose gold label equals the label of
    the answer at the same position of [answers]. *)
Definition right_answers (pairs : list (string * label))
    (answers : list (label * nat)) : nat :=
  length (filter (fun xa => label_eqb (snd (fst xa)) (fst (snd xa)))
                 (combine pairs answers)).

(** ** A small concrete model

    Three layers, two labels, sequences of four tokens.  A tensor is a list
    of integers; the hidden state is [[kernel; first token; layer]], a head
    appends its own parameter, and the optimizer adds one to every
    parameter that has a gradient. *)

Module Toy.

(** One token per character. *)
Fixpoint chars (s : string) : list string :=
  match s with
  | EmptyString => []
  | String c s' => String c EmptyString :: chars s'
  end.

Definition vocab (t : string) : Z :=
  if String.eqb t "[CLS]" then 101%Z
  else if String.eqb t "[PAD]" then 0%Z
  else match t with
       | String c EmptyString => Z.of_nat (nat_of_ascii c)
       | _ => 100%Z
       end.

Definition toy_text : Text :=
  {| tokenize := chars; vocab_get := vocab; seq_length := 4 |}.

(** How many of the sentences ["a"], ["b"], ... the model with kernel [k]
    labels as the first label. *)
Definition rights (k : Z) : Z :=
  if (k =? 1)%Z then 14%Z
  else if (k =? 2)%Z then 13%Z
  else if (k =? 3)%Z then 16%Z
  else 0%Z.

Definition f0_8 : float := S754_finite false 7205759403792794 (-53).
Definition f0_4 : float := S754_finite false 7205759403792794 (-54).
Definition f0_2 : float := S754_finite false 7205759403792794 (-55).
Definition f0_9 : float := S754_finite false 8106479329266893 (-53).
Definition f0_7 : float := S754_finite false 6305039478318694 (-53).
Definition f0_65 : float := S754_finite false 5854679515581645 (-53).

Definition toy_item (t : list Z) : float :=
  let x := nth 0 t 0%Z in
  if (x =? 1)%Z then f0_8 else if (x =? 2)%Z then f0_4 else f0_2.

Definition opt_eqb (a b : option (list Z)) : bool :=
  match a, b with
  | Some x, Some y => if list_eq_dec Z.eq_dec x y then true else false
  | None, None => true
  | _, _ => false
  end.

Fixpoint mapi_from {A B} (i : nat) (f : nat -> A -> B) (l : list A)
    : list B :=
  match l with
  | [] => []
  | x :: l' => f i x :: mapi_from (S i) f l'
  end.

Definition toy_backward (f : Params Z Z -> option (list Z))
    (p : Params Z Z) (g : Grads unit) : Grads unit :=
  {| kernel_grad :=
       if opt_eqb (f {| kernel := (kernel p + 1)%Z;
                        classifiers := classifiers p |}) (f p)
       then kernel_grad g else Some tt;
     classifier_grads :=
       mapi_from 0
         (fun i gi =>
            if opt_eqb (f (set_head p i (nth i (classifiers p) 0 + 1)%Z)) (f p)
            then gi else Some tt)
         (classifier_grads g) |}.

Definition toy_zero_grad (g : Grads unit) : Grads unit :=
  {| kernel_grad := None;
     classifier_grads := map (fun _ => None) (classifier_grads g) |}.

Definition toy_step (o : float) (g : Grads unit) (p : Params Z Z)
    : Params Z Z * float :=
  ({| kernel := match kernel_grad g with
                | Some _ => (kernel p + 1)%Z
                | None => kernel p
                end;
      classifiers :=
        mapi_from 0
          (fun i h => match nth i (classifier_grads g) None with
                      | Some _ => (h + 1)%Z
                      | None => h
                      end)
          (classifiers p) |}, o).

Definition env (ls : list label) : Env :=
  {| text := toy_text;
     labels := ls;
     layers_num := 3;
     tmp_model_saving_path := "/tmp/FastBERT_tmp.bin";
     Tensor := list Z;
     KernelW := Z;
     HeadW := Z;
     Grad := unit;
     Optim := float;
     Rng := unit;
     tensor_of_rows := @concat Z;
     tensor_of_ints := fun l => l;
     embedding := fun _ k ids _ => [k; nth 1 ids 0%Z];
     extend_mask := fun _ m => m;
     transformer := fun _ _ i h _ =>
                      [nth 0 h 0%Z; nth 1 h 0%Z; (Z.of_nat i + 1)%Z];
     classifier := fun _ w h _ => h ++ [w];
     softmax := fun t => t;
     log_softmax := fun t => t;
     view := fun t _ => t;
     view_flat := fun t => t;
     criterion := fun a b => a ++ b;
     soft_criterion := fun a b => a ++ b;
     add_int := fun z t => z :: t;
     add := fun a b => a ++ b;
     argmax := fun t =>
                 [if (nth 1 t 0 - 97 <? rights (nth 0 t 0))%Z
                  then 0%Z else 1%Z];
     item := toy_item;
     item_int := fun t => nth 0 t 0%Z;
     calc_uncertainty := fun t _ => [nth 2 t 0%Z];
     backward := toy_backward;
     zero_grad := toy_zero_grad;
     AdamW := fun lr => lr;
     WarmupLinearSchedule := fun o _ _ => o;
     optimizer_step := toy_step;
     scheduler_step := fun o => o;
     shuffle_pairs := fun g ss ls => (rev ss, rev ls, g);
     random_shuffle := fun g ss => (rev ss, g) |}.

Definition pos : label := LStr "pos".
Definition neg : label := LStr "neg".

(** The model with the labels of the design document's scenarios. *)
Definition E : Env := env [pos; neg].

Definition params0 (k : Z) : ParamsOf E :=
  {| kernel := k; classifiers := [0; 0; 0]%Z |}.

Definition state0 (k : Z) (stored : option (ParamsOf E)) : State E :=
  {| params := params0 k;
     grads := {| kernel_grad := None;
                 classifier_grads := [None; None; None] |};
     files := fun _ => stored;
     rng := tt;
     trace := [] |}.

Definition sentences_train : list string := ["a"; "b"].
Definition labels_train : list label := [pos; neg].

(** Twenty sentences, all of the first label. *)
Definition sentences_dev : list string :=
  ["a"; "b"; "c"; "d"; "e"; "f"; "g"; "h"; "i"; "j";
   "k"; "l"; "m"; "n"; "o"; "p"; "q"; "r"; "s"; "t"].
Definition labels_dev : list label := repeat pos 20.

Definition path : string := "model.bin".

(** Phase 1 on the toy model: batches of two, one step per epoch. *)
Definition phase1 (dev : list string) (epochs_num : Z) : M E unit :=
  _fine_tuning_backbone E sentences_train labels_train dev
    (firstn (length dev) labels_dev) 2%Z f2em5 epochs_num f0_1 100%Z path.

Definition phase1_epochs (st : State E) (k : nat)
    : result (FineTuneVars E) * State E :=
  after_epochs E sentences_train labels_train sentences_dev labels_dev
    2%Z f2em5 3%Z f0_1 100%Z path st k.

Definition phase2 (dev_speed : float) : M E unit :=
  self_distillation E sentences_train 2%Z f2em5 2%Z f0_1 100%Z path
    sentences_dev labels_dev dev_speed.

Definition kwargs_dev : FitKwargs :=
  {| kw_batch_size := Some 2%Z;
     kw_sentences_dev := Some sentences_dev;
     kw_labels_dev := Some labels_dev;
     kw_learning_rate := None;
     kw_finetuning_epochs_num := Some 3%Z;
     kw_distilling_epochs_num := Some 2%Z;
     kw_report_steps := None;
     kw_warmup := None;
     kw_dev_speed := Some f0_9;
     kw_model_saving_path := Some path |}.

(** A snapshot left at [path] by an earlier run. *)
Definition stale : ParamsOf E :=
  {| kernel := 7%Z; classifiers := [5; 5; 5]%Z |}.

(** A head over integers: identity layers, integer mean, maximum. *)
Definition head_ops : HeadOps Z Z unit :=
  {| output_layer_0 := fun _ v => v;
     output_layer_1 := fun _ v => v;
     output_layer_2 := fun _ v => v;
     self_atten := fun _ k _ _ _ => k;
     tanh := fun x => x;
     mean_of := fun l => (fold_right Z.add 0 l / len l)%Z;
     max_of := fun l => fold_right Z.max (hd 0%Z l) l |}.

(** One sentence of two positions with three features each. *)
Definition hidden_1_2_3 : tensor3 Z := [[[1; 5; 3]; [4; 2; 6]]]%Z.

(** The same text with a negative sequence length. *)
Definition text_negative : Text :=
  {| tokenize := chars; vocab_get := vocab; seq_length := -1 |}.

(** The model with the labels [0] and [1], and with a label given twice. *)
Definition E_int : Env := env [LInt 0; LInt 1].
Definition E_dup : Env := env [pos; neg; pos].

(** The model over a backbone of one layer, with its single head. *)
Definition E_one : Env := with_layers_num E 1.
Definition params_one : ParamsOf E_one :=
  {| kernel := 0%Z; classifiers := [0%Z] |}.
Definition grads_one : GradsOf E_one :=
  {| kernel_grad := None; classifier_grads := [None] |}.
Definition state_one : State E_one :=
  Build_State E_one params_one grads_one (fun _ => None) tt [].

(** Keyword arguments without a validation set, and with batches of
    size 0. *)
Definition kwargs_no_dev : FitKwargs :=
  {| kw_batch_size := Some 2%Z;
     kw_sentences_dev := None;
     kw_labels_dev := None;
     kw_learning_rate := None;
     kw_finetuning_epochs_num := None;
     kw_distilling_epochs_num := None;
     kw_report_steps := None;
     kw_warmup := None;
     kw_dev_speed := None;
     kw_model_saving_path := Some path |}.

Definition kwargs_batch_0 : FitKwargs :=
  {| kw_batch_size := Some 0%Z;
     kw_sentences_dev := Some sentences_dev;
     kw_labels_dev := Some labels_dev;
     kw_learning_rate := None;
     kw_finetuning_epochs_num := None;
     kw_distilling_epochs_num := None;
     kw_report_steps := None;
     kw_warmup := None;
     kw_dev_speed := None;
     kw_model_saving_path := Some path |}.

(** The model with an optimizer whose step shows its learning rate: it
    adds the rate in units of [1e-5], truncated, to every parameter that
    has a gradient ([2e-5] adds 2, ten times [2e-5] adds 20). *)
Definition rate_units (o : float) : Z :=
  match int_of_float (fmul o (float_of_Z 100000)) with
  | Ok z => z
  | Raise _ => 0%Z
  end.

Definition toy_step_rate (o : float) (g : Grads unit) (p : Params Z Z)
    : Params Z Z * float :=
  ({| kernel := match kernel_grad g with
                | Some _ => (kernel p + rate_units o)%Z
                | None => kernel p
                end;
      classifiers :=
        mapi_from 0
          (fun i h => match nth i (classifier_grads g) None with
                      | Some _ => (h + rate_units o)%Z
                      | None => h
                      end)
          (classifiers p) |}, o).

Definition E_rate : Env := with_optimizer_step E toy_step_rate.

Definition state_rate : State E_rate :=
  Build_State E_rate
    {| kernel := 0%Z; classifiers := [0; 0; 0]%Z |}
    {| kernel_grad := None; classifier_grads := [None; None; None] |}
    (fun _ => None) tt [].

End Toy.


(** * Properties *)

(** ** Python lists *)

Lemma len_nonneg {A} (l : list A) : (0 <= len l)%Z.
Proof. unfold len. lia. Qed.

Lemma clamp_inside (n i : Z) :
  (0 <= i <= n)%Z -> clamp n i = Z.to_nat i.
Proof.
  intros Hi. unfold clamp.
  destruct (i <? 0)%Z eqn:Hneg.
  - apply Z.ltb_lt in Hneg. lia.
  - f_equal. lia.
Qed.

Lemma firstn_repeat_le {A} (x : A) (n m : nat) :
  n <= m -> firstn n (repeat x m) = repeat x n.
Proof.
  revert m. induction n as [|n IH]; intros m Hle.
  - reflexivity.
  - destruct m as [|m]; [lia|].
    simpl. f_equal. apply IH. lia.
Qed.

Lemma slice_to_prefix {A} (l : list A) (b : Z) :
  (0 <= b <= len l)%Z -> slice_to l b = firstn (Z.to_nat b) l.
Proof.
  intros Hb. unfold slice_to. now rewrite clamp_inside.
Qed.

(** ** Token conversion *)

Section ConvertFacts.
Context (T : Text).

Lemma real_tokens_length (sentence : string) :
  1 <= length (real_tokens T sentence).
Proof. unfold real_tokens. simpl. lia. Qed.

(** The truncation branch. *)
Lemma convert_truncates (sentence : string) :
  (0 <= seq_length T <= len (real_tokens T sentence))%Z ->
  _convert_to_id_and_mask T sentence
  = (firstn (Z.to_nat (seq_length T)) (real_tokens T sentence),
     repeat 1%Z (Z.to_nat (seq_length T))).
Proof.
  intros [Hlo Hhi]. unfold _convert_to_id_and_mask.
  change ([cls_id T] ++ map (vocab_get T) (tokenize T sentence))
    with (real_tokens T sentence).
  set (toks := real_tokens T sentence) in *.
  apply Z.leb_le in Hhi as Hb. rewrite Hb.
  assert (Hm : len (replicate 1%Z (len toks)) = len toks).
  { unfold replicate, len. rewrite repeat_length. now rewrite Nat2Z.id. }
  rewrite !slice_to_prefix by (rewrite ?Hm; lia).
  f_equal. unfold replicate. apply firstn_repeat_le. unfold len in *. lia.
Qed.

(** The padding branch. *)
Lemma convert_pads (sentence : string) :
  (len (real_tokens T sentence) < seq_length T)%Z ->
  _convert_to_id_and_mask T sentence
  = (real_tokens T sentence
       ++ repeat (pad_id T)
            (Z.to_nat (seq_length T) - length (real_tokens T sentence)),
     repeat 1%Z (length (real_tokens T sentence))
       ++ repeat 0%Z
            (Z.to_nat (seq_length T) - length (real_tokens T sentence))).
Proof.
  intros Hlt. unfold _convert_to_id_and_mask.
  change ([cls_id T] ++ map (vocab_get T) (tokenize T sentence))
    with (real_tokens T sentence).
  set (toks := real_tokens T sentence) in *.
  destruct (seq_length T <=? len toks)%Z eqn:Hb.
  - apply Z.leb_le in Hb. lia.
  - unfold replicate, len in *.
    rewrite Nat2Z.id.
    replace (Z.to_nat (seq_length T - Z.of_nat (length toks)))
      with (Z.to_nat (seq_length T) - length toks) by lia.
    reflexivity.
Qed.

End ConvertFacts.

(** C4.  With a sequence length of at least one, the ids and the mask of
    every sentence have exactly [seq_length] entries; the start token is at
    position 0; [mask[i]] is 1 exactly at the positions that hold a real
    token (the start token or a token of the sentence), where [ids[i]] is
    that token, and elsewhere [ids[i]] is the pad id and [mask[i]] is 0; a
    sentence with at least [seq_length] real tokens is cut to the first
    [seq_length], a shorter one is padded. *)
Theorem convert_to_id_and_mask_spec (T : Text) (sentence : string) :
  (1 <= seq_length T)%Z ->
  let toks := real_tokens T sentence in
  let n := Z.to_nat (seq_length T) in
  let ids := fst (_convert_to_id_and_mask T sentence) in
  let mask := snd (_convert_to_id_and_mask T sentence) in
  len ids = seq_length T /\
  len mask = seq_length T /\
  nth_error ids 0 = Some (cls_id T) /\
  (forall i, i < n ->
     nth_error ids i = Some (nth i toks (pad_id T)) /\
     nth_error mask i = Some (if Nat.ltb i (length toks) then 1%Z else 0%Z)) /\
  ((seq_length T <= len toks)%Z ->
     ids = firstn n toks /\ mask = repeat 1%Z n) /\
  ((len toks < seq_length T)%Z ->
     ids = toks ++ repeat (pad_id T) (n - length toks) /\
     mask = repeat 1%Z (length toks) ++ repeat 0%Z (n - length toks)).
Proof.
  intros Hpos toks n ids mask.
  pose proof (real_tokens_length T sentence) as Hlen.
  fold toks in Hlen.
  destruct (Z_le_gt_dec (seq_length T) (len toks)) as [Hcut | Hpad].
  - (* truncation *)
    assert (Heq := convert_truncates T sentence).
    fold toks in Heq. specialize (Heq ltac:(lia)).
    assert (Hids : ids = firstn n toks) by (subst ids n; now rewrite Heq).
    assert (Hmask : mask = repeat 1%Z n) by (subst mask n; now rewrite Heq).
    assert (Hn : n <= length toks) by (unfold len in Hcut; lia).
    repeat split.
    + rewrite Hids. unfold len. rewrite length_firstn. lia.
    + rewrite Hmask. unfold len. rewrite repeat_length. lia.
    + rewrite Hids. unfold toks, real_tokens.
      destruct n eqn:En; [lia | reflexivity].
    + rewrite Hids.
      rewrite nth_error_firstn.
      apply Nat.ltb_lt in H as Hb. rewrite Hb.
      apply nth_error_nth'. lia.
    + rewrite Hmask.
      assert (Hb : Nat.ltb i (length toks) = true) by (apply Nat.ltb_lt; lia).
      rewrite Hb. now apply nth_error_repeat.
    + assumption.
    + assumption.
    + lia.
    + lia.
  - (* padding *)
    assert (Heq := convert_pads T sentence).
    fold toks in Heq. specialize (Heq ltac:(lia)).
    assert (Hids : ids = toks ++ repeat (pad_id T) (n - length toks))
      by (subst ids n; now rewrite Heq).
    assert (Hmask : mask = repeat 1%Z (length toks)
                           ++ repeat 0%Z (n - length toks))
      by (subst mask n; now rewrite Heq).
    assert (Hn : length toks < n) by (unfold len in Hpad; lia).
    repeat split.
    + rewrite Hids. unfold len. rewrite length_app, repeat_length. lia.
    + rewrite Hmask. unfold len. rewrite length_app, !repeat_length. lia.
    + rewrite Hids. unfold toks, real_tokens. reflexivity.
    + rewrite Hids.
      destruct (Nat.lt_ge_cases i (length toks)) as [Hi | Hi].
      * rewrite nth_error_app1 by assumption.
        apply nth_error_nth'. assumption.
      * rewrite nth_error_app2 by assumption.
        rewrite nth_overflow by assumption.
        apply nth_error_repeat. lia.
    + rewrite Hmask.
      destruct (Nat.lt_ge_cases i (length toks)) as [Hi | Hi].
      * apply Nat.ltb_lt in Hi as Hb. rewrite Hb.
        rewrite nth_error_app1 by (rewrite repeat_length; assumption).
        now apply nth_error_repeat.
      * apply Nat.ltb_ge in Hi as Hb. rewrite Hb.
        rewrite nth_error_app2 by (rewrite repeat_length; assumption).
        rewrite repeat_length. apply nth_error_repeat. lia.
    + lia.
    + lia.
    + assumption.
    + assumption.
Qed.

(** Scenarios A and B of the design document, with [seq_length = 4]. *)
Lemma convert_to_id_and_mask_witness :
  (1 <= seq_length Toy.toy_text)%Z /\
  _convert_to_id_and_mask Toy.toy_text "abcde"
  = ([101; 97; 98; 99]%Z, [1; 1; 1; 1]%Z) /\
  _convert_to_id_and_mask Toy.toy_text "a"
  = ([101; 97; 0; 0]%Z, [1; 1; 0; 0]%Z) /\
  len (fst (_convert_to_id_and_mask Toy.toy_text "a")) = 4%Z.
Proof.
  split; [simpl; lia|].
  split; [reflexivity|].
  split; [reflexivity|].
  apply (convert_to_id_and_mask_spec Toy.toy_text "a"). simpl. lia.
Defined.

(** ** Pooling in the classifier head *)

Lemma map_result_ok {A B} (f : A -> result B) (xs : list A) (ys : list B) :
  map_result f xs = Ok ys -> Forall2 (fun x y => f x = Ok y) xs ys.
Proof.
  revert ys. induction xs as [|x xs IH]; simpl; intros ys H.
  - inversion H. constructor.
  - destruct (f x) as [y|e] eqn:Hx; simpl in H; [|discriminate].
    destruct (map_result f xs) as [ys'|e] eqn:Hxs; simpl in H; [|discriminate].
    inversion H; subst. constructor; auto.
Qed.

Lemma map_result_total {A B} (f : A -> result B) (P : A -> Prop)
    (Q : B -> Prop) (xs : list A) :
  (forall x, P x -> exists y, f x = Ok y /\ Q y) ->
  Forall P xs ->
  exists ys, map_result f xs = Ok ys /\ length ys = length xs /\ Forall Q ys.
Proof.
  intros Hf HP. induction HP as [|x xs Hx _ IH]; simpl.
  - exists []. repeat split. constructor.
  - destruct (Hf x Hx) as (y & Hy & HQ). rewrite Hy. simpl.
    destruct IH as (ys & Hys & Hlen & HQs). rewrite Hys. simpl.
    exists (y :: ys). repeat split; simpl; auto.
Qed.

Lemma columns_shape {R} (m : list (list R)) (h : nat) :
  m <> [] -> Forall (fun row => length row = h) m ->
  has_shape2 h (length m) (columns m).
Proof.
  induction m as [|row m IH]; intros Hne Hrows; [congruence|].
  inversion Hrows as [|? ? Hrow Hrest]; subst.
  destruct m as [|row' m'].
  - simpl. split.
    + now rewrite length_map.
    + apply Forall_forall. intros c Hc.
      apply in_map_iff in Hc as (x & <- & _). reflexivity.
  - destruct (IH ltac:(discriminate) Hrest) as [Hlen Hcols].
    change (columns (row :: row' :: m'))
      with (map (fun xc => fst xc :: snd xc)
                (combine row (columns (row' :: m')))).
    split.
    + rewrite length_map, length_combine, Hlen. lia.
    + apply Forall_forall. intros c Hc.
      apply in_map_iff in Hc as ([x col] & <- & Hin).
      apply in_combine_r in Hin.
      rewrite Forall_forall in Hcols. specialize (Hcols _ Hin).
      simpl in *. lia.
Qed.

Lemma index_last_in {A} (l : list A) :
  l <> [] -> exists x, index_last l = Ok x /\ In x l.
Proof.
  intros Hne. unfold index_last.
  destruct (rev l) as [|x r] eqn:Hr.
  - apply (f_equal (@rev A)) in Hr. rewrite rev_involutive in Hr.
    simpl in Hr. congruence.
  - exists x. split; [reflexivity|].
    apply in_rev. rewrite Hr. now left.
Qed.

Section PoolingFacts.
Context {R W Mask : Type} (ops : HeadOps R W Mask).

(** [torch.mean(hidden, dim=-1)] removes the last dimension, the hidden
    one: what is left has the shape (batch, seq). *)
Lemma mean_pooling_shape (b s h : nat) (hidden : tensor3 R) :
  has_shape3 b s h hidden ->
  exists t, pool ops "mean" hidden = Ok t /\ has_shape2 b s t.
Proof.
  intros [Hb Hrows]. exists (torch_mean_last ops hidden).
  split; [reflexivity|]. unfold torch_mean_last. split.
  - now rewrite length_map.
  - apply Forall_forall. intros row Hrow.
    apply in_map_iff in Hrow as (m & <- & Hm).
    rewrite Forall_forall in Hrows. destruct (Hrows _ Hm) as [Hs _].
    now rewrite length_map.
Qed.

(** The three other strategies remove the sequence dimension. *)
Lemma sequence_pooling_shape (pooling : string) (b s h : nat)
    (hidden : tensor3 R) :
  pooling <> "mean" -> 1 <= s -> has_shape3 b s h hidden ->
  exists t, pool ops pooling hidden = Ok t /\ has_shape2 b h t.
Proof.
  intros Hmean Hs [Hb Hrows]. unfold pool.
  apply String.eqb_neq in Hmean. rewrite Hmean.
  assert (Hgen : forall f : list (list R) -> result (list R),
             (forall m, has_shape2 s h m ->
                        exists v, f m = Ok v /\ length v = h) ->
             exists t, map_result f hidden = Ok t /\ has_shape2 b h t).
  { intros f Hf.
    destruct (map_result_total f (has_shape2 s h)
                (fun v => length v = h) hidden Hf Hrows)
      as (t & Ht & Hlen & Hall).
    exists t. split; [assumption|]. split; [lia | assumption]. }
  destruct (String.eqb pooling "max"); [|destruct (String.eqb pooling "last")].
  - apply Hgen. intros m [Hlen Hm].
    destruct m as [|row m']; [simpl in Hlen; lia|].
    eexists. split; [reflexivity|].
    rewrite length_map.
    apply (columns_shape (row :: m') h); [discriminate | assumption].
  - apply Hgen. intros m [Hlen Hm].
    destruct (index_last_in m) as (x & Hx & Hin).
    { destruct m; [simpl in Hlen; lia | discriminate]. }
    exists x. split; [assumption|].
    rewrite Forall_forall in Hm. now apply Hm.
  - apply Hgen. intros m [Hlen Hm].
    destruct m as [|row m']; [simpl in Hlen; lia|].
    exists row. split; [reflexivity|].
    now inversion Hm.
Qed.

(** So the mean strategy yields (batch, hidden) only when the sequence
    length happens to equal the hidden size. *)
Lemma mean_pooling_not_batch_hidden (b s h : nat) (hidden : tensor3 R) :
  1 <= b -> s <> h -> has_shape3 b s h hidden ->
  forall t, pool ops "mean" hidden = Ok t -> ~ has_shape2 b h t.
Proof.
  intros Hb Hsh Hshape t Ht [_ Hrows].
  destruct (mean_pooling_shape b s h hidden Hshape) as (t' & Ht' & Hb' & Hrows').
  rewrite Ht in Ht'. inversion Ht'; subst t'.
  destruct t as [|row t]; [simpl in Hb'; lia|].
  inversion Hrows; inversion Hrows'; subst. congruence.
Qed.

End PoolingFacts.

(** C7.  On a (1, 2, 3) tensor the strategies "max", "last" and the default
    pool over the two positions and return a (1, 3) tensor, but "mean"
    averages the three features of each position and returns a (1, 2)
    tensor: [torch.mean(hidden, dim=-1)] reduces the hidden dimension, not
    the sequence dimension. *)
Theorem mean_pooling_reduces_hidden_dimension :
  pool Toy.head_ops "mean" Toy.hidden_1_2_3 = Ok [[3; 4]]%Z /\
  pool Toy.head_ops "max" Toy.hidden_1_2_3 = Ok [[4; 5; 6]]%Z /\
  pool Toy.head_ops "last" Toy.hidden_1_2_3 = Ok [[4; 2; 6]]%Z /\
  pool Toy.head_ops "first" Toy.hidden_1_2_3 = Ok [[1; 5; 3]]%Z /\
  MiniClassifier_forward Toy.head_ops "mean" 0%Z Toy.hidden_1_2_3 tt
  = Ok [[3; 4]]%Z /\
  MiniClassifier_forward Toy.head_ops "first" 0%Z Toy.hidden_1_2_3 tt
  = Ok [[1; 5; 3]]%Z.
Proof. repeat split. Qed.

(** ** Floats *)

Lemma SFcompare_lt_trans (x y z : spec_float) :
  SFcompare x y = Some Lt -> SFcompare y z = Some Lt ->
  SFcompare x z = Some Lt.
Proof.
  destruct x as [sx|sx| |sx mx ex], y as [sy|sy| |sy my ey],
           z as [sz|sz| |sz mz ez]; simpl;
    try discriminate;
    try (destruct sx, sy, sz; simpl; congruence).
  change (Pos.compare_cont Eq mx my) with (Pos.compare mx my).
  change (Pos.compare_cont Eq my mz) with (Pos.compare my mz).
  change (Pos.compare_cont Eq mx mz) with (Pos.compare mx mz).
  destruct sx, sy, sz; simpl; try congruence;
    destruct (Z.compare_spec ex ey), (Z.compare_spec ey ez),
             (Z.compare_spec ex ez);
    try congruence; try lia; subst;
    destruct (Pos.compare_spec mx my), (Pos.compare_spec my mz),
             (Pos.compare_spec mx mz);
    simpl; try congruence; try lia.
Qed.

Lemma flt_trans (x y z : float) :
  flt x y = true -> flt y z = true -> flt x z = true.
Proof.
  unfold flt, SFltb. intros Hxy Hyz.
  destruct (SFcompare x y) as [[| |]|] eqn:Exy; try discriminate.
  destruct (SFcompare y z) as [[| |]|] eqn:Eyz; try discriminate.
  now rewrite (SFcompare_lt_trans x y z Exy Eyz).
Qed.

Lemma flt_irrefl (x : float) : flt x x = false.
Proof.
  unfold flt, SFltb.
  destruct x as [s|s| |s m e]; simpl; try reflexivity.
  - now destruct s.
  - rewrite Z.compare_refl.
    change (Pos.compare_cont Eq m m) with (Pos.compare m m).
    rewrite Pos.compare_refl. now destruct s.
Qed.

(** ** Dictionaries *)

Section DictFacts.
Context {Key V : Type} (eqb : Key -> Key -> bool).
Hypothesis eqb_spec : forall a b, eqb a b = true <-> a = b.

Lemma eqb_neq_false (a b : Key) : a <> b -> eqb a b = false.
Proof.
  intros Hne. destruct (eqb a b) eqn:Hab; [|reflexivity].
  apply eqb_spec in Hab. contradiction.
Qed.

Lemma set_fresh (d : dict Key V) (k : Key) (v : V) :
  ~ In k (map fst d) -> set eqb d k v = d ++ [(k, v)].
Proof.
  induction d as [|[k' v'] d IH]; simpl; intros Hnot.
  - reflexivity.
  - assert (Hne : k' <> k) by (intros Heq; apply Hnot; now left).
    rewrite (eqb_neq_false k' k Hne). f_equal. apply IH.
    intros Hin. apply Hnot. now right.
Qed.

Lemma get_set (d : dict Key V) (k' k : Key) (v' : V) :
  get eqb (set eqb d k' v') k = if eqb k' k then Ok v' else get eqb d k.
Proof.
  induction d as [|[k0 v0] d IH]; simpl.
  - reflexivity.
  - destruct (eqb k0 k') eqn:H0; simpl.
    + apply eqb_spec in H0. subst k0.
      destruct (eqb k' k); reflexivity.
    + destruct (eqb k0 k) eqn:H1.
      * apply eqb_spec in H1. subst k0.
        destruct (eqb k' k) eqn:H2; [|reflexivity].
        apply eqb_spec in H2. subst k'.
        assert (Hrefl : eqb k k = true) by now apply eqb_spec.
        congruence.
      * apply IH.
Qed.

(** A dictionary comprehension over distinct keys lists its items in
    order. *)
Lemma comprehension_distinct {X} (key : X -> Key) (val : X -> V)
    (l : list X) (d : dict Key V) :
  NoDup (map key l) ->
  (forall x, In x l -> ~ In (key x) (map fst d)) ->
  fold_left (fun d x => set eqb d (key x) (val x)) l d
  = d ++ map (fun x => (key x, val x)) l.
Proof.
  revert d. induction l as [|x l IH]; simpl; intros d Hnd Hfresh.
  - now rewrite app_nil_r.
  - inversion Hnd as [|? ? Hx Hl]; subst.
    rewrite set_fresh by (apply Hfresh; now left).
    rewrite IH.
    + now rewrite <- app_assoc.
    + assumption.
    + intros y Hy. rewrite map_app, in_app_iff. simpl.
      intros [Hin | [Heq | []]].
      * apply (Hfresh y); [now right | assumption].
      * apply Hx. rewrite Heq. now apply in_map.
Qed.

(** Whatever a comprehension holds under a key was put there. *)
Lemma comprehension_get {X} (key : X -> Key) (val : X -> V)
    (l : list X) (d : dict Key V) (k : Key) (v : V) :
  get eqb (fold_left (fun d x => set eqb d (key x) (val x)) l d) k = Ok v ->
  get eqb d k = Ok v \/ exists x, In x l /\ val x = v.
Proof.
  revert d. induction l as [|x l IH]; simpl; intros d H.
  - now left.
  - apply IH in H as [H | (y & Hy & Hv)].
    + rewrite get_set in H. destruct (eqb (key x) k).
      * inversion H. right. exists x. split; [now left | reflexivity].
      * now left.
    + right. exists y. split; [now right | assumption].
Qed.

End DictFacts.

Lemma label_eqb_spec (a b : label) : label_eqb a b = true <-> a = b.
Proof.
  destruct a as [s|m], b as [t|n]; simpl; split; intros H;
    try discriminate.
  - apply String.eqb_eq in H. now subst.
  - inversion H. apply String.eqb_refl.
  - apply Z.eqb_eq in H. now subst.
  - inversion H. apply Z.eqb_refl.
Qed.

Lemma enumerate_from_keys {A} (l : list A) (i k : Z) :
  In k (map fst (enumerate_from i l)) -> (i <= k < i + len l)%Z.
Proof.
  revert i. induction l as [|x l IH]; simpl; intros i H; [tauto|].
  unfold len in *. simpl length. destruct H as [<- | H].
  - lia.
  - apply IH in H. lia.
Qed.

Lemma enumerate_from_keys_nodup {A} (l : list A) (i : Z) :
  NoDup (map fst (enumerate_from i l)).
Proof.
  revert i. induction l as [|x l IH]; simpl; intros i; constructor.
  - intros H. apply enumerate_from_keys in H. lia.
  - apply IH.
Qed.

Lemma enumerate_from_values {A} (l : list A) (i : Z) :
  map snd (enumerate_from i l) = l.
Proof.
  revert i. induction l as [|x l IH]; simpl; intros i; [reflexivity|].
  now rewrite IH.
Qed.

Lemma get_enumerate_from {A} (l : list A) (i : Z) (j : nat) :
  get Z.eqb (enumerate_from i l) (i + Z.of_nat j)%Z
  = match nth_error l j with Some x => Ok x | None => Raise KeyError end.
Proof.
  revert i j. induction l as [|x l IH]; simpl; intros i j.
  - now destruct j.
  - destruct j as [|j].
    + replace (i + Z.of_nat 0)%Z with i by lia.
      now rewrite Z.eqb_refl.
    + assert (Hne : (i =? i + Z.of_nat (S j))%Z = false)
        by (apply Z.eqb_neq; lia).
      rewrite Hne.
      replace (i + Z.of_nat (S j))%Z with (i + 1 + Z.of_nat j)%Z by lia.
      apply IH.
Qed.

(** ** The label space *)

Lemma set_keys {Key V} (eqb : Key -> Key -> bool) (d : dict Key V)
    (k a : Key) (v : V) :
  In a (map fst (set eqb d k v)) -> a = k \/ In a (map fst d).
Proof.
  induction d as [|[k' v'] d IH]; simpl.
  - intros [<- | []]. now left.
  - destruct (eqb k' k); simpl; intros [<- | H]; auto.
    apply IH in H as [-> | H]; auto.
Qed.

Lemma comprehension_keys {Key V X} (eqb : Key -> Key -> bool)
    (key : X -> Key) (val : X -> V) (l : list X) (d : dict Key V) (a : Key) :
  In a (map fst (fold_left (fun d x => set eqb d (key x) (val x)) l d)) ->
  In a (map fst d) \/ In a (map key l).
Proof.
  revert d. induction l as [|x l IH]; simpl; intros d H.
  - now left.
  - apply IH in H as [H | H]; [|now right; right].
    apply set_keys in H as [-> | H]; [right; now left | now left].
Qed.

Section LabelSpace.
Context (E : Env).

Lemma label_map_keys (l : label) :
  In l (map fst (label_map E)) -> In l (labels E).
Proof.
  unfold label_map. intros H.
  apply (comprehension_keys label_eqb snd fst) in H as [[] | H].
  unfold enumerate in H. now rewrite enumerate_from_values in H.
Qed.

(** Every value of [id2label] is one of the labels. *)
Lemma id2label_values (n : Z) (l : label) :
  get Z.eqb (id2label E) n = Ok l -> In l (labels E).
Proof.
  unfold id2label. intros H.
  apply (comprehension_get Z.eqb Z.eqb_eq snd fst) in H
    as [H | (x & Hx & <-)]; [discriminate|].
  apply label_map_keys. now apply in_map.
Qed.

Lemma label_map_distinct :
  NoDup (labels E) ->
  label_map E = map (fun x => (snd x, fst x)) (enumerate (labels E)).
Proof.
  intros Hnd. unfold label_map.
  rewrite (comprehension_distinct label_eqb label_eqb_spec snd fst).
  - reflexivity.
  - unfold enumerate. now rewrite enumerate_from_values.
  - intros x _ [].
Qed.

Lemma id2label_distinct :
  NoDup (labels E) -> id2label E = enumerate (labels E).
Proof.
  intros Hnd. unfold id2label. rewrite (label_map_distinct Hnd).
  rewrite (comprehension_distinct Z.eqb Z.eqb_eq snd fst).
  - simpl. rewrite map_map. simpl.
    rewrite <- (map_id (enumerate (labels E))) at 2.
    apply map_ext. now intros [i l].
  - rewrite map_map. simpl. apply enumerate_from_keys_nodup.
  - intros x _ [].
Qed.

(** With distinct labels, [id2label] maps each position of the label list
    to the label at that position. *)
Lemma id2label_lookup (n : Z) :
  NoDup (labels E) -> (0 <= n < Z.of_nat (labels_num E))%Z ->
  exists l, nth_error (labels E) (Z.to_nat n) = Some l /\
            get Z.eqb (id2label E) n = Ok l.
Proof.
  intros Hnd Hn. rewrite (id2label_distinct Hnd).
  unfold enumerate, labels_num in *.
  pose proof (get_enumerate_from (labels E) 0 (Z.to_nat n)) as Hget.
  replace (0 + Z.of_nat (Z.to_nat n))%Z with n in Hget by lia.
  rewrite Hget.
  destruct (nth_error (labels E) (Z.to_nat n)) as [l|] eqn:Hl.
  - now exists l.
  - apply nth_error_None in Hl. lia.
Qed.

End LabelSpace.

(** ** Adaptive inference *)

Lemma index_last_nth {A} (l : list A) :
  index_last l = match nth_error l (length l - 1) with
                 | Some x => Ok x
                 | None => Raise IndexError
                 end.
Proof.
  destruct l as [|y l'] using rev_ind; [reflexivity|].
  unfold index_last. rewrite rev_app_distr. simpl.
  rewrite length_app. simpl.
  rewrite nth_error_app2 by lia.
  replace (length l' + 1 - 1 - length l') with 0 by lia.
  reflexivity.
Qed.

Lemma index_some {A} (l : list A) (i : nat) :
  i < length l -> exists x, nth_error l i = Some x /\ index l i = Ok x.
Proof.
  intros Hi. unfold index.
  destruct (nth_error l i) as [x|] eqn:Hx.
  - now exists x.
  - apply nth_error_None in Hx. lia.
Qed.

Section InferenceFacts.
Context (E : Env).

(** [_fast_infer] as its loop followed by the label lookup. *)
Lemma fast_infer_unfold (p : ParamsOf E) (sentence : string) (speed : float) :
  _fast_infer E p sentence speed
  = (r <- infer_loop E p (sentence_mask E sentence) speed
            (seq 0 (layers_num E)) (sentence_embedding E p sentence) None ;;
     match fst r with
     | None => Raise UnboundLocalError
     | Some probs =>
         label <- get Z.eqb (id2label E) (item_int E (argmax E probs)) ;;
         Ok (label, exec_layers (layers_num E) (snd r))
     end).
Proof.
  unfold _fast_infer, sentence_mask, sentence_embedding.
  destruct (_convert_to_id_and_mask (text E) sentence) as [ids mask].
  reflexivity.
Qed.

(** One pass of the loop. *)
Lemma infer_loop_cons (p : ParamsOf E) (mask : Tensor E) (speed : float)
    (i : nat) (layers : list nat) (hidden : Tensor E)
    (probs : option (Tensor E)) (head : HeadW E) :
  nth_error (classifiers p) i = Some head ->
  infer_loop E p mask speed (i :: layers) hidden probs
  = let hidden' := transformer E false (kernel p) i hidden mask in
    let probs' := softmax E (classifier E false head hidden' mask) in
    if flt (item E (calc_uncertainty E probs' (labels_num E))) speed
    then Ok (Some probs', Some (i + 1))
    else infer_loop E p mask speed layers hidden' (Some probs').
Proof.
  intros Hhead. simpl. unfold index. rewrite Hhead. reflexivity.
Qed.

(** The loop raises nothing when every layer has its head; it leaves by
    [break] only at one of its layers. *)
Lemma infer_loop_total (p : ParamsOf E) (mask : Tensor E) (speed : float)
    (n : nat) :
  forall (i : nat) (hidden : Tensor E) (probs : option (Tensor E)),
    i + n <= length (classifiers p) ->
    exists pr ex,
      infer_loop E p mask speed (seq i n) hidden probs = Ok (pr, ex) /\
      (forall m, ex = Some m -> i + 1 <= m <= i + n) /\
      (1 <= n -> exists t, pr = Some t /\ head_output E t).
Proof.
  induction n as [|n IH]; intros i hidden probs Hlen.
  - exists probs, None. simpl. repeat split; try discriminate; lia.
  - destruct (index_some (classifiers p) i ltac:(lia)) as (head & Hhead & _).
    change (seq i (S n)) with (i :: seq (S i) n).
    rewrite (infer_loop_cons p mask speed i _ hidden probs head Hhead).
    cbv zeta.
    set (hidden' := transformer E false (kernel p) i hidden mask).
    set (probs' := softmax E (classifier E false head hidden' mask)).
    destruct (flt (item E (calc_uncertainty E probs' (labels_num E))) speed).
    + exists (Some probs'), (Some (i + 1)). repeat split.
      * inversion H; lia.
      * inversion H; lia.
      * intros _. exists probs'. split; [reflexivity|].
        now exists head, hidden', mask.
    + destruct (IH (S i) hidden' (Some probs') ltac:(lia))
        as (pr & ex & Hloop & Hex & Hpr).
      exists pr, ex. split; [assumption|]. split.
      * intros m Hm. specialize (Hex m Hm). lia.
      * intros _. destruct n as [|n'].
        -- simpl in Hloop. inversion Hloop; subst.
           exists probs'. split; [reflexivity|].
           now exists head, hidden', mask.
        -- apply Hpr. lia.
Qed.

(** At speed 0.0 the loop never leaves by [break]: it ends with the
    probabilities of the head of its last layer on the hidden state after
    all its layers. *)
Lemma infer_loop_full_depth (p : ParamsOf E) (mask : Tensor E) (n : nat) :
  UncertaintyNonNegative E ->
  forall (i : nat) (hidden : Tensor E) (probs : option (Tensor E)),
    i + S n <= length (classifiers p) ->
    exists head,
      nth_error (classifiers p) (i + n) = Some head /\
      infer_loop E p mask f0_0 (seq i (S n)) hidden probs
      = Ok (Some (softmax E
                    (classifier E false head
                       (fold_left
                          (fun h j => transformer E false (kernel p) j h mask)
                          (seq i (S n)) hidden)
                       mask)),
            None).
Proof.
  intros HU. induction n as [|n IH]; intros i hidden probs Hlen.
  - destruct (index_some (classifiers p) i ltac:(lia)) as (head & Hhead & _).
    exists head. rewrite Nat.add_0_r. split; [assumption|].
    change (seq i 1) with [i].
    rewrite (infer_loop_cons p mask f0_0 i [] hidden probs head Hhead).
    cbv zeta. rewrite HU. reflexivity.
  - destruct (index_some (classifiers p) i ltac:(lia)) as (head & Hhead & _).
    change (seq i (S (S n))) with (i :: seq (S i) (S n)).
    rewrite (infer_loop_cons p mask f0_0 i _ hidden probs head Hhead).
    cbv zeta. rewrite HU.
    destruct (IH (S i) (transformer E false (kernel p) i hidden mask)
                 (Some (softmax E (classifier E false head
                    (transformer E false (kernel p) i hidden mask) mask)))
                 ltac:(lia)) as (last & Hlast & Hloop).
    exists last. split.
    + now replace (i + S n) with (S i + n) by lia.
    + rewrite Hloop. reflexivity.
Qed.

(** A larger threshold leaves the loop no later. *)
Lemma infer_loop_antitone (p : ParamsOf E) (mask : Tensor E)
    (speed_a speed_b : float) (n : nat) :
  flt speed_b speed_a = true ->
  forall (i : nat) (hidden : Tensor E) (probs : option (Tensor E)),
    i + n <= length (classifiers p) ->
    exists pa ea pb eb,
      infer_loop E p mask speed_a (seq i n) hidden probs = Ok (pa, ea) /\
      infer_loop E p mask speed_b (seq i n) hidden probs = Ok (pb, eb) /\
      exec_layers (i + n) ea <= exec_layers (i + n) eb.
Proof.
  intros Hab. induction n as [|n IH]; intros i hidden probs Hlen.
  - exists probs, None, probs, None. simpl. repeat split. lia.
  - destruct (index_some (classifiers p) i ltac:(lia)) as (head & Hhead & _).
    change (seq i (S n)) with (i :: seq (S i) n).
    rewrite !(infer_loop_cons p mask _ i _ hidden probs head Hhead).
    cbv zeta.
    set (hidden' := transformer E false (kernel p) i hidden mask).
    set (probs' := softmax E (classifier E false head hidden' mask)).
    set (u := item E (calc_uncertainty E probs' (labels_num E))).
    destruct (flt u speed_b) eqn:Hub.
    + (* the smaller threshold stops here, and so does the larger one *)
      rewrite (flt_trans u speed_b speed_a Hub Hab).
      exists (Some probs'), (Some (i + 1)), (Some probs'), (Some (i + 1)).
      repeat split. simpl. lia.
    + destruct (flt u speed_a) eqn:Hua.
      * (* only the larger threshold stops here *)
        destruct (infer_loop_total p mask speed_b n (S i) hidden'
                    (Some probs') ltac:(lia)) as (pb & eb & Hb & Hex & _).
        exists (Some probs'), (Some (i + 1)), pb, eb.
        repeat split; [assumption|].
        destruct eb as [m|]; simpl; [|lia].
        specialize (Hex m eq_refl). lia.
      * destruct (IH (S i) hidden' (Some probs') ltac:(lia))
          as (pa & ea & pb & eb & Ha & Hb & Hle).
        exists pa, ea, pb, eb. repeat split; try assumption.
        now replace (i + S n) with (S i + n) by lia.
Qed.

(** Under the contracts of the collaborators, [_fast_infer] returns: the
    label at the position given by the arg-max of the probabilities the
    loop ends with, and the layer count the loop ends with. *)
Lemma fast_infer_returns (p : ParamsOf E) (sentence : string) (speed : float) :
  LabelIdsInRange E -> NoDup (labels E) -> CascadeShape E p ->
  exists t ex lbl,
    infer_loop E p (sentence_mask E sentence) speed (seq 0 (layers_num E))
      (sentence_embedding E p sentence) None = Ok (Some t, ex) /\
    nth_error (labels E) (Z.to_nat (item_int E (argmax E t))) = Some lbl /\
    _fast_infer E p sentence speed
    = Ok (lbl, exec_layers (layers_num E) ex).
Proof.
  intros Hid Hnd [Hpos Hlen].
  destruct (infer_loop_total p (sentence_mask E sentence) speed
              (layers_num E) 0 (sentence_embedding E p sentence) None
              ltac:(lia)) as (pr & ex & Hloop & _ & Hpr).
  destruct (Hpr Hpos) as (t & -> & (h & hid & m & ->)).
  destruct (id2label_lookup E _ Hnd (Hid h hid m)) as (lbl & Hnth & Hget).
  exists (softmax E (classifier E false h hid m)), ex, lbl.
  split; [assumption|]. split; [assumption|].
  rewrite fast_infer_unfold, Hloop. simpl. rewrite Hget. reflexivity.
Qed.

(** The label [_fast_infer] returns is one of the labels. *)
Lemma fast_infer_label (p : ParamsOf E) (sentence : string) (speed : float)
    (lbl : label) (n : nat) :
  _fast_infer E p sentence speed = Ok (lbl, n) -> In lbl (labels E).
Proof.
  rewrite fast_infer_unfold.
  destruct (infer_loop E p _ speed _ _ None) as [[pr ex]|e]; simpl;
    [|discriminate].
  destruct pr as [t|]; [|discriminate].
  destruct (get Z.eqb (id2label E) (item_int E (argmax E t))) as [l|e] eqn:Hl;
    simpl; [|discriminate].
  intros H. inversion H; subst. now apply id2label_values in Hl.
Qed.

(** With labels that are all strings, [forward] never returns: the label
    [_fast_infer] hands back is looked up in [id2label] a second time, and
    no string is a key there. *)
Lemma forward_raises_on_string_labels (p : ParamsOf E) (sentence : string)
    (speed : float) :
  (forall l, In l (labels E) -> exists s, l = LStr s) ->
  is_ok (forward E p sentence speed) = false.
Proof.
  intros Hstr. unfold forward.
  destruct (_fast_infer E p sentence speed) as [[lbl n]|e] eqn:Hinfer;
    [|reflexivity].
  apply fast_infer_label in Hinfer.
  destruct (Hstr lbl Hinfer) as (s & ->). reflexivity.
Qed.

End InferenceFacts.

(** C1.  With the labels ["pos"] and ["neg"], [_fast_infer] returns the
    label ["pos"] for the sentence ["a"], and [forward], the public entry
    point, raises [KeyError] on the same input instead of returning that
    label: it looks the label up in [id2label], whose keys are the ids 0
    and 1. *)
Theorem forward_raises_key_error :
  _fast_infer Toy.E (Toy.params0 1) "a" f0_0 = Ok (LStr "pos", 3) /\
  forward Toy.E (Toy.params0 1) "a" f0_0 = Raise KeyError /\
  forward Toy.E (Toy.params0 1) "a" f0_5 = Raise KeyError /\
  id2label Toy.E = [(0%Z, LStr "pos"); (1%Z, LStr "neg")].
Proof. repeat split. Qed.

(** C2.  At speed 0.0 no early exit is taken: [_fast_infer] returns the
    layer count of the backbone, and the label at the position given by the
    arg-max of the probabilities of the teacher head after all the
    layers. *)
Theorem full_depth_at_speed_zero (E : Env) (p : ParamsOf E)
    (sentence : string) :
  UncertaintyNonNegative E -> LabelIdsInRange E -> NoDup (labels E) ->
  CascadeShape E p ->
  exists probs lbl,
    teacher_probs E p sentence = Ok probs /\
    nth_error (labels E) (Z.to_nat (item_int E (argmax E probs))) = Some lbl /\
    _fast_infer E p sentence f0_0 = Ok (lbl, layers_num E).
Proof.
  intros HU Hid Hnd Hshape.
  destruct (fast_infer_returns E p sentence f0_0 Hid Hnd Hshape)
    as (t & ex & lbl & Hloop & Hnth & Hinfer).
  destruct Hshape as [Hpos Hlen].
  destruct (layers_num E) as [|n] eqn:HL; [lia|].
  destruct (infer_loop_full_depth E p (sentence_mask E sentence) n HU 0
              (sentence_embedding E p sentence) None ltac:(lia))
    as (head & Hhead & Hfull).
  rewrite Hfull in Hloop. inversion Hloop; subst t ex. clear Hloop.
  exists (softmax E
            (classifier E false head
               (fold_left
                  (fun h j =>
                     transformer E false (kernel p) j h
                       (sentence_mask E sentence))
                  (seq 0 (S n)) (sentence_embedding E p sentence))
               (sentence_mask E sentence))), lbl.
  split; [|split; assumption].
  unfold teacher_probs. rewrite HL, index_last_nth, Hlen.
  replace (S n - 1) with (0 + n) by lia. rewrite Hhead. reflexivity.
Qed.

(** C3.  For a fixed sentence and fixed parameters, a larger speed never
    executes more layers: if [speed_a > speed_b], both calls return and the
    layer count at [speed_a] is at most the one at [speed_b]. *)
Theorem exec_layer_num_antitone (E : Env) (p : ParamsOf E)
    (sentence : string) (speed_a speed_b : float) :
  LabelIdsInRange E -> NoDup (labels E) -> CascadeShape E p ->
  flt speed_b speed_a = true ->
  exists label_a n_a label_b n_b,
    _fast_infer E p sentence speed_a = Ok (label_a, n_a) /\
    _fast_infer E p sentence speed_b = Ok (label_b, n_b) /\
    n_a <= n_b.
Proof.
  intros Hid Hnd Hshape Hab.
  destruct (fast_infer_returns E p sentence speed_a Hid Hnd Hshape)
    as (ta & ea & la & Hloop_a & _ & Ha).
  destruct (fast_infer_returns E p sentence speed_b Hid Hnd Hshape)
    as (tb & eb & lb & Hloop_b & _ & Hb).
  destruct Hshape as [Hpos Hlen].
  destruct (infer_loop_antitone E p (sentence_mask E sentence) speed_a
              speed_b (layers_num E) Hab 0
              (sentence_embedding E p sentence) None ltac:(lia))
    as (pa & ea' & pb & eb' & Ha' & Hb' & Hle).
  rewrite Hloop_a in Ha'. rewrite Hloop_b in Hb'.
  inversion Ha'; inversion Hb'; subst.
  exists la, (exec_layers (layers_num E) ea'),
         lb, (exec_layers (layers_num E) eb').
  repeat split; assumption.
Qed.

(** The small model meets the contracts. *)
Lemma toy_uncertainty_non_negative (ls : list label) :
  UncertaintyNonNegative (Toy.env ls).
Proof.
  intros probs n. simpl. unfold Toy.toy_item. simpl.
  destruct (nth 2 probs 0 =? 1)%Z; [reflexivity|].
  destruct (nth 2 probs 0 =? 2)%Z; reflexivity.
Defined.

Lemma toy_label_ids_in_range : LabelIdsInRange Toy.E.
Proof.
  intros h hidden mask. simpl.
  destruct (_ <? _)%Z; lia.
Defined.

Lemma toy_labels_distinct : NoDup (labels Toy.E).
Proof.
  simpl. repeat constructor; simpl.
  - intros [H | []]. discriminate.
  - intros [].
Defined.

Lemma toy_cascade_shape (k : Z) : CascadeShape Toy.E (Toy.params0 k).
Proof. split; simpl; lia. Defined.

Lemma full_depth_at_speed_zero_witness :
  exists probs lbl,
    teacher_probs Toy.E (Toy.params0 1) "u" = Ok probs /\
    nth_error (labels Toy.E) (Z.to_nat (item_int Toy.E (argmax Toy.E probs)))
    = Some lbl /\
    _fast_infer Toy.E (Toy.params0 1) "u" f0_0 = Ok (lbl, layers_num Toy.E).
Proof.
  apply (full_depth_at_speed_zero Toy.E (Toy.params0 1) "u").
  - apply toy_uncertainty_non_negative.
  - apply toy_label_ids_in_range.
  - apply toy_labels_distinct.
  - apply toy_cascade_shape.
Defined.

Lemma exec_layer_num_antitone_witness :
  flt f0_5 Toy.f0_9 = true /\
  _fast_infer Toy.E (Toy.params0 1) "a" Toy.f0_9 = Ok (LStr "pos", 1) /\
  _fast_infer Toy.E (Toy.params0 1) "a" f0_5 = Ok (LStr "pos", 2) /\
  exists label_a n_a label_b n_b,
    _fast_infer Toy.E (Toy.params0 1) "a" Toy.f0_9 = Ok (label_a, n_a) /\
    _fast_infer Toy.E (Toy.params0 1) "a" f0_5 = Ok (label_b, n_b) /\
    n_a <= n_b.
Proof.
  split; [reflexivity|]. split; [reflexivity|]. split; [reflexivity|].
  apply (exec_layer_num_antitone Toy.E (Toy.params0 1) "a" Toy.f0_9 f0_5).
  - apply toy_label_ids_in_range.
  - apply toy_labels_distinct.
  - apply toy_cascade_shape.
  - reflexivity.
Defined.

(** ** Stateful computations *)

Lemma mbind_ok {E A B} (c : M E A) (k : A -> M E B) (st st' : State E)
    (b : B) :
  mbind c k st = (Ok b, st') ->
  exists a st1, c st = (Ok a, st1) /\ k a st1 = (Ok b, st').
Proof.
  unfold mbind. destruct (c st) as [[a|e] st1]; intros H.
  - now exists a, st1.
  - discriminate.
Qed.

Lemma mbind_step {E A B} (c : M E A) (k : A -> M E B) (st st1 : State E)
    (a : A) :
  c st = (Ok a, st1) -> mbind c k st = k a st1.
Proof. unfold mbind. now intros ->. Qed.

Lemma mbind_raise {E A B} (c : M E A) (k : A -> M E B) (st st1 : State E)
    (e : exn) :
  c st = (Raise e, st1) -> mbind c k st = (Raise e, st1).
Proof. unfold mbind. now intros ->. Qed.

Lemma mfor_app {E A S} (xs ys : list A) (body : A -> S -> M E S) (s : S)
    (st : State E) :
  mfor (xs ++ ys) body s st
  = mbind (mfor xs body s) (fun s' => mfor ys body s') st.
Proof.
  revert s st. induction xs as [|x xs IH]; intros s st; simpl.
  - reflexivity.
  - unfold mbind. destruct (body x s st) as [[s1|e] st1]; [|reflexivity].
    rewrite IH. reflexivity.
Qed.

(** A relation between the state before and the state after that every
    step of a computation maintains. *)
Section Respects.
Context {E : Env} (R : State E -> State E -> Prop).
Hypothesis R_refl : forall st, R st st.
Hypothesis R_trans : forall a b c, R a b -> R b c -> R a c.

Lemma respects_ret {A} (a : A) : respects R (ret a).
Proof. intros st. apply R_refl. Qed.

Lemma respects_raise {A} (e : exn) : respects R (@raise E A e).
Proof. intros st. apply R_refl. Qed.

Lemma respects_lift {A} (r : result A) : respects R (lift r).
Proof. intros st. apply R_refl. Qed.

Lemma respects_mbind {A B} (c : M E A) (k : A -> M E B) :
  respects R c -> (forall a, respects R (k a)) -> respects R (mbind c k).
Proof.
  intros Hc Hk st. unfold mbind. specialize (Hc st).
  destruct (c st) as [[a|e] st1]; simpl in *.
  - eapply R_trans; [exact Hc | apply Hk].
  - exact Hc.
Qed.

Lemma respects_mfor {A S} (xs : list A) (body : A -> S -> M E S) :
  (forall x s, respects R (body x s)) ->
  forall s, respects R (mfor xs body s).
Proof.
  intros Hbody. induction xs as [|x xs IH]; intros s; simpl.
  - apply respects_ret.
  - apply respects_mbind; [apply Hbody | apply IH].
Qed.

Lemma respects_if {A} (b : bool) (c1 c2 : M E A) :
  respects R c1 -> respects R c2 -> respects R (if b then c1 else c2).
Proof. now destruct b. Qed.

End Respects.

(** ** The trace *)

Section TraceFacts.
Context (E : Env).

Lemma saved_snapshots_app (a b : list (Event (ParamsOf E))) :
  saved_snapshots E (a ++ b) = saved_snapshots E a ++ saved_snapshots E b.
Proof.
  induction a as [|e a IH]; simpl; [reflexivity|].
  destruct e; simpl; now rewrite IH.
Qed.

Lemma optimizer_rates_app (a b : list (Event (ParamsOf E))) :
  optimizer_rates E (a ++ b) = optimizer_rates E a ++ optimizer_rates E b.
Proof.
  induction a as [|e a IH]; simpl; [reflexivity|].
  destruct e; simpl; now rewrite IH.
Qed.

Lemma evaluation_speeds_app (a b : list (Event (ParamsOf E))) :
  evaluation_speeds E (a ++ b)
  = evaluation_speeds E a ++ evaluation_speeds E b.
Proof.
  induction a as [|e a IH]; simpl; [reflexivity|].
  destruct e; simpl; now rewrite IH.
Qed.

Lemma keeps_checkpoints_refl (st : State E) : keeps_checkpoints E st st.
Proof. now split. Qed.

Lemma keeps_checkpoints_trans (a b c : State E) :
  keeps_checkpoints E a b -> keeps_checkpoints E b c ->
  keeps_checkpoints E a c.
Proof. intros [H1 H2] [H3 H4]. split; congruence. Qed.

Lemma keeps_rates_refl (st : State E) : keeps_rates E st st.
Proof. reflexivity. Qed.

Lemma keeps_rates_trans (a b c : State E) :
  keeps_rates E a b -> keeps_rates E b c -> keeps_rates E a c.
Proof. unfold keeps_rates. congruence. Qed.

Lemma evaluates_at_refl (speed : float) (st : State E) :
  evaluates_at E speed st st.
Proof. exists []. now rewrite app_nil_r. Qed.

Lemma evaluates_at_trans (speed : float) (a b c : State E) :
  evaluates_at E speed a b -> evaluates_at E speed b c ->
  evaluates_at E speed a c.
Proof.
  intros (n1 & H1 & F1) (n2 & H2 & F2). exists (n1 ++ n2). split.
  - rewrite H2, H1. now rewrite app_assoc.
  - apply Forall_app. now split.
Qed.

(** [_evaluate] run on the state: the parameters are read, the outcome is
    recorded, nothing else moves. *)
Lemma evaluate_run (ss : list string) (ls : list label) (speed : float)
    (st : State E) :
  evaluate E ss ls speed st
  = match _evaluate E (params st) ss ls speed with
    | Ok r => (Ok r, snd (log E (Evaluated ss speed (fst r) (snd r)) st))
    | Raise e => (Raise e, st)
    end.
Proof.
  unfold evaluate, mbind, get_params, lift.
  destruct (_evaluate E (params st) ss ls speed); reflexivity.
Qed.

End TraceFacts.

(** ** What each step of training leaves alone *)

Lemma respects_weaken {E A} (R R' : State E -> State E -> Prop) (c : M E A) :
  (forall a b, R a b -> R' a b) -> respects R c -> respects R' c.
Proof. intros Himp Hc st. apply Himp, Hc. Qed.

(** Splits a goal [respects R c] along the structure of [c]. *)
Ltac frame refl trans :=
  repeat match goal with
  | |- respects _ (mbind _ _) => apply (respects_mbind _ trans)
  | |- respects _ (ret _) => apply (respects_ret _ refl)
  | |- respects _ (raise _) => apply (respects_raise _ refl)
  | |- respects _ (lift _) => apply (respects_lift _ refl)
  | |- respects _ (if _ then _ else _) => apply respects_if
  | |- forall _, respects _ _ => intro
  | |- respects _ (let (_, _) := ?x in _) => destruct x
  end.

Section StepFacts.
Context (E : Env).

Lemma silent_refl (st : State E) : silent st st.
Proof. now split. Qed.

Lemma silent_trans (a b c : State E) : silent a b -> silent b c -> silent a c.
Proof. intros [H1 H2] [H3 H4]. split; congruence. Qed.

Lemma silent_keeps_checkpoints (a b : State E) :
  silent a b -> keeps_checkpoints E a b.
Proof. intros [H1 H2]. split; congruence. Qed.

Lemma silent_keeps_rates (a b : State E) : silent a b -> keeps_rates E a b.
Proof. intros [H1 H2]. unfold keeps_rates. congruence. Qed.

Lemma silent_evaluates_at (speed : float) (a b : State E) :
  silent a b -> evaluates_at E speed a b.
Proof. intros [H1 H2]. exists []. rewrite H1, app_nil_r. now split. Qed.

Lemma update_grads_silent (f : GradsOf E -> GradsOf E) :
  respects silent (update_grads E f).
Proof. intros st. now split. Qed.

Lemma get_params_silent : respects silent (get_params E).
Proof. intros st. now split. Qed.

Lemma apply_optimizer_silent (o : Optim E) :
  respects silent (apply_optimizer E o).
Proof.
  intros st. unfold apply_optimizer.
  destruct (optimizer_step E o (grads st) (params st)). now split.
Qed.

Lemma do_shuffle_pairs_silent (ss : list string) (ls : list label) :
  respects silent (do_shuffle_pairs E ss ls).
Proof.
  intros st. unfold do_shuffle_pairs.
  destruct (shuffle_pairs E (rng st) ss ls) as [[ss' ls'] g]. now split.
Qed.

Lemma do_random_shuffle_silent (ss : list string) :
  respects silent (do_random_shuffle E ss).
Proof.
  intros st. unfold do_random_shuffle.
  destruct (random_shuffle E (rng st) ss) as [ss' g]. now split.
Qed.

Lemma train_step_silent (ss : list string) (ls : option (list label))
    (batch_size report_steps : Z) (step : nat) (o : Optim E) :
  respects silent (train_step E ss ls batch_size report_steps step o).
Proof.
  unfold train_step.
  frame silent_refl silent_trans;
    auto using update_grads_silent, get_params_silent,
               apply_optimizer_silent.
Qed.

Lemma train_steps_silent (ss : list string) (ls : option (list label))
    (batch_size report_steps : Z) (steps : list nat) (o : Optim E) :
  respects silent
    (mfor steps (train_step E ss ls batch_size report_steps) o).
Proof.
  apply (respects_mfor _ silent_refl silent_trans).
  intros. apply train_step_silent.
Qed.

End StepFacts.

Section RecordedFacts.
Context (E : Env).

Lemma evaluate_effect (ss : list string) (ls : list label) (speed : float)
    (st : State E) :
  let st' := snd (evaluate E ss ls speed st) in
  files st' = files st /\ params st' = params st /\ grads st' = grads st /\
  (trace st' = trace st \/
   exists acc ave, trace st' = trace st ++ [Evaluated ss speed acc ave]).
Proof.
  rewrite evaluate_run.
  destruct (_evaluate E (params st) ss ls speed) as [r|e]; simpl.
  - repeat split. right. now exists (fst r), (snd r).
  - repeat split. now left.
Qed.

Lemma evaluate_keeps_checkpoints (ss : list string) (ls : list label)
    (speed : float) :
  respects (keeps_checkpoints E) (evaluate E ss ls speed).
Proof.
  intros st. destruct (evaluate_effect ss ls speed st)
    as (Hf & _ & _ & [Ht | (acc & ave & Ht)]);
    split; try assumption; rewrite Ht; try reflexivity.
  rewrite saved_snapshots_app. simpl. now rewrite app_nil_r.
Qed.

Lemma evaluate_keeps_rates (ss : list string) (ls : list label)
    (speed : float) :
  respects (keeps_rates E) (evaluate E ss ls speed).
Proof.
  intros st. unfold keeps_rates.
  destruct (evaluate_effect ss ls speed st)
    as (_ & _ & _ & [Ht | (acc & ave & Ht)]); rewrite Ht; try reflexivity.
  rewrite optimizer_rates_app. simpl. now rewrite app_nil_r.
Qed.

Lemma evaluate_evaluates_at (ss : list string) (ls : list label)
    (speed : float) :
  respects (evaluates_at E speed) (evaluate E ss ls speed).
Proof.
  intros st.
  destruct (evaluate_effect ss ls speed st)
    as (_ & _ & _ & [Ht | (acc & ave & Ht)]).
  - exists []. rewrite Ht, app_nil_r. now split.
  - exists [speed]. rewrite Ht, evaluation_speeds_app. simpl.
    split; [reflexivity|]. now repeat constructor.
Qed.

Lemma save_model_keeps_rates (path : string) :
  respects (keeps_rates E) (save_model E path).
Proof.
  intros st. unfold keeps_rates. simpl.
  rewrite optimizer_rates_app. simpl. now rewrite app_nil_r.
Qed.

Lemma save_model_evaluates_at (speed : float) (path : string) :
  respects (evaluates_at E speed) (save_model E path).
Proof.
  intros st. exists []. simpl.
  rewrite evaluation_speeds_app. simpl. now split.
Qed.

Lemma load_model_keeps_rates (path : string) :
  respects (keeps_rates E) (load_model E path).
Proof.
  intros st. unfold keeps_rates, load_model.
  destruct (files st path); simpl; [|reflexivity].
  rewrite optimizer_rates_app. simpl. now rewrite app_nil_r.
Qed.

Lemma new_AdamW_evaluates_at (speed lr : float) :
  respects (evaluates_at E speed) (new_AdamW E lr).
Proof.
  intros st. exists []. simpl.
  rewrite evaluation_speeds_app. simpl. now split.
Qed.

Lemma new_AdamW_keeps_checkpoints (lr : float) :
  respects (keeps_checkpoints E) (new_AdamW E lr).
Proof.
  intros st. split; simpl; [|reflexivity].
  rewrite saved_snapshots_app. simpl. now rewrite app_nil_r.
Qed.

Lemma training_setup_keeps_checkpoints (n batch_size : Z) (lr : float)
    (epochs_num : Z) (warmup : float) :
  respects (keeps_checkpoints E)
    (training_setup E n batch_size lr epochs_num warmup).
Proof.
  unfold training_setup.
  frame (keeps_checkpoints_refl E) (keeps_checkpoints_trans E).
  apply new_AdamW_keeps_checkpoints.
Qed.

Lemma training_setup_evaluates_at (speed : float) (n batch_size : Z)
    (lr : float) (epochs_num : Z) (warmup : float) :
  respects (evaluates_at E speed)
    (training_setup E n batch_size lr epochs_num warmup).
Proof.
  unfold training_setup.
  frame (evaluates_at_refl E speed) (evaluates_at_trans E speed).
  apply new_AdamW_evaluates_at.
Qed.

(** An epoch of either phase creates no optimizer. *)
Lemma fine_tuning_epoch_keeps_rates (sd : list string) (ld : list label)
    (batch_size report_steps : Z) (path : string) (steps_num : Z)
    (epoch : nat) (v : FineTuneVars E) :
  respects (keeps_rates E)
    (fine_tuning_epoch E sd ld batch_size report_steps path steps_num
       epoch v).
Proof.
  unfold fine_tuning_epoch.
  frame (keeps_rates_refl E) (keeps_rates_trans E);
    try apply evaluate_keeps_rates;
    try apply save_model_keeps_rates;
    apply (respects_weaken silent); try apply silent_keeps_rates;
    auto using do_shuffle_pairs_silent, train_steps_silent.
Qed.

Lemma distillation_epoch_keeps_rates (sd : list string) (ld : list label)
    (batch_size report_steps : Z) (path : string) (steps_num : Z)
    (epoch : nat) (v : list string * Optim E) :
  respects (keeps_rates E)
    (distillation_epoch E sd ld batch_size report_steps path steps_num
       epoch v).
Proof.
  unfold distillation_epoch.
  frame (keeps_rates_refl E) (keeps_rates_trans E);
    try apply evaluate_keeps_rates;
    try apply save_model_keeps_rates;
    apply (respects_weaken silent); try apply silent_keeps_rates;
    auto using do_random_shuffle_silent, train_steps_silent.
Qed.

(** Every evaluation of a self-distillation epoch runs at speed 0.5. *)
Lemma distillation_epoch_evaluates_at_half (sd : list string)
    (ld : list label) (batch_size report_steps : Z) (path : string)
    (steps_num : Z) (epoch : nat) (v : list string * Optim E) :
  respects (evaluates_at E f0_5)
    (distillation_epoch E sd ld batch_size report_steps path steps_num
       epoch v).
Proof.
  unfold distillation_epoch.
  frame (evaluates_at_refl E f0_5) (evaluates_at_trans E f0_5);
    try apply evaluate_evaluates_at;
    try apply save_model_evaluates_at;
    apply (respects_weaken silent); try apply silent_evaluates_at;
    auto using do_random_shuffle_silent, train_steps_silent.
Qed.

(** Whatever [dev_speed] is passed, the evaluations of the phase run at
    speed 0.5. *)
Lemma self_distillation_evaluates_at_half (ss : list string)
    (batch_size : Z) (lr : float) (epochs_num : Z) (warmup : float)
    (report_steps : Z) (path : string) (sd : list string) (ld : list label)
    (dev_speed : float) :
  respects (evaluates_at E f0_5)
    (self_distillation E ss batch_size lr epochs_num warmup report_steps
       path sd ld dev_speed).
Proof.
  unfold self_distillation.
  frame (evaluates_at_refl E f0_5) (evaluates_at_trans E f0_5).
  - apply training_setup_evaluates_at.
  - apply (respects_mfor _ (evaluates_at_refl E f0_5)
             (evaluates_at_trans E f0_5)).
    intros. apply distillation_epoch_evaluates_at_half.
Qed.

End RecordedFacts.

(** ** Evaluation without a validation set *)

Lemma mbind_assoc {E A B C} (c : M E A) (k1 : A -> M E B) (k2 : B -> M E C)
    (st : State E) :
  mbind (mbind c k1) k2 st = mbind c (fun a => mbind (k1 a) k2) st.
Proof.
  unfold mbind. destruct (c st) as [[a|e] st1]; reflexivity.
Qed.

Lemma mbind_never_returns {E A B} (c : M E A) (k : A -> M E B) :
  (forall a st, is_ok (fst (k a st)) = false) ->
  forall st, is_ok (fst (mbind c k st)) = false.
Proof.
  intros Hk st. unfold mbind.
  destruct (c st) as [[a|e] st1]; [apply Hk | reflexivity].
Qed.

Section NoValidationSet.
Context (E : Env).

(** Without validation sentences an epoch of phase 1 cannot return:
    [dev_acc, _ = ... if dev_num > 0 else 0.0] unpacks the float 0.0. *)
Lemma fine_tuning_epoch_without_dev (ld : list label)
    (batch_size report_steps : Z) (path : string) (steps_num : Z)
    (epoch : nat) (v : FineTuneVars E) (st : State E) :
  is_ok (fst (fine_tuning_epoch E [] ld batch_size report_steps path
                steps_num epoch v st)) = false.
Proof.
  unfold fine_tuning_epoch.
  apply mbind_never_returns. intros [ss ls] st1.
  apply mbind_never_returns. intros o st2. reflexivity.
Qed.

(** So phase 1 with at least one epoch and no validation set never
    returns. *)
Lemma fine_tuning_without_dev_never_returns (ss : list string)
    (ls ld : list label) (batch_size : Z) (lr : float) (epochs_num : Z)
    (warmup : float) (report_steps : Z) (path : string) (st : State E) :
  (0 < epochs_num)%Z ->
  is_ok (fst (_fine_tuning_backbone E ss ls [] ld batch_size lr epochs_num
                warmup report_steps path st)) = false.
Proof.
  intros Hpos. unfold _fine_tuning_backbone, fine_tuning_epochs.
  rewrite !mbind_assoc.
  apply mbind_never_returns. intros [steps_num o] st1.
  unfold range. destruct (Z.to_nat epochs_num) as [|n] eqn:Hn; [lia|].
  change (seq 0 (S n)) with (0 :: seq 1 n). simpl mfor.
  rewrite !mbind_assoc.
  unfold mbind at 1.
  pose proof (fine_tuning_epoch_without_dev ld batch_size report_steps path
                steps_num 0
                {| best_acc := f0_0; ft_sentences := ss; ft_labels := ls;
                   ft_optimizer := o |} st1) as Hraise.
  destruct (fine_tuning_epoch E [] ld batch_size report_steps path
              steps_num 0 _ st1) as [[v|e] st2]; [discriminate | reflexivity].
Qed.

End NoValidationSet.

(** C6.  Phase 1 on the small model with three epochs and no validation
    set: the first epoch trains, then raises [TypeError] before the
    training-set evaluation is reached (nothing but the creation of the
    optimizer is recorded), although evaluating the training set on the
    parameters at that point returns an accuracy. *)
Theorem fine_tuning_without_dev_raises_type_error :
  let run := Toy.phase1 [] 3 (Toy.state0 0 None) in
  fst run = Raise TypeError /\
  trace (snd run) = [OptimizerCreated f2em5] /\
  _evaluate Toy.E (params (snd run)) Toy.sentences_train Toy.labels_train
    f0_0 = Ok (f0_5, float_of_Z 3).
Proof. vm_compute. repeat split. Qed.

(** ** The evaluation speed of the self-distillation phase *)

(** C5.  Self-distillation on the small model with [dev_speed = 0.9] and a
    validation set: both epochs evaluate at speed 0.5 and report an average
    of 2 executed layers, where an evaluation at 0.9 of the same parameters
    gives an average of 1. *)
Theorem self_distillation_ignores_dev_speed :
  let run := Toy.phase2 Toy.f0_9 (Toy.state0 1 None) in
  fst run = Ok tt /\
  evaluation_speeds Toy.E (trace (snd run)) = [f0_5; f0_5] /\
  evaluation_averages Toy.E (trace (snd run))
  = [float_of_Z 2; float_of_Z 2] /\
  _evaluate Toy.E (params (snd run)) Toy.sentences_dev Toy.labels_dev
    Toy.f0_9 = Ok (Toy.f0_7, float_of_Z 1) /\
  _evaluate Toy.E (params (snd run)) Toy.sentences_dev Toy.labels_dev
    f0_5 = Ok (Toy.f0_7, float_of_Z 2).
Proof. vm_compute. repeat split. Qed.

(** ** The learning rates of the two phases *)

Section LearningRates.
Context (E : Env).

(** The setup of a phase followed by steps that create no optimizer:
    exactly one optimizer is created, with the learning rate passed, unless
    the setup raises before. *)
Lemma setup_creates_one {A : Type} (n batch_size : Z) (lr : float)
    (epochs_num : Z) (warmup : float) (k : Z * Optim E -> M E A)
    (st : State E) :
  (forall s, respects (keeps_rates E) (k s)) ->
  let c := mbind (training_setup E n batch_size lr epochs_num warmup) k in
  creates c st [lr] \/
  (creates c st [] /\ is_ok (fst (c st)) = false).
Proof.
  intros Hk c. subst c. unfold creates, training_setup, mbind, lift.
  destruct (truediv (n * epochs_num) batch_size) as [q|e];
    [|right; simpl; now rewrite app_nil_r].
  destruct (int_of_float q) as [t|e];
    [|right; simpl; now rewrite app_nil_r].
  destruct (floordiv n batch_size) as [steps_num|e];
    [|right; simpl; now rewrite app_nil_r].
  left. cbn [new_AdamW log ret mbind fst snd].
  unfold new_AdamW, mbind, log, ret. cbn [fst snd].
  match goal with
  | |- context [k ?s ?st1] =>
      pose proof (Hk s st1) as Hkeep; unfold keeps_rates in Hkeep;
      destruct (k s st1) as [r st2] eqn:Hrun
  end.
  simpl in *. rewrite Hkeep, optimizer_rates_app. reflexivity.
Qed.

Lemma fine_tuning_creates (ss : list string) (ls : list label)
    (sd : list string) (ld : list label) (batch_size : Z) (lr : float)
    (epochs_num : Z) (warmup : float) (report_steps : Z) (path : string)
    (st : State E) :
  let c := _fine_tuning_backbone E ss ls sd ld batch_size lr epochs_num
             warmup report_steps path in
  creates c st [lr] \/ (creates c st [] /\ is_ok (fst (c st)) = false).
Proof.
  intros c. subst c. unfold _fine_tuning_backbone, fine_tuning_epochs.
  unfold creates. rewrite mbind_assoc.
  match goal with
  | |- context [mbind (training_setup E ?n ?b ?l ?e ?w) ?K st] =>
      apply (setup_creates_one n b l e w K st)
  end.
  intros [steps_num o].
  apply (respects_mbind _ (keeps_rates_trans E)).
  - apply (respects_mfor _ (keeps_rates_refl E) (keeps_rates_trans E)).
    intros. apply fine_tuning_epoch_keeps_rates.
  - intros. apply load_model_keeps_rates.
Qed.

Lemma self_distillation_creates (ss : list string) (batch_size : Z)
    (lr : float) (epochs_num : Z) (warmup : float) (report_steps : Z)
    (path : string) (sd : list string) (ld : list label) (dev_speed : float)
    (st : State E) :
  let c := self_distillation E ss batch_size lr epochs_num warmup
             report_steps path sd ld dev_speed in
  creates c st [lr] \/ (creates c st [] /\ is_ok (fst (c st)) = false).
Proof.
  intros c. subst c. unfold self_distillation.
  match goal with
  | |- context [mbind (training_setup E ?n ?b ?l ?e ?w) ?K] =>
      apply (setup_creates_one n b l e w K st)
  end.
  intros [steps_num o].
  apply (respects_mbind _ (keeps_rates_trans E)).
  - apply (respects_mfor _ (keeps_rates_refl E) (keeps_rates_trans E)).
    intros. apply distillation_epoch_keeps_rates.
  - intros. apply (respects_ret _ (keeps_rates_refl E)).
Qed.

End LearningRates.

(** ** The optimizer the self-distillation steps are taken with *)

Section DistillationRun.
Context (E : Env).

(** The setup of a phase that returns: the step count, and the optimizer
    created at the learning rate passed; only the record of calls
    changes. *)
Lemma training_setup_returns (n batch_size : Z) (lr : float)
    (epochs_num : Z) (warmup : float) (steps_num : Z) (o : Optim E)
    (st st1 : State E) :
  training_setup E n batch_size lr epochs_num warmup st
  = (Ok (steps_num, o), st1) ->
  exists q t,
    truediv (n * epochs_num) batch_size = Ok q /\
    int_of_float q = Ok t /\
    steps_num = (n / batch_size)%Z /\
    o = phase_optimizer E lr (t + 1) warmup /\
    params st1 = params st /\ grads st1 = grads st /\ rng st1 = rng st.
Proof.
  unfold training_setup, mbind, lift, new_AdamW, log, ret, floordiv.
  destruct (truediv (n * epochs_num) batch_size) as [q|e]; [|discriminate].
  destruct (int_of_float q) as [t|e] eqn:Ht; [|discriminate].
  destruct (batch_size =? 0)%Z; [discriminate|].
  intros H. inversion H; subst. exists q, t.
  unfold phase_optimizer. simpl. auto 10.
Qed.

(** A training step of self-distillation that returns has taken the step
    [distill_step] with the optimizer it was given. *)
Lemma train_step_distills (ss : list string) (batch_size report_steps : Z)
    (step : nat) (o o' : Optim E) (st st' : State E) :
  train_step E ss None batch_size report_steps step o st = (Ok o', st') ->
  (params st', grads st', o')
  = distill_step E ss batch_size (params st, grads st, o) step /\
  rng st' = rng st.
Proof.
  unfold train_step, distill_step, mbind, update_grads, get_params, lift,
    apply_optimizer.
  cbv zeta. cbn [params grads files rng trace option_map].
  destruct (_forward_for_loss E (params st) (params st) _ None) as [loss|e];
    [|discriminate].
  destruct (loss_item E loss) as [x|e]; [|discriminate].
  destruct (pymod _ report_steps) as [m|e]; [|discriminate].
  destruct (optimizer_step E o _ (params st)) as [p1 o1].
  intros H. inversion H; subst. split; reflexivity.
Qed.

Lemma train_steps_distill (ss : list string) (batch_size report_steps : Z)
    (steps : list nat) :
  forall (o o' : Optim E) (st st' : State E),
    mfor steps (train_step E ss None batch_size report_steps) o st
    = (Ok o', st') ->
    (params st', grads st', o')
    = fold_left (distill_step E ss batch_size) steps
                (params st, grads st, o) /\
    rng st' = rng st.
Proof.
  induction steps as [|step steps IH]; intros o o' st st' H.
  - simpl in H. unfold ret in H. inversion H; subst. now split.
  - simpl in H. apply mbind_ok in H as (o1 & st1 & Hstep & Hrest).
    apply train_step_distills in Hstep as [Hm Hr].
    apply IH in Hrest as [Hm' Hr'].
    cbn [fold_left]. rewrite <- Hm. split; congruence.
Qed.

(** An epoch of self-distillation that returns is [distill_epoch]: the
    evaluation and the checkpoint change none of what is trained. *)
Lemma distillation_epoch_distills (sd : list string) (ld : list label)
    (batch_size report_steps : Z) (path : string) (steps_num : Z)
    (epoch : nat) (v v' : list string * Optim E) (st st' : State E) :
  distillation_epoch E sd ld batch_size report_steps path steps_num epoch v st
  = (Ok v', st') ->
  (fst v', rng st', (params st', grads st', snd v'))
  = distill_epoch E batch_size steps_num
      (fst v, rng st, (params st, grads st, snd v)) epoch.
Proof.
  unfold distillation_epoch, distill_epoch. intros H.
  apply mbind_ok in H as (ss' & st1 & Hshuffle & H).
  apply mbind_ok in H as (o & st2 & Hsteps & H).
  apply mbind_ok in H as (r & st3 & Heval & H).
  apply mbind_ok in H as ([] & st4 & Hsave & H).
  unfold ret in H. inversion H; subst v' st'. clear H.
  unfold do_random_shuffle in Hshuffle.
  destruct (random_shuffle E (rng st) (fst v)) as [ss1 r1].
  inversion Hshuffle; subst ss' st1. clear Hshuffle.
  apply train_steps_distill in Hsteps as [Hm Hr].
  cbn [params grads rng] in Hm, Hr.
  destruct (0 <? len sd)%Z; [|discriminate Heval].
  rewrite evaluate_run in Heval.
  destruct (_evaluate E (params st2) sd ld f0_5) as [r'|e];
    [|discriminate Heval].
  inversion Heval; subst r' st3. clear Heval.
  unfold save_model in Hsave. inversion Hsave; subst st4. clear Hsave.
  cbn [params grads rng fst snd log]. rewrite <- Hm, Hr. reflexivity.
Qed.

Lemma distillation_epochs_distill (sd : list string) (ld : list label)
    (batch_size report_steps : Z) (path : string) (steps_num : Z)
    (epochs : list nat) :
  forall (v v' : list string * Optim E) (st st' : State E),
    mfor epochs
      (distillation_epoch E sd ld batch_size report_steps path steps_num)
      v st = (Ok v', st') ->
    (fst v', rng st', (params st', grads st', snd v'))
    = fold_left (distill_epoch E batch_size steps_num) epochs
                (fst v, rng st, (params st, grads st, snd v)).
Proof.
  induction epochs as [|epoch epochs IH]; intros v v' st st' H.
  - simpl in H. unfold ret in H. inversion H; subst. reflexivity.
  - simpl in H. apply mbind_ok in H as (v1 & st1 & Hepoch & Hrest).
    apply distillation_epoch_distills in Hepoch.
    apply IH in Hrest. cbn [fold_left]. rewrite <- Hepoch. exact Hrest.
Qed.

(** Self-distillation that returns has run every step of every epoch with
    the optimizer created at the learning rate it was passed. *)
Lemma self_distillation_distills (ss : list string) (batch_size : Z)
    (lr : float) (epochs_num : Z) (warmup : float) (report_steps : Z)
    (path : string) (sd : list string) (ld : list label) (dev_speed : float)
    (st st' : State E) :
  self_distillation E ss batch_size lr epochs_num warmup report_steps path
    sd ld dev_speed st = (Ok tt, st') ->
  exists q t,
    truediv (len ss * epochs_num) batch_size = Ok q /\
    int_of_float q = Ok t /\
    params st'
    = distilled_with E (phase_optimizer E lr (t + 1) warmup) ss batch_size
        epochs_num st.
Proof.
  unfold self_distillation. intros H.
  apply mbind_ok in H as ([steps_num o] & st1 & Hsetup & H).
  apply mbind_ok in H as (v' & st2 & Hloop & Hret).
  unfold ret in Hret. inversion Hret; subst st2. clear Hret.
  apply training_setup_returns in Hsetup
    as (q & t & Hq & Ht & -> & -> & Hp & Hg & Hr).
  exists q, t. split; [assumption|]. split; [assumption|].
  apply distillation_epochs_distill in Hloop.
  unfold distilled_with. cbn [fst snd] in Hloop.
  rewrite <- Hp, <- Hg, <- Hr, <- Hloop. reflexivity.
Qed.

End DistillationRun.

(** C10.  Whatever [fit] is called with, the optimizers it creates are, in
    order, one with the [learning_rate] option (default [2e-5]) for phase 1
    and one with ten times that rate for the self-distillation phase; a run
    that raises may stop before the second or before the first, and a run
    that returns has created both.  The second one is the optimizer phase 2
    is run with: a run that returns has completed phase 1, and the
    parameters it ends with are those that [distilling_epochs_num] epochs
    of distillation steps taken with the optimizer at ten times
    [learning_rate] produce from the state phase 1 left. *)
Theorem distillation_learning_rate (E : Env) (sentences_train : list string)
    (labels_train : list label) (kwargs : FitKwargs) (st : State E) :
  let learning_rate := kwargs_get (kw_learning_rate kwargs) f2em5 in
  let batch_size := kwargs_get (kw_batch_size kwargs) 16%Z in
  let epochs_num := kwargs_get (kw_distilling_epochs_num kwargs) 10%Z in
  let warmup := kwargs_get (kw_warmup kwargs) f0_1 in
  let run := fit E sentences_train labels_train kwargs st in
  (exists created,
     optimizer_rates E (trace (snd run))
     = optimizer_rates E (trace st) ++ created /\
     (created = [] \/ created = [learning_rate] \/
      created = [learning_rate; fmul learning_rate (float_of_Z 10)]) /\
     (is_ok (fst run) = true ->
      created = [learning_rate; fmul learning_rate (float_of_Z 10)])) /\
  (forall st',
     run = (Ok tt, st') ->
     exists st1 q t,
       _fine_tuning_backbone E sentences_train labels_train
         (kwargs_get (kw_sentences_dev kwargs) [])
         (kwargs_get (kw_labels_dev kwargs) []) batch_size learning_rate
         (kwargs_get (kw_finetuning_epochs_num kwargs) 5%Z) warmup
         (kwargs_get (kw_report_steps kwargs) 100%Z)
         (kwargs_get (kw_model_saving_path kwargs) (tmp_model_saving_path E))
         st = (Ok tt, st1) /\
       truediv (len sentences_train * epochs_num) batch_size = Ok q /\
       int_of_float q = Ok t /\
       params st'
       = distilled_with E
           (phase_optimizer E (fmul learning_rate (float_of_Z 10)) (t + 1)
              warmup)
           sentences_train batch_size epochs_num st1).
Proof.
  intros lr batch_size epochs_num warmup run. subst run. split.
  - unfold fit. fold lr batch_size epochs_num warmup.
    set (path := kwargs_get (kw_model_saving_path kwargs) _).
    pose proof (fine_tuning_creates E sentences_train labels_train
                  (kwargs_get (kw_sentences_dev kwargs) [])
                  (kwargs_get (kw_labels_dev kwargs) [])
                  batch_size lr
                  (kwargs_get (kw_finetuning_epochs_num kwargs) 5%Z)
                  warmup
                  (kwargs_get (kw_report_steps kwargs) 100%Z) path st) as H1.
    cbv zeta in H1. unfold creates in H1. unfold mbind.
    destruct (_fine_tuning_backbone E _ _ _ _ _ _ _ _ _ _ st)
      as [[u|e] st1]; simpl in H1.
    + (* phase 1 returned *)
      destruct H1 as [H1 | [_ Hno]]; [|discriminate Hno].
      pose proof (self_distillation_creates E sentences_train
                    batch_size (fmul lr (float_of_Z 10)) epochs_num warmup
                    (kwargs_get (kw_report_steps kwargs) 100%Z) path
                    (kwargs_get (kw_sentences_dev kwargs) [])
                    (kwargs_get (kw_labels_dev kwargs) [])
                    (kwargs_get (kw_dev_speed kwargs) f0_5) st1) as H2.
      cbv zeta in H2. unfold creates in H2.
      destruct (self_distillation E _ _ _ _ _ _ _ _ _ _ st1)
        as [[u2|e2] st2]; simpl in H2.
      * destruct H2 as [H2 | [_ Hno]]; [|discriminate Hno].
        exists [lr; fmul lr (float_of_Z 10)].
        pose proof (save_model_keeps_rates E path st2) as H3.
        unfold keeps_rates in H3. rewrite H3, H2, H1.
        rewrite <- app_assoc. simpl. repeat split; auto.
      * destruct H2 as [H2 | [H2 _]]; simpl; rewrite H2, H1, <- app_assoc.
        -- exists [lr; fmul lr (float_of_Z 10)]. repeat split; auto.
        -- exists [lr]. simpl. repeat split; auto. discriminate.
    + (* phase 1 raised *)
      simpl. destruct H1 as [H1 | [H1 _]]; rewrite H1.
      * exists [lr]. repeat split; auto. discriminate.
      * exists []. repeat split; auto. discriminate.
  - intros st' H. unfold fit in H. cbv zeta in H.
    fold lr batch_size epochs_num warmup in H.
    apply mbind_ok in H as ([] & st1 & Hphase1 & H).
    apply mbind_ok in H as ([] & st2 & Hphase2 & Hsave).
    unfold save_model in Hsave. inversion Hsave; subst st'. clear Hsave.
    apply self_distillation_distills in Hphase2 as (q & t & Hq & Ht & Hp).
    exists st1, q, t. cbn [params]. auto.
Qed.

(** On the model whose optimizer adds its learning rate in units of
    [1e-5]: phase 1, at [2e-5], leaves the student heads at 0, and the two
    steps of phase 2 add 20 each to them. *)
Lemma distillation_learning_rate_witness :
  let run := fit Toy.E_rate Toy.sentences_train Toy.labels_train
               Toy.kwargs_dev Toy.state_rate in
  (fst run = Ok tt /\
   optimizer_rates Toy.E_rate (trace (snd run))
   = [f2em5; fmul f2em5 (float_of_Z 10)] /\
   params (snd run) = {| kernel := 2%Z; classifiers := [40; 40; 2]%Z |}) /\
  (exists created,
     optimizer_rates Toy.E_rate (trace (snd run))
     = optimizer_rates Toy.E_rate (trace Toy.state_rate) ++ created /\
     (created = [] \/ created = [f2em5] \/
      created = [f2em5; fmul f2em5 (float_of_Z 10)]) /\
     (is_ok (fst run) = true ->
      created = [f2em5; fmul f2em5 (float_of_Z 10)])) /\
  (forall st',
     run = (Ok tt, st') ->
     exists st1 q t,
       _fine_tuning_backbone Toy.E_rate Toy.sentences_train Toy.labels_train
         Toy.sentences_dev Toy.labels_dev 2%Z f2em5 3%Z f0_1 100%Z Toy.path
         Toy.state_rate = (Ok tt, st1) /\
       truediv (len Toy.sentences_train * 2) 2 = Ok q /\
       int_of_float q = Ok t /\
       params st'
       = distilled_with Toy.E_rate
           (phase_optimizer Toy.E_rate (fmul f2em5 (float_of_Z 10)) (t + 1)
              f0_1)
           Toy.sentences_train 2%Z 2%Z st1).
Proof.
  split; [vm_compute; repeat split|].
  apply (distillation_learning_rate Toy.E_rate Toy.sentences_train
           Toy.labels_train Toy.kwargs_dev Toy.state_rate).
Defined.

(** ** The checkpoints of phase 1 *)

Section CheckpointFacts.
Context (E : Env).

(** What an epoch of phase 1 that returns has done, with a validation set:
    the accuracy of the parameters it ends with decides alone whether they
    are saved. *)
Lemma fine_tuning_epoch_returns (sd : list string) (ld : list label)
    (batch_size report_steps : Z) (path : string) (steps_num : Z)
    (epoch : nat) (v v' : FineTuneVars E) (st st' : State E) :
  (0 < len sd)%Z ->
  fine_tuning_epoch E sd ld batch_size report_steps path steps_num epoch v st
  = (Ok v', st') ->
  let acc := dev_accuracy E sd ld (params st') in
  best_acc E v' = improve (best_acc E v) acc /\
  saved_snapshots E (trace st')
  = saved_snapshots E (trace st)
    ++ (if flt (best_acc E v) acc then [(path, params st')] else []) /\
  files st' path
  = (if flt (best_acc E v) acc then Some (params st') else files st path).
Proof.
  intros Hdev H. unfold fine_tuning_epoch in H.
  apply mbind_ok in H as ([ss' ls'] & st1 & Hsh & H).
  apply mbind_ok in H as (o & st2 & Hsteps & H).
  apply Z.ltb_lt in Hdev. rewrite Hdev in H.
  apply mbind_ok in H as (dev_acc & st3 & Heval & H).
  apply mbind_ok in Heval as (r & st3' & Heval & Hret).
  unfold ret in Hret. inversion Hret; subst st3' dev_acc. clear Hret.
  apply mbind_ok in H as (r2 & st4 & Heval2 & H).
  apply mbind_ok in H as (best & st5 & Hbest & H).
  unfold ret in H. inversion H; subst v' st5. clear H.
  pose proof (do_shuffle_pairs_silent E (ft_sentences E v) (ft_labels E v) st)
    as [Ht1 Hf1].
  rewrite Hsh in Ht1, Hf1. simpl in Ht1, Hf1.
  pose proof (train_steps_silent E ss' (Some ls') batch_size report_steps
                (range steps_num) (ft_optimizer E v) st1) as [Ht2 Hf2].
  rewrite Hsteps in Ht2, Hf2. simpl in Ht2, Hf2.
  rewrite evaluate_run in Heval.
  destruct (_evaluate E (params st2) sd ld f0_0) as [r'|e] eqn:He;
    [|discriminate].
  inversion Heval; subst r' st3. clear Heval.
  rewrite evaluate_run in Heval2. simpl params in Heval2.
  destruct (_evaluate E (params st2) ss' ls' f0_0) as [r2'|e] eqn:He2;
    [|discriminate].
  inversion Heval2; subst r2' st4. clear Heval2.
  assert (Hacc : forall q, q = params st2 -> dev_accuracy E sd ld q = fst r).
  { intros q ->. unfold dev_accuracy. now rewrite He. }
  destruct (flt (best_acc E v) (fst r)) eqn:Hf.
  - unfold mbind, save_model, ret in Hbest. simpl in Hbest.
    inversion Hbest; subst best st'. clear Hbest. simpl.
    rewrite (Hacc _ eq_refl). unfold improve. rewrite Hf.
    repeat split.
    + rewrite !saved_snapshots_app. simpl. rewrite !app_nil_r.
      now rewrite Ht2, Ht1.
    + now rewrite String.eqb_refl.
  - unfold ret in Hbest. inversion Hbest; subst best st'. clear Hbest. simpl.
    rewrite (Hacc _ eq_refl). unfold improve. rewrite Hf.
    repeat split.
    + rewrite !saved_snapshots_app. simpl. rewrite !app_nil_r.
      now rewrite Ht2, Ht1.
    + now rewrite Hf2, Hf1.
Qed.

End CheckpointFacts.

Section PhaseOneFacts.
Context (E : Env).
Variables (sentences_train : list string) (labels_train : list label).
Variables (sentences_dev : list string) (labels_dev : list label).
Variables (batch_size : Z) (learning_rate : float) (epochs_num : Z).
Variables (warmup : float) (report_steps : Z) (model_saving_path : string).
Variable st0 : State E.
Hypothesis Hdev : (0 < len sentences_dev)%Z.

Let run := after_epochs E sentences_train labels_train sentences_dev
             labels_dev batch_size learning_rate epochs_num warmup
             report_steps model_saving_path st0.
Let best := best_so_far E sentences_train labels_train sentences_dev
              labels_dev batch_size learning_rate epochs_num warmup
              report_steps model_saving_path st0.
Let accuracy := dev_accuracy E sentences_dev labels_dev.

Lemma after_epochs_zero (v : FineTuneVars E) (st : State E) :
  run 0 = (Ok v, st) ->
  best_acc E v = f0_0 /\ keeps_checkpoints E st0 st.
Proof.
  unfold run, after_epochs, fine_tuning_epochs. intros H.
  apply mbind_ok in H as ([steps o] & st1 & Hsetup & H).
  simpl in H. unfold ret in H. inversion H; subst. split; [reflexivity|].
  pose proof (training_setup_keeps_checkpoints E (len sentences_train)
                batch_size learning_rate epochs_num warmup st0) as Hk.
  now rewrite Hsetup in Hk.
Qed.

(** A run of [k + 1] epochs that returns is a run of [k] epochs that
    returns followed by one more epoch. *)
Lemma after_epochs_succ (k : nat) (v' : FineTuneVars E) (st' : State E) :
  run (S k) = (Ok v', st') ->
  exists v st steps_num,
    run k = (Ok v, st) /\
    fine_tuning_epoch E sentences_dev labels_dev batch_size report_steps
      model_saving_path steps_num k v st = (Ok v', st').
Proof.
  unfold run, after_epochs, fine_tuning_epochs. intros H.
  apply mbind_ok in H as ([steps o] & st1 & Hsetup & H).
  rewrite seq_S, mfor_app in H.
  apply mbind_ok in H as (v & st & Hk & Hlast).
  simpl in Hlast.
  apply mbind_ok in Hlast as (v1 & st2 & Hbody & Hret).
  unfold ret in Hret. inversion Hret; subst v1 st2.
  exists v, st, steps. split; [|exact Hbody].
  now rewrite (mbind_step _ _ _ _ _ Hsetup).
Qed.

(** The variable [best_acc] holds the best accuracy of the epochs run so
    far. *)
Lemma best_acc_is_best_so_far (k : nat) :
  forall v st, run k = (Ok v, st) -> best_acc E v = best k.
Proof.
  induction k as [|k IH]; intros v st H.
  - now apply after_epochs_zero in H.
  - destruct (after_epochs_succ k v st H) as (v0 & st1 & steps & Hk & Hbody).
    apply (fine_tuning_epoch_returns E) in Hbody as (Hbest & _); [|exact Hdev].
    rewrite Hbest, (IH v0 st1 Hk).
    unfold best. simpl. fold run. now rewrite H.
Qed.

Lemma epoch_checkpoint (k : nat) (v' : FineTuneVars E) (st' : State E) :
  run (S k) = (Ok v', st') ->
  exists v st,
    run k = (Ok v, st) /\
    best_acc E v = best k /\
    saved_snapshots E (trace st')
    = saved_snapshots E (trace st)
      ++ (if flt (best k) (accuracy (params st'))
          then [(model_saving_path, params st')] else []) /\
    files st' model_saving_path
    = (if flt (best k) (accuracy (params st'))
       then Some (params st') else files st model_saving_path) /\
    best (S k) = improve (best k) (accuracy (params st')).
Proof.
  intros H.
  destruct (after_epochs_succ k v' st' H) as (v & st & steps & Hk & Hbody).
  exists v, st. split; [exact Hk|].
  pose proof (best_acc_is_best_so_far k v st Hk) as Hb.
  split; [exact Hb|].
  apply (fine_tuning_epoch_returns E) in Hbody as (_ & Hsaved & Hfiles);
    [|exact Hdev].
  rewrite Hb in Hsaved, Hfiles. repeat split; try assumption.
  unfold best. simpl. fold run. now rewrite H.
Qed.

(** After [k] epochs either no checkpoint was written, or the file holds
    the last one written, whose accuracy is the best so far. *)
Lemma last_checkpoint_is_best (k : nat) :
  forall v st,
    run k = (Ok v, st) ->
    exists new,
      saved_snapshots E (trace st) = saved_snapshots E (trace st0) ++ new /\
      ((new = [] /\ files st model_saving_path = files st0 model_saving_path)
       \/
       (exists new' q,
          new = new' ++ [(model_saving_path, q)] /\
          files st model_saving_path = Some q /\
          accuracy q = best k)).
Proof.
  induction k as [|k IH]; intros v' st' H.
  - apply after_epochs_zero in H as [_ [Hs Hf]].
    exists []. rewrite app_nil_r. split; [assumption|].
    left. split; [reflexivity | now rewrite Hf].
  - destruct (epoch_checkpoint k v' st' H)
      as (v & st & Hk & _ & Hsaved & Hfiles & Hbest).
    destruct (IH v st Hk) as (new & Hnew & Hcase).
    rewrite Hbest. unfold improve.
    destruct (flt (best k) (accuracy (params st'))).
    + exists (new ++ [(model_saving_path, params st')]).
      split; [now rewrite Hsaved, Hnew, app_assoc|].
      right. exists new, (params st'). repeat split. assumption.
    + exists new. rewrite app_nil_r in Hsaved.
      split; [now rewrite Hsaved|].
      rewrite Hfiles. exact Hcase.
Qed.

End PhaseOneFacts.

(** The saving rule of phase 1 with a validation set: the epoch after [k]
    completed epochs saves a checkpoint (the parameters it ends with)
    exactly when their validation accuracy strictly exceeds the best
    accuracy of the [k] epochs before, counted from 0.0, which is what
    [best_acc] holds.  When the phase returns after having saved, the
    parameters are those of the last checkpoint it saved, whose accuracy is
    the best of all the epochs; when it returns without having saved, they
    are whatever the file at the path held before the phase. *)
Theorem fine_tuning_checkpoint_policy (E : Env)
    (sentences_train : list string) (labels_train : list label)
    (sentences_dev : list string) (labels_dev : list label)
    (batch_size : Z) (learning_rate : float) (epochs_num : Z)
    (warmup : float) (report_steps : Z) (model_saving_path : string)
    (st0 : State E) :
  (0 < len sentences_dev)%Z ->
  let run := after_epochs E sentences_train labels_train sentences_dev
               labels_dev batch_size learning_rate epochs_num warmup
               report_steps model_saving_path st0 in
  let best := best_so_far E sentences_train labels_train sentences_dev
                labels_dev batch_size learning_rate epochs_num warmup
                report_steps model_saving_path st0 in
  let accuracy := dev_accuracy E sentences_dev labels_dev in
  (forall k v' st',
     run (S k) = (Ok v', st') ->
     exists v st,
       run k = (Ok v, st) /\
       best_acc E v = best k /\
       saved_snapshots E (trace st')
       = saved_snapshots E (trace st)
         ++ (if flt (best k) (accuracy (params st'))
             then [(model_saving_path, params st')] else [])) /\
  (forall u st_end,
     _fine_tuning_backbone E sentences_train labels_train sentences_dev
       labels_dev batch_size learning_rate epochs_num warmup report_steps
       model_saving_path st0 = (Ok u, st_end) ->
     exists new,
       saved_snapshots E (trace st_end)
       = saved_snapshots E (trace st0) ++ new /\
       ((new = [] /\ files st0 model_saving_path = Some (params st_end)) \/
        (exists new' q,
           new = new' ++ [(model_saving_path, q)] /\
           params st_end = q /\
           accuracy q = best (Z.to_nat epochs_num)))).
Proof.
  intros Hdev run best accuracy. split.
  - intros k v' st' H.
    destruct (epoch_checkpoint E sentences_train labels_train sentences_dev
                labels_dev batch_size learning_rate epochs_num warmup
                report_steps model_saving_path st0 Hdev k v' st' H)
      as (v & st & Hk & Hb & Hsaved & _).
    now exists v, st.
  - intros u st_end H. unfold _fine_tuning_backbone in H.
    apply mbind_ok in H as (v & st & Hloop & Hload).
    destruct (last_checkpoint_is_best E sentences_train labels_train
                sentences_dev labels_dev batch_size learning_rate epochs_num
                warmup report_steps model_saving_path st0 Hdev
                (Z.to_nat epochs_num) v st Hloop) as (new & Hnew & Hcase).
    unfold load_model in Hload.
    destruct (files st model_saving_path) as [q|] eqn:Hq; [|discriminate].
    inversion Hload; subst st_end. clear Hload. simpl.
    exists new. split.
    + rewrite saved_snapshots_app. simpl. now rewrite app_nil_r.
    + destruct Hcase as [[-> Hfile] | (new' & q' & -> & Hfile & Hacc)].
      * left. split; [reflexivity | symmetry; exact Hfile].
      * right. exists new', q'. split; [reflexivity|]. split; [|exact Hacc].
        symmetry in Hfile. inversion Hfile. reflexivity.
Qed.

(** Scenario D of the design document on the small model: the validation
    accuracies of the three epochs are 0.70, 0.65 and 0.80, checkpoints are
    saved after epochs 1 and 3 only, and the phase ends with the parameters
    of epoch 3. *)
Lemma fine_tuning_checkpoint_policy_witness :
  let st0 := Toy.state0 0 None in
  let run := Toy.phase1_epochs st0 in
  let accuracy := dev_accuracy Toy.E Toy.sentences_dev Toy.labels_dev in
  (0 < len Toy.sentences_dev)%Z /\
  map (fun k => accuracy (params (snd (run k)))) [1; 2; 3]
  = [Toy.f0_7; Toy.f0_65; Toy.f0_8] /\
  map (fun k => saved_snapshots Toy.E (trace (snd (run k)))) [1; 2; 3]
  = [[(Toy.path, {| kernel := 1%Z; classifiers := [0; 0; 1]%Z |})];
     [(Toy.path, {| kernel := 1%Z; classifiers := [0; 0; 1]%Z |})];
     [(Toy.path, {| kernel := 1%Z; classifiers := [0; 0; 1]%Z |});
      (Toy.path, {| kernel := 3%Z; classifiers := [0; 0; 3]%Z |})]] /\
  (let done := Toy.phase1 Toy.sentences_dev 3 st0 in
   fst done = Ok tt /\
   params (snd done) = {| kernel := 3%Z; classifiers := [0; 0; 3]%Z |}) /\
  (forall u st_end,
     _fine_tuning_backbone Toy.E Toy.sentences_train Toy.labels_train
       Toy.sentences_dev Toy.labels_dev 2%Z f2em5 3%Z f0_1 100%Z Toy.path
       st0 = (Ok u, st_end) ->
     exists new,
       saved_snapshots Toy.E (trace st_end)
       = saved_snapshots Toy.E (trace st0) ++ new /\
       ((new = [] /\ files st0 Toy.path = Some (params st_end)) \/
        (exists new' q,
           new = new' ++ [(Toy.path, q)] /\
           params st_end = q /\
           accuracy q
           = best_so_far Toy.E Toy.sentences_train Toy.labels_train
               Toy.sentences_dev Toy.labels_dev 2%Z f2em5 3%Z f0_1 100%Z
               Toy.path st0 (Z.to_nat 3)))).
Proof.
  intros st0 run accuracy.
  split; [reflexivity|].
  split; [vm_compute; reflexivity|].
  split; [vm_compute; reflexivity|].
  split; [vm_compute; split; reflexivity|].
  apply (fine_tuning_checkpoint_policy Toy.E Toy.sentences_train
           Toy.labels_train Toy.sentences_dev Toy.labels_dev 2%Z f2em5 3%Z
           f0_1 100%Z Toy.path st0).
  reflexivity.
Defined.

(** C8.  The reload of phase 1 on the small model started with kernel 5
    and a snapshot of an earlier run at the path.  The validation
    accuracies of the three epochs are 0.0, 0.0 and 0.0: none exceeds the
    initial best accuracy 0.0 and no checkpoint is saved.  The final
    [load_model] still runs: the phase returns with the parameters of the
    earlier run's snapshot, not with those of any of its epochs, and
    without a file at the path it raises [FileNotFoundError]. *)
Theorem fine_tuning_reloads_a_checkpoint_it_never_saved :
  let st0 := Toy.state0 5 (Some Toy.stale) in
  let accuracy := dev_accuracy Toy.E Toy.sentences_dev Toy.labels_dev in
  let epochs := Toy.phase1_epochs st0 in
  let done := Toy.phase1 Toy.sentences_dev 3 st0 in
  map (fun k => accuracy (params (snd (epochs k)))) [1; 2; 3]
  = [f0_0; f0_0; f0_0] /\
  map (fun k => params (snd (epochs k))) [1; 2; 3]
  = [{| kernel := 6%Z; classifiers := [0; 0; 1]%Z |};
     {| kernel := 7%Z; classifiers := [0; 0; 2]%Z |};
     {| kernel := 8%Z; classifiers := [0; 0; 3]%Z |}] /\
  saved_snapshots Toy.E (trace (snd done)) = [] /\
  fst done = Ok tt /\
  params (snd done) = Toy.stale /\
  Toy.stale = {| kernel := 7%Z; classifiers := [5; 5; 5]%Z |} /\
  fst (Toy.phase1 Toy.sentences_dev 3 (Toy.state0 5 None))
  = Raise FileNotFoundError.
Proof.
  intros st0 accuracy epochs done.
  split; [vm_compute; reflexivity|].
  split; [vm_compute; reflexivity|].
  split; [vm_compute; reflexivity|].
  split; [vm_compute; reflexivity|].
  split; [vm_compute; reflexivity|].
  split; [reflexivity|].
  vm_compute. reflexivity.
Qed.

(** ** The student heads in phase 1 *)

Lemma length_list_set {A} (l : list A) (i : nat) (x : A) :
  length (list_set l i x) = length l.
Proof.
  revert i. induction l as [|y l IH]; intros [|i]; simpl; auto.
Qed.

Lemma nth_error_list_set_other {A} (l : list A) (i j : nat) (x : A) :
  i <> j -> nth_error (list_set l i x) j = nth_error l j.
Proof.
  revert i j. induction l as [|y l IH]; intros [|i] [|j] Hne; simpl; auto.
  - congruence.
Qed.

Lemma index_last_list_set {A} (l : list A) (i : nat) (x : A) :
  i + 1 < length l -> index_last (list_set l i x) = index_last l.
Proof.
  intros Hi. rewrite !index_last_nth, length_list_set.
  rewrite nth_error_list_set_other by lia. reflexivity.
Qed.

Section StudentFacts.
Context (E : Env).

(** The supervised loss does not read the student heads. *)
Lemma supervised_loss_ignores_students (pc p : ParamsOf E) (i : nat)
    (h : HeadW E) (ss : list string) (ls : list label) :
  i + 1 < length (classifiers p) ->
  _forward_for_loss E pc (set_head p i h) ss (Some ls)
  = _forward_for_loss E pc p ss (Some ls).
Proof.
  intros Hi. unfold _forward_for_loss. simpl.
  now rewrite index_last_list_set.
Qed.

Context (p0 : ParamsOf E) (files0 : string -> option (ParamsOf E)).
Context (saved0 : list (string * ParamsOf E)) (path : string).

Let Inv := students_invariant E p0 files0 saved0 path.
Let R := fun st st' : State E => Inv st -> Inv st'.

Lemma students_step_refl (st : State E) : R st st.
Proof. unfold R. auto. Qed.

Lemma students_step_trans (a b c : State E) : R a b -> R b c -> R a c.
Proof. unfold R. auto. Qed.

(** A step that writes no checkpoint keeps the invariant as soon as it
    keeps the students and their absence of gradient. *)
Lemma invariant_frame (st st' : State E) :
  saved_snapshots E (trace st') = saved_snapshots E (trace st) ->
  files st' = files st ->
  (same_students p0 (params st) -> students_grad_free p0 (grads st) ->
   same_students p0 (params st') /\ students_grad_free p0 (grads st')) ->
  R st st'.
Proof.
  intros Hs Hf Hkeep (Hp & Hg & new & Hnew & Hall & Hnil & Hcons).
  destruct (Hkeep Hp Hg) as [Hp' Hg'].
  split; [assumption|]. split; [assumption|].
  exists new. rewrite Hs, Hf. auto.
Qed.

Lemma silent_invariant {A} (c : M E A) :
  respects silent c ->
  (forall st, params (snd (c st)) = params st /\
              grads (snd (c st)) = grads st) ->
  respects R c.
Proof.
  intros Hsil Hsame st. destruct (Hsil st) as [Ht Hf].
  destruct (Hsame st) as [Hp Hg].
  apply invariant_frame.
  - now rewrite Ht.
  - assumption.
  - rewrite Hp, Hg. auto.
Qed.

Lemma do_shuffle_pairs_invariant (ss : list string) (ls : list label) :
  respects R (do_shuffle_pairs E ss ls).
Proof.
  apply silent_invariant; [apply do_shuffle_pairs_silent|].
  intros st. unfold do_shuffle_pairs.
  destruct (shuffle_pairs E (rng st) ss ls) as [[ss' ls'] g]. now split.
Qed.

Lemma evaluate_invariant (ss : list string) (ls : list label)
    (speed : float) :
  respects R (evaluate E ss ls speed).
Proof.
  intros st.
  destruct (evaluate_keeps_checkpoints E ss ls speed st) as [Hs Hf].
  destruct (evaluate_effect E ss ls speed st) as (_ & Hp & Hg & _).
  apply invariant_frame; try assumption.
  rewrite Hp, Hg. auto.
Qed.

Lemma training_setup_invariant (n batch_size : Z) (lr : float)
    (epochs_num : Z) (warmup : float) :
  respects R (training_setup E n batch_size lr epochs_num warmup).
Proof.
  intros st.
  destruct (training_setup_keeps_checkpoints E n batch_size lr epochs_num
              warmup st) as [Hs Hf].
  apply invariant_frame; try assumption.
  unfold training_setup, mbind, lift, new_AdamW, log, ret.
  destruct (truediv (n * epochs_num) batch_size); [|now auto].
  destruct (int_of_float _); [|now auto].
  destruct (floordiv n batch_size); now auto.
Qed.

(** Saving writes the parameters in memory, whose students are the
    initial ones. *)
Lemma save_model_invariant : respects R (save_model E path).
Proof.
  intros st. unfold R, Inv, students_invariant.
  intros (Hp & Hg & new & Hnew & Hall & Hnil & Hcons). simpl.
  split; [assumption|]. split; [assumption|].
  exists (new ++ [(path, params st)]).
  split; [|split; [|split]].
  - rewrite saved_snapshots_app, Hnew, app_assoc. reflexivity.
  - apply Forall_app. split; [assumption|].
    constructor; [exact Hp | constructor].
  - intros Hempty. now apply app_eq_nil in Hempty as [_ Hempty].
  - intros _. exists (params st). rewrite String.eqb_refl. now split.
Qed.

(** One training step of phase 1: the loss does not depend on a student
    head, so [backward] gives it no gradient and the optimizer leaves it
    alone. *)
Lemma train_step_invariant (Hag : AutogradContract E) (ss : list string)
    (ls : list label) (batch_size report_steps : Z) (step : nat)
    (o : Optim E) :
  respects R (train_step E ss (Some ls) batch_size report_steps step o).
Proof.
  intros st.
  destruct (train_step_silent E ss (Some ls) batch_size report_steps step o
              st) as [Ht Hf].
  apply invariant_frame; [now rewrite Ht | assumption |].
  intros [Hlen Hp] Hg.
  assert (Hzero : students_grad_free p0 (zero_grad E (grads st))).
  { intros i Hi. apply (ag_zero_grad E Hag). now apply Hg. }
  unfold train_step, mbind, update_grads, get_params, lift.
  cbn [params grads files rng trace fst snd option_map].
  set (sb := slice ss _ _). set (lb := slice ls _ _).
  destruct (_forward_for_loss E (params st) (params st) sb (Some lb))
    as [loss|e]; [|simpl; repeat split; assumption].
  destruct (loss_item E loss) as [x|e]; [|simpl; repeat split; assumption].
  destruct (pymod (Z.of_nat step + 1) report_steps) as [m|e];
    [|simpl; repeat split; assumption].
  unfold apply_optimizer. cbn [params grads files rng trace fst snd].
  set (g' := backward E _ (params st) (zero_grad E (grads st))).
  pose proof (ag_step_length E Hag o g' (params st)) as Hlen'.
  pose proof (ag_step_frame E Hag o g' (params st)) as Hframe.
  assert (Hg' : students_grad_free p0 g').
  { intros i Hi. unfold no_grad_at, g'.
    rewrite (ag_backward E Hag).
    - now apply Hzero.
    - intros h. rewrite supervised_loss_ignores_students; [reflexivity|].
      rewrite Hlen. exact Hi. }
  destruct (optimizer_step E o g' (params st)) as [p' o']. simpl in *.
  repeat split.
  - congruence.
  - intros i Hi. rewrite Hframe; [now apply Hp | now apply Hg'].
  - exact Hg'.
Qed.

(** An epoch of phase 1 keeps the invariant. *)
Lemma fine_tuning_epoch_invariant (Hag : AutogradContract E)
    (sd : list string) (ld : list label) (batch_size report_steps : Z)
    (steps_num : Z) (epoch : nat) (v : FineTuneVars E) :
  respects R
    (fine_tuning_epoch E sd ld batch_size report_steps path steps_num
       epoch v).
Proof.
  unfold fine_tuning_epoch.
  frame students_step_refl students_step_trans;
    try apply evaluate_invariant;
    try apply save_model_invariant;
    try apply do_shuffle_pairs_invariant.
  apply (respects_mfor _ students_step_refl students_step_trans).
  intros. now apply train_step_invariant.
Qed.

(** So does the loop over the epochs, with its setup. *)
Lemma fine_tuning_epochs_invariant (Hag : AutogradContract E)
    (ss : list string) (ls : list label) (sd : list string)
    (ld : list label) (batch_size : Z) (lr : float) (epochs_num : Z)
    (warmup : float) (report_steps : Z) (epochs : list nat) :
  respects R
    (fine_tuning_epochs E ss ls sd ld batch_size lr epochs_num warmup
       report_steps path epochs).
Proof.
  unfold fine_tuning_epochs.
  frame students_step_refl students_step_trans.
  - apply training_setup_invariant.
  - apply (respects_mfor _ students_step_refl students_step_trans).
    intros. now apply fine_tuning_epoch_invariant.
Qed.

End StudentFacts.

(** The student heads up to the reload.  Under the contracts of autograd
    and of the optimizer, and starting with no gradient on the student
    heads, phase 1 changes no student head in memory up to its final
    reload, and every checkpoint it saves holds the initial student heads.
    So after the phase the student heads are the initial ones whenever a
    checkpoint was saved or the phase raised; a phase that returns without
    having saved any ends with the parameters of the file that was already
    at the path. *)
Theorem student_heads_after_fine_tuning (E : Env)
    (sentences_train : list string) (labels_train : list label)
    (sentences_dev : list string) (labels_dev : list label)
    (batch_size : Z) (learning_rate : float) (epochs_num : Z)
    (warmup : float) (report_steps : Z) (model_saving_path : string)
    (st0 : State E) :
  AutogradContract E ->
  students_grad_free (params st0) (grads st0) ->
  let run := _fine_tuning_backbone E sentences_train labels_train
               sentences_dev labels_dev batch_size learning_rate epochs_num
               warmup report_steps model_saving_path st0 in
  exists new,
    saved_snapshots E (trace (snd run))
    = saved_snapshots E (trace st0) ++ new /\
    Forall (fun s => same_students (params st0) (snd s)) new /\
    (new <> [] \/ is_ok (fst run) = false ->
     same_students (params st0) (params (snd run))) /\
    (new = [] -> is_ok (fst run) = true ->
     files st0 model_saving_path = Some (params (snd run))).
Proof.
  intros Hag Hfree run. subst run.
  pose proof (fine_tuning_epochs_invariant E (params st0) (files st0)
                (saved_snapshots E (trace st0)) model_saving_path Hag
                sentences_train labels_train sentences_dev labels_dev
                batch_size learning_rate epochs_num warmup report_steps
                (range epochs_num) st0) as Hinv.
  assert (Hinit : students_invariant E (params st0) (files st0)
                    (saved_snapshots E (trace st0)) model_saving_path st0).
  { split; [now split|]. split; [assumption|].
    exists []. rewrite app_nil_r. repeat split; auto. congruence. }
  specialize (Hinv Hinit). clear Hinit.
  unfold _fine_tuning_backbone, mbind.
  destruct (fine_tuning_epochs E _ _ _ _ _ _ _ _ _ _ _ st0) as [[v|e] st1].
  - simpl in Hinv.
    destruct Hinv as (Hp & Hg & new & Hnew & Hall & Hnil & Hcons).
    unfold load_model.
    destruct (files st1 model_saving_path) as [q|] eqn:Hq; simpl.
    + exists new. split; [|split; [|split]].
      * rewrite saved_snapshots_app, Hnew. simpl. now rewrite app_nil_r.
      * assumption.
      * intros [Hne | Hno]; [|discriminate Hno].
        destruct (Hcons Hne) as (q' & Hq' & Hsame).
        inversion Hq'; subst. exact Hsame.
      * intros Hempty _. symmetry. exact (Hnil Hempty).
    + exists new. split; [|split; [|split]]; try assumption.
      * intros _. exact Hp.
      * intros _ Hok. discriminate Hok.
  - simpl in *.
    destruct Hinv as (Hp & Hg & new & Hnew & Hall & Hnil & Hcons).
    exists new. split; [|split; [|split]]; try assumption.
    + intros _. exact Hp.
    + intros _ Hok. discriminate Hok.
Qed.

(** The small model meets the contracts of autograd and of the
    optimizer. *)
Lemma nth_error_mapi_from {A B} (F : nat -> A -> B) (l : list A)
    (s i : nat) :
  nth_error (Toy.mapi_from s F l) i = option_map (F (s + i)) (nth_error l i).
Proof.
  revert s i. induction l as [|x l IH]; intros s [|i]; simpl; auto.
  - now rewrite Nat.add_0_r.
  - rewrite IH. now replace (S s + i) with (s + S i) by lia.
Qed.

Lemma nth_option_nth_error {A} (l : list (option A)) (i : nat) :
  nth i l None = match nth_error l i with Some x => x | None => None end.
Proof.
  revert i. induction l as [|x l IH]; intros [|i]; simpl; auto.
Qed.

Lemma opt_eqb_refl (a : option (list Z)) : Toy.opt_eqb a a = true.
Proof.
  destruct a as [x|]; simpl; [|reflexivity].
  destruct (list_eq_dec Z.eq_dec x x); congruence.
Defined.

Lemma toy_backward_frame (f : Params Z Z -> option (list Z))
    (p : Params Z Z) (g : Grads unit) (i : nat) :
  (forall h, f (set_head p i h) = f p) ->
  nth i (classifier_grads (Toy.toy_backward f p g)) None
  = nth i (classifier_grads g) None.
Proof.
  intros Hindep. unfold Toy.toy_backward. simpl.
  rewrite !nth_option_nth_error, nth_error_mapi_from.
  destruct (nth_error (classifier_grads g) i) as [x|]; simpl;
    [|reflexivity].
  now rewrite Hindep, opt_eqb_refl.
Defined.

Lemma toy_zero_grad_none (g : Grads unit) (i : nat) :
  nth i (classifier_grads (Toy.toy_zero_grad g)) None = None.
Proof.
  unfold Toy.toy_zero_grad. simpl.
  rewrite nth_option_nth_error, nth_error_map.
  now destruct (nth_error (classifier_grads g) i).
Defined.

Lemma toy_step_frame (o : float) (g : Grads unit) (p : Params Z Z)
    (i : nat) :
  nth i (classifier_grads g) None = None ->
  nth_error (classifiers (fst (Toy.toy_step o g p))) i
  = nth_error (classifiers p) i.
Proof.
  intros Hno. unfold Toy.toy_step. simpl.
  rewrite nth_error_mapi_from. simpl. rewrite Hno.
  now destruct (nth_error (classifiers p) i).
Defined.

Lemma toy_step_length (o : float) (g : Grads unit) (p : Params Z Z) :
  length (classifiers (fst (Toy.toy_step o g p))) = length (classifiers p).
Proof.
  unfold Toy.toy_step. simpl.
  generalize 0. induction (classifiers p) as [|h l IH]; intros s; simpl;
    [reflexivity|]. now rewrite IH.
Defined.

Lemma toy_autograd_contract (ls : list label) :
  AutogradContract (Toy.env ls).
Proof.
  split.
  - intros f p g i Hindep. now apply toy_backward_frame.
  - intros g i _. apply toy_zero_grad_none.
  - intros o g p i Hno. now apply toy_step_frame.
  - intros o g p. apply toy_step_length.
Defined.

Lemma toy_students_grad_free (k : Z) (stored : option (ParamsOf Toy.E)) :
  students_grad_free (params (Toy.state0 k stored))
                     (grads (Toy.state0 k stored)).
Proof.
  intros i _. unfold no_grad_at. simpl.
  destruct i as [|[|[|[|i]]]]; reflexivity.
Defined.

(** C9.  Phase 1 on the small model started with kernel 5, student heads
    [0; 0], no gradient on them, and a snapshot of an earlier run at the
    path.  The three epochs leave the student heads at [0; 0] (only the
    kernel and the last head are trained), but no epoch reaches a
    validation accuracy above 0.0, so no checkpoint is saved, and the final
    [load_model] replaces the student heads by those of the earlier
    snapshot, [5; 5]. *)
Theorem student_heads_replaced_by_stale_checkpoint :
  let st0 := Toy.state0 5 (Some Toy.stale) in
  let run := Toy.phase1 Toy.sentences_dev 3 st0 in
  AutogradContract Toy.E /\
  students_grad_free (params st0) (grads st0) /\
  classifiers (params st0) = [0; 0; 0]%Z /\
  map (fun k => classifiers (params (snd (Toy.phase1_epochs st0 k))))
      [1; 2; 3]
  = [[0; 0; 1]; [0; 0; 2]; [0; 0; 3]]%Z /\
  saved_snapshots Toy.E (trace (snd run)) = [] /\
  fst run = Ok tt /\
  classifiers (params (snd run)) = [5; 5; 5]%Z /\
  ~ same_students (params st0) (params (snd run)).
Proof.
  intros st0 run.
  split; [apply toy_autograd_contract|].
  split; [apply toy_students_grad_free|].
  split; [reflexivity|].
  split; [vm_compute; reflexivity|].
  split; [vm_compute; reflexivity|].
  assert (Hrun : fst run = Ok tt /\
                 classifiers (params (snd run)) = [5; 5; 5]%Z)
    by (vm_compute; split; reflexivity).
  destruct Hrun as [Hok Hcls].
  split; [assumption|]. split; [assumption|].
  intros [_ Hsame]. specialize (Hsame 0 ltac:(simpl; lia)).
  rewrite Hcls in Hsame. discriminate Hsame.
Qed.

Lemma student_heads_after_fine_tuning_witness :
  let st0 := Toy.state0 0 None in
  let run := _fine_tuning_backbone Toy.E Toy.sentences_train
               Toy.labels_train Toy.sentences_dev Toy.labels_dev 2%Z f2em5
               3%Z f0_1 100%Z Toy.path st0 in
  (fst run = Ok tt /\
   classifiers (params st0) = [0; 0; 0]%Z /\
   classifiers (params (snd run)) = [0; 0; 3]%Z) /\
  exists new,
    saved_snapshots Toy.E (trace (snd run))
    = saved_snapshots Toy.E (trace st0) ++ new /\
    Forall (fun s => same_students (params st0) (snd s)) new /\
    (new <> [] \/ is_ok (fst run) = false ->
     same_students (params st0) (params (snd run))) /\
    (new = [] -> is_ok (fst run) = true ->
     files st0 Toy.path = Some (params (snd run))).
Proof.
  intros st0 run.
  split; [vm_compute; repeat split|].
  apply (student_heads_after_fine_tuning Toy.E Toy.sentences_train
           Toy.labels_train Toy.sentences_dev Toy.labels_dev 2%Z f2em5 3%Z
           f0_1 100%Z Toy.path st0).
  - apply toy_autograd_contract.
  - apply toy_students_grad_free.
Defined.

(** * Further properties *)

(** ** Token conversion for every sequence length *)

Lemma clamp_le (n i : Z) : (0 <= n)%Z -> clamp n i <= Z.to_nat n.
Proof.
  intros Hn. unfold clamp. destruct (i <? 0)%Z eqn:Hi.
  - apply Z.ltb_lt in Hi. lia.
  - lia.
Qed.

Lemma firstn_repeat_min {A} (x : A) (n m : nat) :
  firstn n (repeat x m) = repeat x (Nat.min n m).
Proof.
  revert m. induction n as [|n IH]; intros [|m]; simpl; auto.
  now rewrite IH.
Qed.

(** X1.  Whatever the sequence length, positive or not, the ids are a
    prefix of the real tokens followed by pad ids, and the mask is 1 on
    that prefix and 0 on the pads; padding happens only when every real
    token was kept.  In particular ids and mask have the same length. *)
Theorem convert_prefix_then_padding (T : Text) (sentence : string) :
  let toks := real_tokens T sentence in
  exists a b,
    a <= length toks /\
    (b = 0 \/ a = length toks) /\
    fst (_convert_to_id_and_mask T sentence)
    = firstn a toks ++ repeat (pad_id T) b /\
    snd (_convert_to_id_and_mask T sentence)
    = repeat 1%Z a ++ repeat 0%Z b.
Proof.
  intros toks. unfold _convert_to_id_and_mask.
  change ([cls_id T] ++ map (vocab_get T) (tokenize T sentence)) with toks.
  assert (Hm : len (replicate 1%Z (len toks)) = len toks).
  { unfold replicate, len. rewrite repeat_length. now rewrite Nat2Z.id. }
  destruct (seq_length T <=? len toks)%Z.
  - exists (clamp (len toks) (seq_length T)), 0. simpl.
    pose proof (clamp_le (len toks) (seq_length T) (len_nonneg toks)) as Hle.
    unfold len in Hle at 2. rewrite Nat2Z.id in Hle.
    repeat split; auto.
    + unfold slice_to. now rewrite app_nil_r.
    + unfold slice_to. rewrite Hm, app_nil_r. unfold replicate.
      rewrite firstn_repeat_min. f_equal. unfold len in *. lia.
  - exists (length toks), (Z.to_nat (seq_length T - len toks)). simpl.
    repeat split; auto.
    + now rewrite firstn_all.
    + unfold replicate, len. now rewrite Nat2Z.id.
Qed.

(** X2.  A sequence length of zero or less is not refused: the slice
    [ids[:seq_length]] then drops the last [-seq_length] real tokens, so
    the result has [len(tokens) + seq_length] entries (none when that is
    negative or when the length is 0), not [seq_length], and no padding. *)
Theorem convert_nonpositive_seq_length (T : Text) (sentence : string) :
  (seq_length T <= 0)%Z ->
  let toks := real_tokens T sentence in
  let k := if (seq_length T <? 0)%Z
           then Z.to_nat (len toks + seq_length T) else 0 in
  _convert_to_id_and_mask T sentence = (firstn k toks, repeat 1%Z k).
Proof.
  intros Hneg toks k. unfold _convert_to_id_and_mask.
  change ([cls_id T] ++ map (vocab_get T) (tokenize T sentence)) with toks.
  assert (Hm : len (replicate 1%Z (len toks)) = len toks).
  { unfold replicate, len. rewrite repeat_length. now rewrite Nat2Z.id. }
  assert (Hle : (seq_length T <=? len toks)%Z = true).
  { apply Z.leb_le. pose proof (len_nonneg toks). lia. }
  rewrite Hle. unfold slice_to. rewrite Hm.
  assert (Hk : clamp (len toks) (seq_length T) = k).
  { unfold clamp, k. destruct (seq_length T <? 0)%Z eqn:Hlt.
    - apply Z.ltb_lt in Hlt. lia.
    - apply Z.ltb_ge in Hlt. pose proof (len_nonneg toks). lia. }
  rewrite Hk. f_equal. unfold replicate.
  rewrite firstn_repeat_min. f_equal.
  unfold k, len. destruct (seq_length T <? 0)%Z eqn:Hlt; [|lia].
  apply Z.ltb_lt in Hlt. lia.
Qed.

Lemma convert_nonpositive_seq_length_witness :
  (seq_length Toy.text_negative <= 0)%Z /\
  _convert_to_id_and_mask Toy.text_negative "abc"
  = ([101; 97; 98]%Z, [1; 1; 1]%Z) /\
  _convert_to_id_and_mask Toy.text_negative "abc"
  = (firstn 3 (real_tokens Toy.text_negative "abc"), repeat 1%Z 3).
Proof.
  split; [simpl; lia|]. split; [reflexivity|].
  apply (convert_nonpositive_seq_length Toy.text_negative "abc").
  simpl. lia.
Defined.

(** X3.  What a sentence holds beyond the first [seq_length] real tokens
    never reaches the model: two sentences that agree on them get the same
    answer from [_fast_infer], label and layer count, at every speed. *)
Theorem fast_infer_ignores_truncated_tokens (E : Env) (p : ParamsOf E)
    (s1 s2 : string) (speed : float) :
  let n := Z.to_nat (seq_length (text E)) in
  (0 <= seq_length (text E) <= len (real_tokens (text E) s1))%Z ->
  (seq_length (text E) <= len (real_tokens (text E) s2))%Z ->
  firstn n (real_tokens (text E) s1) = firstn n (real_tokens (text E) s2) ->
  _fast_infer E p s1 speed = _fast_infer E p s2 speed.
Proof.
  intros n H1 H2 Heq.
  unfold _fast_infer.
  rewrite (convert_truncates (text E) s1) by lia.
  rewrite (convert_truncates (text E) s2) by lia.
  fold n. now rewrite Heq.
Qed.

Lemma fast_infer_ignores_truncated_tokens_witness :
  _fast_infer Toy.E (Toy.params0 1) "abcde" f0_5
  = _fast_infer Toy.E (Toy.params0 1) "abcxyz" f0_5 /\
  _fast_infer Toy.E (Toy.params0 1) "abcde" f0_5 = Ok (LStr "pos", 2).
Proof.
  split; [|reflexivity].
  apply (fast_infer_ignores_truncated_tokens Toy.E (Toy.params0 1)
           "abcde" "abcxyz" f0_5).
  - simpl. unfold len. simpl. lia.
  - simpl. unfold len. simpl. lia.
  - reflexivity.
Defined.

(** ** The early-exit rule *)

Section ExitRule.
Context (E : Env).

(** Whatever the cascade, a loop that returns has left by [break] only at
    one of its layers, and has bound [probs] as soon as it ran a layer. *)
Lemma infer_loop_bounds (p : ParamsOf E) (mask : Tensor E) (speed : float)
    (n : nat) :
  forall (i : nat) (hidden : Tensor E) (probs pr : option (Tensor E))
         (ex : option nat),
    infer_loop E p mask speed (seq i n) hidden probs = Ok (pr, ex) ->
    (forall m, ex = Some m -> i + 1 <= m <= i + n) /\
    (n = 0 -> pr = probs).
Proof.
  induction n as [|n IH]; intros i hidden probs pr ex H.
  - simpl in H. inversion H; subst. split; [discriminate | reflexivity].
  - change (seq i (S n)) with (i :: seq (S i) n) in H. simpl in H.
    destruct (index (classifiers p) i) as [head|e]; simpl in H;
      [|discriminate].
    destruct (flt _ speed).
    + inversion H; subst. split; [|discriminate].
      intros m Hm. inversion Hm. lia.
    + apply IH in H as [Hex _]. split; [|discriminate].
      intros m Hm. specialize (Hex m Hm). lia.
Qed.

Lemma hidden_after_succ (p : ParamsOf E) (sentence : string) (i : nat) :
  hidden_after E p sentence (S i)
  = transformer E false (kernel p) i (hidden_after E p sentence i)
      (sentence_mask E sentence).
Proof.
  unfold hidden_after. rewrite seq_S, fold_left_app. reflexivity.
Qed.

(** One pass of the loop at layer [i], read on [layer_probs]. *)
Lemma infer_loop_layer (p : ParamsOf E) (sentence : string) (speed : float)
    (i : nat) (layers : list nat) (probs : option (Tensor E))
    (pr : Tensor E) :
  layer_probs E p sentence i = Some pr ->
  infer_loop E p (sentence_mask E sentence) speed (i :: layers)
    (hidden_after E p sentence i) probs
  = if flt (item E (calc_uncertainty E pr (labels_num E))) speed
    then Ok (Some pr, Some (i + 1))
    else infer_loop E p (sentence_mask E sentence) speed layers
           (hidden_after E p sentence (S i)) (Some pr).
Proof.
  unfold layer_probs. intros Hpr.
  destruct (nth_error (classifiers p) i) as [head|] eqn:Hhead;
    [|discriminate].
  simpl in Hpr. inversion Hpr; subst pr. clear Hpr.
  rewrite (infer_loop_cons E p _ speed i layers _ probs head Hhead).
  cbv zeta. now rewrite <- hidden_after_succ.
Qed.

(** The loop leaves at the first layer whose uncertainty is below the
    speed. *)
Lemma infer_loop_first_exit (p : ParamsOf E) (sentence : string)
    (speed : float) (i : nat) (pr : Tensor E) :
  layer_probs E p sentence i = Some pr ->
  flt (item E (calc_uncertainty E pr (labels_num E))) speed = true ->
  forall (n a : nat) (probs : option (Tensor E)),
    a <= i < a + n ->
    (forall j, a <= j < i ->
       exists u, layer_uncertainty E p sentence j = Some u /\
                 flt u speed = false) ->
    infer_loop E p (sentence_mask E sentence) speed (seq a n)
      (hidden_after E p sentence a) probs
    = Ok (Some pr, Some (i + 1)).
Proof.
  intros Hpr Hlt. induction n as [|n IH]; intros a probs Ha Hbefore; [lia|].
  change (seq a (S n)) with (a :: seq (S a) n).
  destruct (Nat.eq_dec a i) as [-> | Hne].
  - rewrite (infer_loop_layer p sentence speed i _ probs pr Hpr).
    now rewrite Hlt.
  - destruct (Hbefore a ltac:(lia)) as (u & Hu & Hge).
    unfold layer_uncertainty in Hu.
    destruct (layer_probs E p sentence a) as [pa|] eqn:Hpa; [|discriminate].
    simpl in Hu. inversion Hu; subst u. clear Hu.
    rewrite (infer_loop_layer p sentence speed a _ probs pa Hpa), Hge.
    apply IH; [lia|]. intros j Hj. apply Hbefore. lia.
Qed.

(** The loop runs to its end when no layer's uncertainty is below the
    speed. *)
Lemma infer_loop_no_exit (p : ParamsOf E) (sentence : string)
    (speed : float) :
  forall (n a : nat) (probs : option (Tensor E)),
    (forall j, a <= j < a + n ->
       exists u, layer_uncertainty E p sentence j = Some u /\
                 flt u speed = false) ->
    infer_loop E p (sentence_mask E sentence) speed (seq a n)
      (hidden_after E p sentence a) probs
    = Ok (match n with
          | O => probs
          | S n' => layer_probs E p sentence (a + n')
          end, None).
Proof.
  induction n as [|n IH]; intros a probs Hall; [reflexivity|].
  change (seq a (S n)) with (a :: seq (S a) n).
  destruct (Hall a ltac:(lia)) as (u & Hu & Hge).
  unfold layer_uncertainty in Hu.
  destruct (layer_probs E p sentence a) as [pa|] eqn:Hpa; [|discriminate].
  simpl in Hu. inversion Hu; subst u. clear Hu.
  rewrite (infer_loop_layer p sentence speed a _ probs pa Hpa), Hge.
  rewrite IH by (intros j Hj; apply Hall; lia).
  destruct n as [|n'].
  - now rewrite Nat.add_0_r, Hpa.
  - now replace (S a + n') with (a + S n') by lia.
Qed.

End ExitRule.

(** A layer count that [_fast_infer] returns lies between 1 and the number
    of layers. *)
Lemma fast_infer_result_bounds (E : Env) (p : ParamsOf E)
    (sentence : string) (speed : float) (lbl : label) (n : nat) :
  _fast_infer E p sentence speed = Ok (lbl, n) -> 1 <= n <= layers_num E.
Proof.
  intros H. rewrite fast_infer_unfold in H.
  destruct (infer_loop E p _ speed _ _ None) as [[pr ex]|e] eqn:Hloop;
    simpl in H; [|discriminate].
  apply infer_loop_bounds in Hloop as [Hex Hzero].
  destruct pr as [t|]; [|discriminate].
  destruct (get Z.eqb (id2label E) _) as [l|e]; simpl in H; [|discriminate].
  inversion H; subst. destruct ex as [m|]; simpl.
  - specialize (Hex m eq_refl). lia.
  - destruct (layers_num E) as [|k]; [|lia].
    specialize (Hzero eq_refl). discriminate.
Qed.

(** X4.  Whenever [_fast_infer] returns, the label is one of the labels
    the model was built with and the layer count lies between 1 and the
    number of layers of the backbone. *)
Theorem fast_infer_result_in_range (E : Env) (p : ParamsOf E)
    (sentence : string) (speed : float) (lbl : label) (n : nat) :
  _fast_infer E p sentence speed = Ok (lbl, n) ->
  In lbl (labels E) /\ 1 <= n <= layers_num E.
Proof.
  intros H. split; [now apply (fast_infer_label E p sentence speed lbl n)|].
  rewrite fast_infer_unfold in H.
  destruct (infer_loop E p _ speed _ _ None) as [[pr ex]|e] eqn:Hloop;
    simpl in H; [|discriminate].
  apply infer_loop_bounds in Hloop as [Hex Hzero].
  destruct pr as [t|]; [|discriminate].
  destruct (get Z.eqb (id2label E) _) as [l|e]; simpl in H; [|discriminate].
  inversion H; subst. destruct ex as [m|]; simpl.
  - specialize (Hex m eq_refl). lia.
  - destruct (layers_num E) as [|k]; [|lia].
    specialize (Hzero eq_refl). discriminate.
Qed.

Lemma fast_infer_result_in_range_witness :
  _fast_infer Toy.E (Toy.params0 1) "u" f0_5 = Ok (LStr "neg", 2) /\
  In (LStr "neg") (labels Toy.E) /\ 1 <= 2 <= layers_num Toy.E.
Proof.
  split; [reflexivity|].
  apply (fast_infer_result_in_range Toy.E (Toy.params0 1) "u" f0_5).
  reflexivity.
Defined.

(** X5.  The decision rule: if the uncertainty of layer [i] is below the
    speed and that of no earlier layer is, [_fast_infer] stops there; it
    returns [i + 1] layers and the label of the arg-max of the
    probabilities of head [i], or raises [KeyError] when that arg-max is no
    key of [id2label]. *)
Theorem fast_infer_exits_at_first_confident_layer (E : Env)
    (p : ParamsOf E) (sentence : string) (speed : float) (i : nat)
    (probs : Tensor E) :
  i < layers_num E ->
  layer_probs E p sentence i = Some probs ->
  flt (item E (calc_uncertainty E probs (labels_num E))) speed = true ->
  (forall j, j < i ->
     exists u, layer_uncertainty E p sentence j = Some u /\
               flt u speed = false) ->
  _fast_infer E p sentence speed
  = (lbl <- get Z.eqb (id2label E) (item_int E (argmax E probs)) ;;
     Ok (lbl, i + 1)).
Proof.
  intros Hi Hpr Hlt Hbefore. rewrite fast_infer_unfold.
  change (sentence_embedding E p sentence)
    with (hidden_after E p sentence 0).
  rewrite (infer_loop_first_exit E p sentence speed i probs Hpr Hlt
             (layers_num E) 0 None).
  - reflexivity.
  - lia.
  - intros j Hj. apply Hbefore. lia.
Qed.

Lemma fast_infer_exits_at_first_confident_layer_witness :
  layer_uncertainty Toy.E (Toy.params0 1) "a" 0 = Some Toy.f0_8 /\
  layer_uncertainty Toy.E (Toy.params0 1) "a" 1 = Some Toy.f0_4 /\
  _fast_infer Toy.E (Toy.params0 1) "a" f0_5
  = (lbl <- get Z.eqb (id2label Toy.E)
              (item_int Toy.E (argmax Toy.E [1; 97; 2; 0]%Z)) ;;
     Ok (lbl, 1 + 1)).
Proof.
  split; [reflexivity|]. split; [reflexivity|].
  apply (fast_infer_exits_at_first_confident_layer Toy.E (Toy.params0 1)
           "a" f0_5 1 [1; 97; 2; 0]%Z).
  - simpl. lia.
  - reflexivity.
  - reflexivity.
  - intros j Hj. assert (j = 0) by lia. subst j.
    exists Toy.f0_8. split; reflexivity.
Defined.

(** X6.  At any speed, NaN and negative ones included, at which no
    layer's uncertainty is below the speed, [_fast_infer] runs every layer
    and answers with the last head: the layer count is that of the
    backbone. *)
Theorem fast_infer_full_depth_without_confident_layer (E : Env)
    (p : ParamsOf E) (sentence : string) (speed : float) :
  1 <= layers_num E ->
  (forall j, j < layers_num E ->
     exists u, layer_uncertainty E p sentence j = Some u /\
               flt u speed = false) ->
  exists probs,
    layer_probs E p sentence (layers_num E - 1) = Some probs /\
    _fast_infer E p sentence speed
    = (lbl <- get Z.eqb (id2label E) (item_int E (argmax E probs)) ;;
       Ok (lbl, layers_num E)).
Proof.
  intros Hpos Hall. rewrite fast_infer_unfold.
  change (sentence_embedding E p sentence)
    with (hidden_after E p sentence 0).
  rewrite (infer_loop_no_exit E p sentence speed (layers_num E) 0 None)
    by (intros j Hj; apply Hall; lia).
  destruct (layers_num E) as [|n] eqn:HL; [lia|].
  destruct (Hall n ltac:(lia)) as (u & Hu & _).
  unfold layer_uncertainty in Hu.
  replace (S n - 1) with n by lia. simpl (0 + n).
  destruct (layer_probs E p sentence n) as [pr|]; [|discriminate].
  exists pr. split; reflexivity.
Qed.

Lemma fast_infer_full_depth_without_confident_layer_witness :
  exists probs,
    layer_probs Toy.E (Toy.params0 1) "a" (layers_num Toy.E - 1)
    = Some probs /\
    _fast_infer Toy.E (Toy.params0 1) "a" S754_nan
    = (lbl <- get Z.eqb (id2label Toy.E)
                (item_int Toy.E (argmax Toy.E probs)) ;;
       Ok (lbl, layers_num Toy.E)).
Proof.
  apply (fast_infer_full_depth_without_confident_layer Toy.E
           (Toy.params0 1) "a" S754_nan).
  - simpl. lia.
  - intros j Hj. simpl in Hj.
    destruct j as [|[|[|j]]]; [| | |lia];
      eexists; (split; [reflexivity|reflexivity]).
Defined.

(** ** The label space built by the constructor *)

Lemma get_raises_key_error {Key V} (eqb : Key -> Key -> bool)
    (d : dict Key V) (k : Key) (e : exn) :
  get eqb d k = Raise e -> e = KeyError.
Proof.
  induction d as [|[k' v'] d IH]; simpl.
  - intros H. now inversion H.
  - destruct (eqb k' k); [discriminate | exact IH].
Qed.

Lemma get_missing {Key V} (eqb : Key -> Key -> bool) (d : dict Key V)
    (k : Key) :
  (forall a b, eqb a b = true -> a = b) ->
  ~ In k (map fst d) -> get eqb d k = Raise KeyError.
Proof.
  intros Hspec. induction d as [|[k' v'] d IH]; simpl; intros Hnot.
  - reflexivity.
  - destruct (eqb k' k) eqn:Hk.
    + apply Hspec in Hk. tauto.
    + apply IH. tauto.
Qed.

Lemma get_of_item {Key V} (eqb : Key -> Key -> bool) (d : dict Key V)
    (k : Key) (v : V) :
  (forall a b, eqb a b = true <-> a = b) ->
  NoDup (map fst d) -> In (k, v) d -> get eqb d k = Ok v.
Proof.
  intros Hspec. induction d as [|[k' v'] d IH]; simpl; intros Hnd Hin.
  - contradiction.
  - inversion Hnd as [|? ? Hk' Hd]; subst.
    destruct Hin as [Heq | Hin].
    + inversion Heq; subst.
      assert (Hrefl : eqb k k = true) by now apply Hspec.
      now rewrite Hrefl.
    + destruct (eqb k' k) eqn:Hk.
      * apply Hspec in Hk. subst k'.
        exfalso. apply Hk'. now apply (in_map fst) in Hin.
      * now apply IH.
Qed.

Lemma set_keeps_distinct_keys {Key V} (eqb : Key -> Key -> bool)
    (d : dict Key V) (k : Key) (v : V) :
  (forall a b, eqb a b = true <-> a = b) ->
  NoDup (map fst d) -> NoDup (map fst (set eqb d k v)).
Proof.
  intros Hspec. induction d as [|[k' v'] d IH]; simpl; intros Hnd.
  - repeat constructor. intros [].
  - inversion Hnd as [|? ? Hk' Hd]; subst.
    destruct (eqb k' k) eqn:Hk; simpl.
    + constructor; assumption.
    + constructor; [|now apply IH].
      intros Hin. apply set_keys in Hin as [-> | Hin]; [|contradiction].
      assert (Hrefl : eqb k k = true) by now apply Hspec.
      congruence.
Qed.

Lemma comprehension_distinct_keys {Key V X} (eqb : Key -> Key -> bool)
    (key : X -> Key) (val : X -> V) (l : list X) (d : dict Key V) :
  (forall a b, eqb a b = true <-> a = b) ->
  NoDup (map fst d) ->
  NoDup (map fst (fold_left (fun d x => set eqb d (key x) (val x)) l d)).
Proof.
  intros Hspec. revert d. induction l as [|x l IH]; simpl; intros d Hnd.
  - assumption.
  - apply IH. now apply set_keeps_distinct_keys.
Qed.

(** What a comprehension holds under a key is the value of the last item
    with that key. *)
Lemma comprehension_get_last {Key V X} (eqb : Key -> Key -> bool)
    (key : X -> Key) (val : X -> V) (l1 l2 : list X) (x : X)
    (d : dict Key V) :
  (forall a b, eqb a b = true <-> a = b) ->
  (forall y, In y l2 -> key y <> key x) ->
  get eqb (fold_left (fun d x => set eqb d (key x) (val x))
             (l1 ++ x :: l2) d) (key x)
  = Ok (val x).
Proof.
  intros Hspec Hlater. rewrite fold_left_app. simpl.
  set (d1 := fold_left _ l1 d). clearbody d1.
  assert (Hrefl : eqb (key x) (key x) = true) by now apply Hspec.
  assert (Hstart : get eqb (set eqb d1 (key x) (val x)) (key x) = Ok (val x))
    by now rewrite (get_set eqb Hspec), Hrefl.
  revert Hstart. generalize (set eqb d1 (key x) (val x)).
  induction l2 as [|y l2 IH]; simpl; intros d2 Hd2; [assumption|].
  apply IH.
  - intros z Hz. apply Hlater. now right.
  - rewrite (get_set eqb Hspec).
    destruct (eqb (key y) (key x)) eqn:Hy; [|assumption].
    apply Hspec in Hy. exfalso. apply (Hlater y); [now left | assumption].
Qed.

Lemma comprehension_get_item {Key V X} (eqb : Key -> Key -> bool)
    (key : X -> Key) (val : X -> V) (l : list X) (d : dict Key V)
    (k : Key) (v : V) :
  (forall a b, eqb a b = true <-> a = b) ->
  get eqb (fold_left (fun d x => set eqb d (key x) (val x)) l d) k = Ok v ->
  get eqb d k = Ok v \/ exists x, In x l /\ key x = k /\ val x = v.
Proof.
  intros Hspec. revert d. induction l as [|x l IH]; simpl; intros d H.
  - now left.
  - apply IH in H as [H | (y & Hy & Hk & Hv)].
    + rewrite (get_set eqb Hspec) in H.
      destruct (eqb (key x) k) eqn:Hx.
      * apply Hspec in Hx. inversion H. right. exists x. auto.
      * now left.
    + right. exists y. auto.
Qed.

Lemma enumerate_from_app {A} (l1 l2 : list A) (i : Z) :
  enumerate_from i (l1 ++ l2)
  = enumerate_from i l1 ++ enumerate_from (i + len l1) l2.
Proof.
  revert i. induction l1 as [|x l1 IH]; simpl; intros i.
  - f_equal. unfold len. simpl. lia.
  - rewrite IH. do 3 f_equal. unfold len. simpl length. lia.
Qed.

(** Cutting a list at the last occurrence of one of its elements. *)
Lemma split_at_last {A} (eq_dec : forall a b : A, {a = b} + {a <> b})
    (x : A) (l : list A) :
  In x l -> exists l1 l2, l = l1 ++ x :: l2 /\ ~ In x l2.
Proof.
  induction l as [|y l IH]; intros Hin; [contradiction|].
  destruct (in_dec eq_dec x l) as [Hl | Hl].
  - destruct (IH Hl) as (l1 & l2 & -> & Hno).
    exists (y :: l1), l2. now split.
  - destruct Hin as [-> | Hin]; [|contradiction].
    exists [], l. now split.
Qed.

Lemma label_eq_dec (a b : label) : {a = b} + {a <> b}.
Proof.
  decide equality; [apply string_dec | apply Z.eq_dec].
Defined.

Section LabelSpaceMore.
Context (E : Env).

(** [label_map] sends a label to the position of its last occurrence. *)
Lemma label_map_last_position (l1 l2 : list label) (l : label) :
  labels E = l1 ++ l :: l2 -> ~ In l l2 ->
  get label_eqb (label_map E) l = Ok (len l1).
Proof.
  intros Hsplit Hlast. unfold label_map, enumerate.
  rewrite Hsplit, enumerate_from_app. simpl.
  apply (comprehension_get_last label_eqb snd fst
           (enumerate_from 0 l1) (enumerate_from (0 + len l1 + 1) l2)
           (0 + len l1, l)%Z [] label_eqb_spec).
  intros [k y] Hy. simpl. intros ->.
  apply (in_map snd) in Hy. rewrite enumerate_from_values in Hy.
  contradiction.
Qed.

Lemma label_map_distinct_keys : NoDup (map fst (label_map E)).
Proof.
  unfold label_map.
  apply (comprehension_distinct_keys label_eqb snd fst _ []
           label_eqb_spec).
  constructor.
Qed.

(** An item of [label_map] pairs a label with the position of its last
    occurrence. *)
Lemma label_map_items (l : label) (v : Z) :
  In (l, v) (label_map E) ->
  exists l1 l2, labels E = l1 ++ l :: l2 /\ ~ In l l2 /\ v = len l1.
Proof.
  intros Hin.
  assert (Hl : In l (labels E)).
  { apply label_map_keys. now apply (in_map fst) in Hin. }
  destruct (split_at_last label_eq_dec l (labels E) Hl)
    as (l1 & l2 & Hsplit & Hlast).
  exists l1, l2. repeat split; try assumption.
  pose proof (label_map_last_position l1 l2 l Hsplit Hlast) as Hget.
  rewrite (get_of_item label_eqb (label_map E) l v label_eqb_spec
             label_map_distinct_keys Hin) in Hget.
  now inversion Hget.
Qed.

End LabelSpaceMore.

Lemma map_result_raises {A B} (f : A -> result B) (e0 : exn) (xs : list A)
    (x : A) :
  (forall y e, f y = Raise e -> e = e0) ->
  In x xs -> f x = Raise e0 -> map_result f xs = Raise e0.
Proof.
  intros Honly. induction xs as [|y xs IH]; simpl; intros Hin Hx;
    [contradiction|].
  destruct (f y) as [b|e] eqn:Hy; simpl.
  - destruct Hin as [-> | Hin]; [congruence|].
    now rewrite (IH Hin Hx).
  - now rewrite (Honly y e Hy).
Qed.

Lemma nth_error_Some_lt {A} (l : list A) (i : nat) (x : A) :
  nth_error l i = Some x -> i < length l.
Proof.
  intros H. apply nth_error_Some. congruence.
Qed.

(** X7.  With distinct labels the two dictionaries of the constructor are
    inverse bijections between the labels and their positions:
    [label_map] sends the label at position [i] to [i] and [id2label] sends
    [i] back to it. *)
Theorem label_space_round_trip (E : Env) (i : nat) (l : label) :
  NoDup (labels E) ->
  nth_error (labels E) i = Some l ->
  get label_eqb (label_map E) l = Ok (Z.of_nat i) /\
  get Z.eqb (id2label E) (Z.of_nat i) = Ok l.
Proof.
  intros Hnd Hnth. split.
  - destruct (nth_error_split (labels E) i Hnth) as (l1 & l2 & Hsplit & Hlen).
    rewrite (label_map_last_position E l1 l2 l Hsplit).
    + unfold len. now rewrite Hlen.
    + rewrite Hsplit in Hnd. apply NoDup_remove_2 in Hnd.
      intros Hin. apply Hnd. apply in_or_app. now right.
  - destruct (id2label_lookup E (Z.of_nat i) Hnd) as (l' & Hl' & Hget).
    + unfold labels_num. apply nth_error_Some_lt in Hnth. lia.
    + rewrite Nat2Z.id, Hnth in Hl'. inversion Hl'; subst. exact Hget.
Qed.

Lemma label_space_round_trip_witness :
  get label_eqb (label_map Toy.E) (LStr "neg") = Ok (Z.of_nat 1) /\
  get Z.eqb (id2label Toy.E) (Z.of_nat 1) = Ok (LStr "neg").
Proof.
  apply (label_space_round_trip Toy.E 1 (LStr "neg")).
  - apply toy_labels_distinct.
  - reflexivity.
Defined.

(** X8.  Training on a label that is not in the label list is fatal for
    the batch: the supervised branch of [_forward_for_loss] raises
    [KeyError] at [self.label_map[label]], whatever the sentences and the
    parameters. *)
Theorem supervised_loss_unknown_label (E : Env) (pc p : ParamsOf E)
    (sentences_batch : list string) (labels_batch : list label)
    (l : label) :
  In l labels_batch -> ~ In l (labels E) ->
  _forward_for_loss E pc p sentences_batch (Some labels_batch)
  = Raise KeyError.
Proof.
  intros Hin Hnot. unfold _forward_for_loss.
  rewrite (map_result_raises (get label_eqb (label_map E)) KeyError
             labels_batch l).
  - reflexivity.
  - intros y e. apply get_raises_key_error.
  - assumption.
  - apply get_missing.
    + intros a b Hab. now apply label_eqb_spec.
    + intros Hkey. apply Hnot. now apply label_map_keys.
Qed.

Lemma supervised_loss_unknown_label_witness :
  _forward_for_loss Toy.E (Toy.params0 0) (Toy.params0 0) ["a"; "b"]
    (Some [Toy.pos; LStr "maybe"]) = Raise KeyError.
Proof.
  apply (supervised_loss_unknown_label Toy.E (Toy.params0 0)
           (Toy.params0 0) ["a"; "b"] [Toy.pos; LStr "maybe"]
           (LStr "maybe")).
  - right. now left.
  - simpl. intros [H | [H | []]]; discriminate H.
Defined.

(** X9.  The constructor accepts a label list with a repeated label.
    [label_map] then keeps the last position of the label, and the earlier
    position is no key of [id2label]: looking it up raises [KeyError], as
    [_fast_infer] does whenever a head predicts that id. *)
Theorem repeated_label_loses_its_first_id (E : Env) (i j : nat)
    (l : label) :
  nth_error (labels E) i = Some l ->
  nth_error (labels E) j = Some l ->
  i < j ->
  get Z.eqb (id2label E) (Z.of_nat i) = Raise KeyError.
Proof.
  intros Hi Hj Hlt.
  destruct (get Z.eqb (id2label E) (Z.of_nat i)) as [l'|e] eqn:Hget.
  - exfalso. unfold id2label in Hget.
    apply (comprehension_get_item Z.eqb snd fst) in Hget
      as [Hget | ([k v] & Hin & Hk & Hv)];
      [discriminate Hget | | apply Z.eqb_eq].
    simpl in Hk, Hv. subst k v.
    apply label_map_items in Hin as (l1 & l2 & Hsplit & Hlast & Hlen).
    unfold len in Hlen. apply Nat2Z.inj in Hlen. subst i.
    rewrite Hsplit in Hi, Hj.
    rewrite nth_error_app2 in Hi by lia.
    replace (length l1 - length l1) with 0 in Hi by lia.
    simpl in Hi. inversion Hi; subst l'.
    rewrite nth_error_app2 in Hj by lia.
    destruct (j - length l1) as [|m] eqn:Hm; [lia|].
    simpl in Hj. apply nth_error_In in Hj. contradiction.
  - now rewrite (get_raises_key_error Z.eqb _ _ e Hget).
Qed.

Lemma repeated_label_loses_its_first_id_witness :
  label_map Toy.E_dup = [(LStr "pos", 2%Z); (LStr "neg", 1%Z)] /\
  id2label Toy.E_dup = [(2%Z, LStr "pos"); (1%Z, LStr "neg")] /\
  _fast_infer Toy.E_dup (Toy.params0 1) "a" f0_0 = Raise KeyError /\
  get Z.eqb (id2label Toy.E_dup) (Z.of_nat 0) = Raise KeyError.
Proof.
  split; [reflexivity|]. split; [reflexivity|]. split; [reflexivity|].
  apply (repeated_label_loses_its_first_id Toy.E_dup 0 2 (LStr "pos")).
  - reflexivity.
  - reflexivity.
  - lia.
Defined.

(** X10.  When the labels are the integers [0, 1, ..., n-1] in order, the
    second lookup of [forward] maps every label to itself, and [forward]
    returns exactly what [_fast_infer] returns. *)
Theorem forward_on_identity_labels (E : Env) (p : ParamsOf E)
    (sentence : string) (speed : float) :
  (forall i l, nth_error (labels E) i = Some l -> l = LInt (Z.of_nat i)) ->
  forward E p sentence speed = _fast_infer E p sentence speed.
Proof.
  intros Hid.
  assert (Hnd : NoDup (labels E)).
  { apply NoDup_nth_error. intros i j Hi Heq.
    destruct (nth_error (labels E) i) as [l|] eqn:Hl.
    - symmetry in Heq.
      apply Hid in Hl. apply Hid in Heq. rewrite Hl in Heq.
      inversion Heq. lia.
    - apply nth_error_None in Hl. lia. }
  unfold forward.
  destruct (_fast_infer E p sentence speed) as [[lbl n]|e] eqn:Hinfer;
    [|reflexivity].
  simpl. apply fast_infer_label in Hinfer.
  apply In_nth_error in Hinfer as (i & Hi).
  pose proof (Hid i lbl Hi) as ->. simpl.
  destruct (id2label_lookup E (Z.of_nat i) Hnd) as (l' & Hl' & Hget).
  { unfold labels_num. apply nth_error_Some_lt in Hi. lia. }
  rewrite Nat2Z.id, Hi in Hl'. inversion Hl'; subst l'.
  now rewrite Hget.
Qed.

Lemma forward_on_identity_labels_witness :
  forward Toy.E_int (Toy.params0 1) "u" f0_5 = Ok (LInt 1, 2) /\
  forward Toy.E_int (Toy.params0 1) "u" f0_5
  = _fast_infer Toy.E_int (Toy.params0 1) "u" f0_5.
Proof.
  split; [reflexivity|].
  apply (forward_on_identity_labels Toy.E_int (Toy.params0 1) "u" f0_5).
  intros i l H.
  destruct i as [|[|i]]; simpl in H.
  - now inversion H.
  - now inversion H.
  - destruct i; discriminate H.
Defined.

(** ** Evaluation *)

Section EvaluateFacts.
Context (E : Env).

Lemma right_answers_cons (x : string * label) (a : label * nat)
    (xs : list (string * label)) (answers : list (label * nat)) :
  right_answers (x :: xs) (a :: answers)
  = (if label_eqb (snd x) (fst a) then 1 else 0) + right_answers xs answers.
Proof.
  unfold right_answers. simpl.
  destruct (label_eqb (snd x) (fst a)); reflexivity.
Qed.

Lemma right_answers_le (xs : list (string * label))
    (answers : list (label * nat)) :
  right_answers xs answers <= length xs.
Proof.
  unfold right_answers.
  etransitivity; [apply filter_length_le|].
  rewrite length_combine. lia.
Qed.

(** The loop of [_evaluate]: every pair is answered by [_fast_infer], its
    layer count is appended, and the count of right answers grows by one
    exactly when the gold label equals the predicted one. *)
Lemma evaluate_loop (p : ParamsOf E) (speed : float)
    (xs : list (string * label)) :
  forall (r0 r : Z) (l0 l : list nat),
    for_each (evaluate_body E p speed) xs (r0, l0) = Ok (r, l) ->
    exists answers,
      Forall2 (fun x a => _fast_infer E p (fst x) speed = Ok a) xs answers /\
      r = (r0 + Z.of_nat (right_answers xs answers))%Z /\
      l = l0 ++ map snd answers /\
      Forall (fun a => 1 <= snd a <= layers_num E) answers.
Proof.
  induction xs as [|[s lbl] xs IH]; intros r0 r l0 l H.
  - simpl in H. inversion H; subst. exists []. simpl.
    rewrite app_nil_r. unfold right_answers. simpl.
    repeat split; try constructor. lia.
  - simpl in H. unfold evaluate_body at 1 in H. simpl in H.
    destruct (_fast_infer E p s speed) as [[pred el]|e] eqn:Hinfer;
      simpl in H; [|discriminate].
    pose proof (fast_infer_result_bounds _ _ _ _ _ _ Hinfer) as Hbounds.
    apply IH in H as (answers & Hall & -> & -> & Hlayers).
    exists ((pred, el) :: answers).
    rewrite right_answers_cons. cbn [fst snd map].
    split; [|split; [|split]].
    + constructor; assumption.
    + destruct (label_eqb lbl pred); lia.
    + now rewrite <- app_assoc.
    + constructor; [exact Hbounds | assumption].
Qed.

End EvaluateFacts.

(** X11.  When [_evaluate] returns, the sentence list is not empty (an
    empty one raises [ZeroDivisionError]), and [_fast_infer] has answered
    every pair that [zip] forms, in order.  The accuracy is the number of
    those pairs whose gold label equals the predicted label, over the
    number of sentences, so a label list shorter than the sentence list
    caps the count; and the average is the mean of the layer counts
    [_fast_infer] returned, one per pair, each between 1 and the number of
    layers. *)
Theorem evaluate_accuracy_and_layers (E : Env) (p : ParamsOf E)
    (sentences_batch : list string) (labels_batch : list label)
    (speed acc ave : float) :
  _evaluate E p sentences_batch labels_batch speed = Ok (acc, ave) ->
  let pairs := combine sentences_batch labels_batch in
  sentences_batch <> [] /\
  exists answers,
    Forall2 (fun x a => _fast_infer E p (fst x) speed = Ok a) pairs answers /\
    truediv (Z.of_nat (right_answers pairs answers)) (len sentences_batch)
    = Ok acc /\
    ave = np_mean (map snd answers) /\
    right_answers pairs answers
    <= Nat.min (length sentences_batch) (length labels_batch) /\
    length answers = Nat.min (length sentences_batch) (length labels_batch) /\
    Forall (fun a => 1 <= snd a <= layers_num E) answers.
Proof.
  intros H pairs. unfold _evaluate in H.
  destruct (for_each (evaluate_body E p speed)
              (combine sentences_batch labels_batch) (0%Z, []))
    as [[r l]|e] eqn:Hloop; simpl in H; [|discriminate].
  destruct (truediv r (len sentences_batch)) as [a|e] eqn:Hdiv; simpl in H;
    [|discriminate].
  inversion H; subst a ave. clear H. split.
  - intros ->. discriminate Hdiv.
  - apply evaluate_loop in Hloop as (answers & Hall & -> & -> & Hlayers).
    fold pairs in Hall, Hdiv |- *.
    exists answers. simpl in Hdiv |- *.
    pose proof (right_answers_le pairs answers) as Hle.
    pose proof (Forall2_length Hall) as Hlen.
    unfold pairs in Hle, Hlen. rewrite length_combine in Hle, Hlen.
    repeat split; auto.
Qed.

Lemma evaluate_accuracy_and_layers_witness :
  let pairs := combine Toy.sentences_dev [Toy.pos; Toy.neg] in
  (_evaluate Toy.E (Toy.params0 1) Toy.sentences_dev [Toy.pos; Toy.neg] f0_5
   = Ok (fdiv (float_of_Z 1) (float_of_Z 20), float_of_Z 2) /\
   _evaluate Toy.E (Toy.params0 1) [] [Toy.pos] f0_5
   = Raise ZeroDivisionError) /\
  Toy.sentences_dev <> [] /\
  exists answers,
    Forall2 (fun x a => _fast_infer Toy.E (Toy.params0 1) (fst x) f0_5 = Ok a)
            pairs answers /\
    truediv (Z.of_nat (right_answers pairs answers)) (len Toy.sentences_dev)
    = Ok (fdiv (float_of_Z 1) (float_of_Z 20)) /\
    float_of_Z 2 = np_mean (map snd answers) /\
    right_answers pairs answers
    <= Nat.min (length Toy.sentences_dev) (length [Toy.pos; Toy.neg]) /\
    length answers
    = Nat.min (length Toy.sentences_dev) (length [Toy.pos; Toy.neg]) /\
    Forall (fun a => 1 <= snd a <= layers_num Toy.E) answers.
Proof.
  intros pairs.
  split; [split; [vm_compute; reflexivity | reflexivity]|].
  apply (evaluate_accuracy_and_layers Toy.E (Toy.params0 1)
           Toy.sentences_dev [Toy.pos; Toy.neg] f0_5).
  vm_compute. reflexivity.
Defined.

(** ** The batches of a training epoch *)






(** ** Epochs that take no step *)

Section NoStep.
Context (E : Env).

Lemma keeps_params_refl (st : State E) : keeps_params E st st.
Proof. reflexivity. Qed.

Lemma keeps_params_trans (a b c : State E) :
  keeps_params E a b -> keeps_params E b c -> keeps_params E a c.
Proof. unfold keeps_params. congruence. Qed.

Lemma evaluate_keeps_params (ss : list string) (ls : list label)
    (speed : float) :
  respects (keeps_params E) (evaluate E ss ls speed).
Proof.
  intros st. now destruct (evaluate_effect E ss ls speed st) as (_ & Hp & _).
Qed.

Lemma save_model_keeps_params (path : string) :
  respects (keeps_params E) (save_model E path).
Proof. intros st. reflexivity. Qed.

Lemma do_random_shuffle_keeps_params (ss : list string) :
  respects (keeps_params E) (do_random_shuffle E ss).
Proof.
  intros st. unfold do_random_shuffle.
  now destruct (random_shuffle E (rng st) ss).
Qed.

Lemma do_shuffle_pairs_keeps_params (ss : list string) (ls : list label) :
  respects (keeps_params E) (do_shuffle_pairs E ss ls).
Proof.
  intros st. unfold do_shuffle_pairs.
  now destruct (shuffle_pairs E (rng st) ss ls) as [[ss' ls'] g].
Qed.

(** What the setup of a phase returns: the step count is the floor of
    [instances_num / batch_size]; it changes no parameter. *)
Lemma training_setup_result (n batch_size : Z) (lr : float)
    (epochs_num : Z) (warmup : float) (st st1 : State E) (steps : Z)
    (o : Optim E) :
  training_setup E n batch_size lr epochs_num warmup st
  = (Ok (steps, o), st1) ->
  steps = (n / batch_size)%Z /\ batch_size <> 0%Z /\ params st1 = params st.
Proof.
  unfold training_setup, mbind, lift, floordiv, new_AdamW, log, ret.
  destruct (truediv _ _) as [q|e]; [|discriminate].
  destruct (int_of_float q) as [t|e]; [|discriminate].
  destruct (batch_size =? 0)%Z eqn:Hb; [discriminate|].
  apply Z.eqb_neq in Hb.
  simpl. intros H. inversion H; subst. auto.
Qed.

Lemma training_setup_keeps_params (n batch_size : Z) (lr : float)
    (epochs_num : Z) (warmup : float) :
  respects (keeps_params E)
    (training_setup E n batch_size lr epochs_num warmup).
Proof.
  intros st.
  unfold training_setup, mbind, lift, new_AdamW, log, ret, keeps_params.
  destruct (truediv _ _); [|reflexivity].
  destruct (int_of_float _); [|reflexivity].
  destruct (floordiv _ _); reflexivity.
Qed.

Lemma no_full_batch_no_step (n b : Z) :
  (0 <= n)%Z -> b <> 0%Z -> (b < 0 \/ n < b)%Z -> range (n / b) = [].
Proof.
  intros Hn Hb Hcase. unfold range.
  assert (Hq : (n / b <= 0)%Z).
  { destruct Hcase as [Hneg | Hsmall].
    - pose proof (Z.div_mod n b Hb) as Hdm.
      pose proof (Z.mod_neg_bound n b Hneg) as Hmod. nia.
    - rewrite Z.div_small by lia. lia. }
  now replace (Z.to_nat (n / b)) with 0 by lia.
Qed.

Lemma distillation_epoch_without_step (sd : list string) (ld : list label)
    (batch_size report_steps : Z) (path : string) (steps_num : Z)
    (epoch : nat) (v : list string * Optim E) :
  range steps_num = [] ->
  respects (keeps_params E)
    (distillation_epoch E sd ld batch_size report_steps path steps_num
       epoch v).
Proof.
  intros Hnone. unfold distillation_epoch. rewrite Hnone. simpl mfor.
  frame keeps_params_refl keeps_params_trans;
    try apply evaluate_keeps_params;
    try apply save_model_keeps_params;
    apply do_random_shuffle_keeps_params.
Qed.

Lemma fine_tuning_epoch_without_step (sd : list string) (ld : list label)
    (batch_size report_steps : Z) (path : string) (steps_num : Z)
    (epoch : nat) (v : FineTuneVars E) :
  range steps_num = [] ->
  respects (keeps_params E)
    (fine_tuning_epoch E sd ld batch_size report_steps path steps_num
       epoch v).
Proof.
  intros Hnone. unfold fine_tuning_epoch. rewrite Hnone. simpl mfor.
  frame keeps_params_refl keeps_params_trans;
    try apply evaluate_keeps_params;
    try apply save_model_keeps_params;
    apply do_shuffle_pairs_keeps_params.
Qed.

End NoStep.

(** X13.  When the batch size is negative or larger than the number of
    training sentences, [steps_num] is zero or less and no epoch takes a
    training step: self-distillation ends (or raises) with the parameters
    it started with, and so does the epoch loop of phase 1, which can then
    only save the initial parameters. *)
Theorem no_training_without_a_full_batch (E : Env)
    (sentences_train : list string) (labels_train : list label)
    (sentences_dev : list string) (labels_dev : list label)
    (batch_size : Z) (learning_rate : float) (epochs_num : Z)
    (warmup : float) (report_steps : Z) (model_saving_path : string)
    (dev_speed : float) (epochs : list nat) (st : State E) :
  (batch_size < 0 \/ len sentences_train < batch_size)%Z ->
  params (snd (self_distillation E sentences_train batch_size learning_rate
                 epochs_num warmup report_steps model_saving_path
                 sentences_dev labels_dev dev_speed st))
  = params st /\
  params (snd (fine_tuning_epochs E sentences_train labels_train
                 sentences_dev labels_dev batch_size learning_rate
                 epochs_num warmup report_steps model_saving_path epochs st))
  = params st.
Proof.
  intros Hcase.
  pose proof (training_setup_keeps_params E (len sentences_train) batch_size
                learning_rate epochs_num warmup st) as Hsetup.
  unfold keeps_params in Hsetup.
  split.
  - unfold self_distillation, mbind.
    destruct (training_setup E _ batch_size learning_rate epochs_num warmup
                st) as [[[steps o]|e] st1] eqn:Hs; [|exact Hsetup].
    apply training_setup_result in Hs as (-> & Hb & Hp).
    pose proof (no_full_batch_no_step (len sentences_train) batch_size
                  (len_nonneg _) Hb Hcase) as Hnone.
    pose proof (respects_mfor (keeps_params E) (keeps_params_refl E)
                  (keeps_params_trans E) (range epochs_num)
                  (distillation_epoch E sentences_dev labels_dev batch_size
                     report_steps model_saving_path
                     (len sentences_train / batch_size))
                  (fun x s => distillation_epoch_without_step E _ _ _ _ _ _
                                x s Hnone)
                  (sentences_train, o) st1) as Hloop.
    unfold keeps_params in Hloop.
    destruct (mfor _ _ _ st1) as [[v|e] st2]; simpl in *; congruence.
  - unfold fine_tuning_epochs, mbind.
    destruct (training_setup E _ batch_size learning_rate epochs_num warmup
                st) as [[[steps o]|e] st1] eqn:Hs; [|exact Hsetup].
    apply training_setup_result in Hs as (-> & Hb & Hp).
    pose proof (no_full_batch_no_step (len sentences_train) batch_size
                  (len_nonneg _) Hb Hcase) as Hnone.
    pose proof (respects_mfor (keeps_params E) (keeps_params_refl E)
                  (keeps_params_trans E) epochs
                  (fine_tuning_epoch E sentences_dev labels_dev batch_size
                     report_steps model_saving_path
                     (len sentences_train / batch_size))
                  (fun x s => fine_tuning_epoch_without_step E _ _ _ _ _ _
                                x s Hnone)
                  {| best_acc := f0_0; ft_sentences := sentences_train;
                     ft_labels := labels_train; ft_optimizer := o |} st1)
      as Hloop.
    unfold keeps_params in Hloop. simpl in *. congruence.
Qed.

Lemma no_training_without_a_full_batch_witness :
  let st := Toy.state0 1 None in
  let run := self_distillation Toy.E Toy.sentences_train 5%Z f2em5 2%Z f0_1
               100%Z Toy.path Toy.sentences_dev Toy.labels_dev f0_5 st in
  fst run = Ok tt /\
  params (snd run) = params st /\
  params (snd (fine_tuning_epochs Toy.E Toy.sentences_train Toy.labels_train
                 Toy.sentences_dev Toy.labels_dev 5%Z f2em5 2%Z f0_1 100%Z
                 Toy.path [0; 1] st))
  = params st.
Proof.
  intros st run. split; [vm_compute; reflexivity|].
  apply (no_training_without_a_full_batch Toy.E Toy.sentences_train
           Toy.labels_train Toy.sentences_dev Toy.labels_dev 5%Z f2em5 2%Z
           f0_1 100%Z Toy.path f0_5 [0; 1] st).
  right. vm_compute. reflexivity.
Defined.

(** ** A batch size of zero *)

Lemma training_setup_zero_batch (E : Env) (n : Z) (lr : float)
    (epochs_num : Z) (warmup : float) (st : State E) :
  training_setup E n 0 lr epochs_num warmup st = (Raise ZeroDivisionError, st).
Proof. reflexivity. Qed.

(** X14.  A batch size of 0 is not checked by [fit]: the first division of
    phase 1, [instances_num * epochs_num / batch_size], raises
    [ZeroDivisionError] before an optimizer is created, whatever the other
    arguments are, and the model, the files and the record of calls are
    as before the call.  [self_distillation] called on its own does the
    same. *)
Theorem zero_batch_size_raises (E : Env) (sentences_train : list string)
    (labels_train : list label) (kwargs : FitKwargs) (st : State E) :
  kw_batch_size kwargs = Some 0%Z ->
  fit E sentences_train labels_train kwargs st
  = (Raise ZeroDivisionError, st) /\
  forall lr epochs_num warmup report_steps path sd ld dev_speed,
    self_distillation E sentences_train 0 lr epochs_num warmup report_steps
      path sd ld dev_speed st
    = (Raise ZeroDivisionError, st).
Proof.
  intros Hb. split.
  - unfold fit. rewrite Hb. cbv zeta. simpl kwargs_get.
    unfold _fine_tuning_backbone, fine_tuning_epochs.
    rewrite !mbind_assoc.
    apply mbind_raise. apply training_setup_zero_batch.
  - intros. unfold self_distillation.
    apply mbind_raise. apply training_setup_zero_batch.
Qed.

Lemma zero_batch_size_raises_witness :
  let st := Toy.state0 0 None in
  fit Toy.E Toy.sentences_train Toy.labels_train Toy.kwargs_batch_0 st
  = (Raise ZeroDivisionError, st).
Proof.
  intros st.
  apply (zero_batch_size_raises Toy.E Toy.sentences_train Toy.labels_train
           Toy.kwargs_batch_0 st).
  reflexivity.
Defined.

(** ** The checkpoints of the self-distillation phase *)

Section DistillationCheckpoints.
Context (E : Env).

(** An epoch of self-distillation that returns has evaluated a non-empty
    validation set and then saved the parameters it ends with. *)
Lemma distillation_epoch_returns (sd : list string) (ld : list label)
    (batch_size report_steps : Z) (path : string) (steps_num : Z)
    (epoch : nat) (v v' : list string * Optim E) (st st' : State E) :
  distillation_epoch E sd ld batch_size report_steps path steps_num epoch v st
  = (Ok v', st') ->
  (0 < len sd)%Z /\
  saved_snapshots E (trace st')
  = saved_snapshots E (trace st) ++ [(path, params st')] /\
  files st' path = Some (params st').
Proof.
  unfold distillation_epoch. intros H.
  apply mbind_ok in H as (ss' & st1 & Hshuffle & H).
  apply mbind_ok in H as (o & st2 & Hsteps & H).
  apply mbind_ok in H as (r & st3 & Heval & H).
  apply mbind_ok in H as ([] & st4 & Hsave & H).
  unfold ret in H. inversion H; subst v' st'. clear H.
  pose proof (do_random_shuffle_silent E (fst v) st) as [Ht1 _].
  rewrite Hshuffle in Ht1. simpl in Ht1.
  pose proof (train_steps_silent E ss' None batch_size report_steps
                (range steps_num) (snd v) st1) as [Ht2 _].
  rewrite Hsteps in Ht2. simpl in Ht2.
  destruct (0 <? len sd)%Z eqn:Hdev; [|discriminate Heval].
  pose proof (evaluate_keeps_checkpoints E sd ld f0_5 st2) as [Ht3 _].
  rewrite Heval in Ht3. simpl in Ht3.
  unfold save_model in Hsave. inversion Hsave; subst st4. clear Hsave.
  split; [now apply Z.ltb_lt|]. simpl. split.
  - rewrite saved_snapshots_app, Ht3, Ht2, Ht1. reflexivity.
  - now rewrite String.eqb_refl.
Qed.

(** The same over the epochs [epochs] of the loop. *)
Lemma distillation_epochs_return (sd : list string) (ld : list label)
    (batch_size report_steps : Z) (path : string) (steps_num : Z)
    (epochs : list nat) (v v' : list string * Optim E) (st st' : State E) :
  mfor epochs
    (distillation_epoch E sd ld batch_size report_steps path steps_num) v st
  = (Ok v', st') ->
  exists new,
    saved_snapshots E (trace st') = saved_snapshots E (trace st) ++ new /\
    length new = length epochs /\
    Forall (fun s => fst s = path) new /\
    (epochs <> [] ->
     (0 < len sd)%Z /\ last new (path, params st) = (path, params st') /\
     files st' path = Some (params st')).
Proof.
  revert v v' st st'.
  induction epochs as [|x xs IH] using rev_ind; intros v v' st st' H.
  - simpl in H. unfold ret in H. inversion H; subst.
    exists []. rewrite app_nil_r. repeat split; auto; congruence.
  - rewrite mfor_app in H.
    apply mbind_ok in H as (v1 & st1 & Hxs & Hx).
    simpl in Hx. apply mbind_ok in Hx as (v2 & st2 & Hx & Hret).
    unfold ret in Hret. inversion Hret; subst v2 st2. clear Hret.
    destruct (IH _ _ _ _ Hxs) as (new & Hnew & Hlen & Hpath & _).
    apply distillation_epoch_returns in Hx as (Hdev & Hsaved & Hfile).
    exists (new ++ [(path, params st')]).
    split; [|split; [|split]].
    + now rewrite Hsaved, Hnew, app_assoc.
    + rewrite !length_app, Hlen. reflexivity.
    + apply Forall_app. split; [assumption|]. now constructor.
    + intros _. split; [assumption|]. split; [|assumption].
      apply last_last.
Qed.

End DistillationCheckpoints.

(** X15.  Unlike phase 1, self-distillation saves unconditionally: when
    it returns, it has written exactly one checkpoint per epoch, each at
    [model_saving_path], whatever the validation accuracies were; and if
    there was at least one epoch, the validation set was not empty and
    the file holds the parameters the model ends with, those of the last
    epoch. *)
Theorem self_distillation_saves_every_epoch (E : Env)
    (sentences_train : list string) (batch_size : Z) (learning_rate : float)
    (epochs_num : Z) (warmup : float) (report_steps : Z)
    (model_saving_path : string) (sentences_dev : list string)
    (labels_dev : list label) (dev_speed : float) (st st' : State E) :
  self_distillation E sentences_train batch_size learning_rate epochs_num
    warmup report_steps model_saving_path sentences_dev labels_dev dev_speed
    st = (Ok tt, st') ->
  exists new,
    saved_snapshots E (trace st') = saved_snapshots E (trace st) ++ new /\
    length new = Z.to_nat epochs_num /\
    Forall (fun s => fst s = model_saving_path) new /\
    ((0 < epochs_num)%Z ->
     (0 < len sentences_dev)%Z /\
     last new (model_saving_path, params st)
     = (model_saving_path, params st') /\
     files st' model_saving_path = Some (params st')).
Proof.
  unfold self_distillation. intros H.
  apply mbind_ok in H as ([steps_num o] & st1 & Hsetup & H).
  apply mbind_ok in H as (v' & st2 & Hloop & Hret).
  unfold ret in Hret. inversion Hret; subst st2. clear Hret.
  pose proof (training_setup_keeps_checkpoints E (len sentences_train)
                batch_size learning_rate epochs_num warmup st) as [Hs _].
  pose proof (training_setup_keeps_params E (len sentences_train)
                batch_size learning_rate epochs_num warmup st) as Hp.
  unfold keeps_params in Hp. rewrite Hsetup in Hs, Hp. simpl in Hs, Hp.
  apply distillation_epochs_return in Hloop
    as (new & Hnew & Hlen & Hpath & Hlast).
  exists new. split; [|split; [|split]].
  - now rewrite Hnew, Hs.
  - rewrite Hlen. unfold range. apply length_seq.
  - assumption.
  - intros Hpos. rewrite <- Hp. apply Hlast.
    unfold range. destruct (Z.to_nat epochs_num) eqn:Hn; [lia | discriminate].
Qed.

Lemma self_distillation_saves_every_epoch_witness :
  let st := Toy.state0 1 None in
  let run := Toy.phase2 f0_5 st in
  fst run = Ok tt /\
  exists new,
    saved_snapshots Toy.E (trace (snd run))
    = saved_snapshots Toy.E (trace st) ++ new /\
    length new = 2 /\
    Forall (fun s => fst s = Toy.path) new /\
    ((0 < 2)%Z ->
     (0 < len Toy.sentences_dev)%Z /\
     last new (Toy.path, params st) = (Toy.path, params (snd run)) /\
     files (snd run) Toy.path = Some (params (snd run))).
Proof.
  intros st run. split; [vm_compute; reflexivity|].
  apply (self_distillation_saves_every_epoch Toy.E Toy.sentences_train 2%Z
           f2em5 2%Z f0_1 100%Z Toy.path Toy.sentences_dev Toy.labels_dev
           f0_5 st (snd run)).
  vm_compute. reflexivity.
Defined.

(** ** The evaluation speeds of a whole training run *)

Section FitSpeeds.
Context (E : Env).

Lemma load_model_evaluates_at (speed : float) (path : string) :
  respects (evaluates_at E speed) (load_model E path).
Proof.
  intros st. exists []. unfold load_model.
  destruct (files st path); simpl.
  - rewrite evaluation_speeds_app. simpl. now split.
  - rewrite app_nil_r. now split.
Qed.

Lemma fine_tuning_epoch_evaluates_at_zero (sd : list string)
    (ld : list label) (batch_size report_steps : Z) (path : string)
    (steps_num : Z) (epoch : nat) (v : FineTuneVars E) :
  respects (evaluates_at E f0_0)
    (fine_tuning_epoch E sd ld batch_size report_steps path steps_num
       epoch v).
Proof.
  unfold fine_tuning_epoch.
  frame (evaluates_at_refl E f0_0) (evaluates_at_trans E f0_0);
    try apply evaluate_evaluates_at;
    try apply save_model_evaluates_at;
    apply (respects_weaken silent); try apply silent_evaluates_at;
    auto using do_shuffle_pairs_silent, train_steps_silent.
Qed.

Lemma fine_tuning_evaluates_at_zero (ss : list string) (ls : list label)
    (sd : list string) (ld : list label) (batch_size : Z) (lr : float)
    (epochs_num : Z) (warmup : float) (report_steps : Z) (path : string) :
  respects (evaluates_at E f0_0)
    (_fine_tuning_backbone E ss ls sd ld batch_size lr epochs_num warmup
       report_steps path).
Proof.
  unfold _fine_tuning_backbone, fine_tuning_epochs.
  frame (evaluates_at_refl E f0_0) (evaluates_at_trans E f0_0).
  - apply training_setup_evaluates_at.
  - apply (respects_mfor _ (evaluates_at_refl E f0_0)
             (evaluates_at_trans E f0_0)).
    intros. apply fine_tuning_epoch_evaluates_at_zero.
  - apply load_model_evaluates_at.
Qed.

End FitSpeeds.

(** X16.  Whatever the keyword arguments of [fit] are, [dev_speed]
    included, and whether [fit] returns or raises, the evaluations it runs
    are first a series at speed 0.0, those of phase 1 on the validation and
    on the training set, and then a series at speed 0.5, those of
    self-distillation: no evaluation of a training run uses any other
    speed. *)
Theorem fit_evaluation_speeds (E : Env) (sentences_train : list string)
    (labels_train : list label) (kwargs : FitKwargs) (st : State E) :
  exists at_zero at_half,
    evaluation_speeds E
      (trace (snd (fit E sentences_train labels_train kwargs st)))
    = evaluation_speeds E (trace st) ++ at_zero ++ at_half /\
    Forall (eq f0_0) at_zero /\ Forall (eq f0_5) at_half.
Proof.
  unfold fit. cbv zeta.
  set (path := kwargs_get (kw_model_saving_path kwargs) _).
  set (bs := kwargs_get (kw_batch_size kwargs) _).
  set (sd := kwargs_get (kw_sentences_dev kwargs) _).
  set (ld := kwargs_get (kw_labels_dev kwargs) _).
  set (lr := kwargs_get (kw_learning_rate kwargs) _).
  set (w := kwargs_get (kw_warmup kwargs) _).
  set (rs := kwargs_get (kw_report_steps kwargs) _).
  set (n1 := kwargs_get (kw_finetuning_epochs_num kwargs) _).
  set (n2 := kwargs_get (kw_distilling_epochs_num kwargs) _).
  set (speed := kwargs_get (kw_dev_speed kwargs) _).
  destruct (fine_tuning_evaluates_at_zero E sentences_train labels_train sd
              ld bs lr n1 w rs path st) as (zs & Hzs & Hzero).
  unfold mbind at 1.
  destruct (_fine_tuning_backbone E sentences_train labels_train sd ld bs lr
              n1 w rs path st) as [[[]|e] st1]; simpl in Hzs.
  - destruct (self_distillation_evaluates_at_half E sentences_train bs
                (fmul lr (float_of_Z 10)) n2 w rs path sd ld speed st1)
      as (hs & Hhs & Hhalf).
    unfold mbind at 1.
    destruct (self_distillation E sentences_train bs _ n2 w rs path sd ld
                speed st1) as [[[]|e] st2]; simpl in Hhs.
    + exists zs, hs. simpl. rewrite evaluation_speeds_app. simpl.
      rewrite app_nil_r, Hhs, Hzs, app_assoc. auto.
    + exists zs, hs. simpl. rewrite Hhs, Hzs, app_assoc. auto.
  - exists zs, []. simpl. rewrite app_nil_r. auto.
Qed.

(** ** Training without a validation set *)

Section FitWithoutValidationSet.
Context (E : Env).

(** Without validation sentences an epoch of self-distillation cannot
    return either: [dev_acc, ave_layers = ... if dev_num > 0 else 0.0]. *)
Lemma distillation_epoch_without_dev (ld : list label)
    (batch_size report_steps : Z) (path : string) (steps_num : Z)
    (epoch : nat) (v : list string * Optim E) (st : State E) :
  is_ok (fst (distillation_epoch E [] ld batch_size report_steps path
                steps_num epoch v st)) = false.
Proof.
  unfold distillation_epoch.
  apply mbind_never_returns. intros ss st1.
  apply mbind_never_returns. intros o st2. reflexivity.
Qed.

Lemma self_distillation_without_dev_never_returns (ss : list string)
    (batch_size : Z) (lr : float) (epochs_num : Z) (warmup : float)
    (report_steps : Z) (path : string) (ld : list label) (dev_speed : float)
    (st : State E) :
  (0 < epochs_num)%Z ->
  is_ok (fst (self_distillation E ss batch_size lr epochs_num warmup
                report_steps path [] ld dev_speed st)) = false.
Proof.
  intros Hpos. unfold self_distillation.
  apply mbind_never_returns. intros [steps_num o] st1.
  unfold range. destruct (Z.to_nat epochs_num) as [|n] eqn:Hn; [lia|].
  change (seq 0 (S n)) with (0 :: seq 1 n). simpl mfor.
  rewrite !mbind_assoc.
  unfold mbind at 1.
  pose proof (distillation_epoch_without_dev ld batch_size report_steps path
                steps_num 0 (ss, o) st1) as Hraise.
  destruct (distillation_epoch E [] ld batch_size report_steps path
              steps_num 0 _ st1) as [[v|e] st2]; [discriminate | reflexivity].
Qed.

End FitWithoutValidationSet.

(** X17.  The validation set is optional in the signature of [fit] but not
    in its code: when [sentences_dev] is left out or empty, [fit] never
    returns as soon as one of the two phases has an epoch to run, which is
    the case with the default epoch counts 5 and 10. *)
Theorem fit_needs_a_validation_set (E : Env) (sentences_train : list string)
    (labels_train : list label) (kwargs : FitKwargs) (st : State E) :
  kwargs_get (kw_sentences_dev kwargs) [] = [] ->
  (0 < kwargs_get (kw_finetuning_epochs_num kwargs) 5 \/
   0 < kwargs_get (kw_distilling_epochs_num kwargs) 10)%Z ->
  is_ok (fst (fit E sentences_train labels_train kwargs st)) = false.
Proof.
  intros Hdev Hepochs. unfold fit. cbv zeta. rewrite Hdev.
  destruct (Z_lt_dec 0 (kwargs_get (kw_finetuning_epochs_num kwargs) 5%Z))
    as [Hfirst | Hnone].
  - unfold mbind at 1.
    pose proof (fine_tuning_without_dev_never_returns E sentences_train
                  labels_train (kwargs_get (kw_labels_dev kwargs) [])
                  (kwargs_get (kw_batch_size kwargs) 16%Z)
                  (kwargs_get (kw_learning_rate kwargs) f2em5) _
                  (kwargs_get (kw_warmup kwargs) f0_1)
                  (kwargs_get (kw_report_steps kwargs) 100%Z)
                  (kwargs_get (kw_model_saving_path kwargs)
                     (tmp_model_saving_path E)) st Hfirst) as Hraise.
    destruct (_fine_tuning_backbone E _ _ _ _ _ _ _ _ _ _ st)
      as [[u|e] st1]; [discriminate | reflexivity].
  - destruct Hepochs as [Hfirst | Hsecond]; [contradiction|].
    apply mbind_never_returns. intros _ st1.
    unfold mbind at 1.
    pose proof (self_distillation_without_dev_never_returns E sentences_train
                  (kwargs_get (kw_batch_size kwargs) 16%Z)
                  (fmul (kwargs_get (kw_learning_rate kwargs) f2em5)
                        (float_of_Z 10)) _
                  (kwargs_get (kw_warmup kwargs) f0_1)
                  (kwargs_get (kw_report_steps kwargs) 100%Z)
                  (kwargs_get (kw_model_saving_path kwargs)
                     (tmp_model_saving_path E))
                  (kwargs_get (kw_labels_dev kwargs) [])
                  (kwargs_get (kw_dev_speed kwargs) f0_5) st1 Hsecond)
      as Hraise.
    destruct (self_distillation E _ _ _ _ _ _ _ _ _ _ st1)
      as [[u|e] st2]; [discriminate | reflexivity].
Qed.

Lemma fit_needs_a_validation_set_witness :
  is_ok (fst (fit Toy.E Toy.sentences_train Toy.labels_train
                Toy.kwargs_no_dev (Toy.state0 0 None))) = false.
Proof.
  apply (fit_needs_a_validation_set Toy.E Toy.sentences_train
           Toy.labels_train Toy.kwargs_no_dev (Toy.state0 0 None)).
  - reflexivity.
  - left. reflexivity.
Defined.

(** ** Self-distillation over a single layer *)

(** X18.  Over a backbone of one layer the cascade has no student: the
    loop [for i in range(layers_num - 1)] of [_forward_for_loss] does not
    run and the method returns the integer [0] it initialised [loss] with,
    not a tensor.  The training step of self-distillation then raises
    [AttributeError] at [loss.item()], before [backward] and the optimizer,
    and leaves the parameters as they were. *)
Theorem distillation_needs_a_student (E : Env)
    (sentences_batch : list string) (batch_size report_steps : Z)
    (step : nat) (optimizer : Optim E) (st : State E) :
  layers_num E = 1 ->
  classifiers (params st) <> [] ->
  _forward_for_loss E (params st) (params st)
    (slice sentences_batch (Z.of_nat step * batch_size)
       ((Z.of_nat step + 1) * batch_size)) None
  = Ok (LossInt 0) /\
  let run := train_step E sentences_batch None batch_size report_steps step
               optimizer st in
  fst run = Raise AttributeError /\ params (snd run) = params st.
Proof.
  intros Hone Hheads.
  assert (Hloss : forall ss,
             _forward_for_loss E (params st) (params st) ss None
             = Ok (LossInt 0)).
  { intros ss. unfold _forward_for_loss. rewrite Hone. simpl.
    destruct (index_last_in (classifiers (params st)) Hheads)
      as (teacher & -> & _).
    reflexivity. }
  split; [apply Hloss|].
  unfold train_step, mbind, update_grads, get_params, lift.
  cbn [params fst snd]. rewrite Hloss. split; reflexivity.
Qed.

Lemma distillation_needs_a_student_witness :
  let run := train_step Toy.E_one Toy.sentences_train None 2%Z 100%Z 0
               f2em5 Toy.state_one in
  _forward_for_loss Toy.E_one (params Toy.state_one) (params Toy.state_one)
    (slice Toy.sentences_train (Z.of_nat 0 * 2) ((Z.of_nat 0 + 1) * 2)) None
  = Ok (LossInt 0) /\
  fst run = Raise AttributeError /\ params (snd run) = params Toy.state_one.
Proof.
  apply (distillation_needs_a_student Toy.E_one Toy.sentences_train 2%Z 100%Z
           0 f2em5 Toy.state_one).
  - reflexivity.
  - discriminate.
Defined.

(** ** The shape of the logits of a head *)

Lemma has_shape2_map {R} (f : list R -> list R) (b h c : nat)
    (t : tensor2 R) :
  (forall v, length v = h -> length (f v) = c) ->
  has_shape2 b h t -> has_shape2 b c (map f t).
Proof.
  intros Hf [Hb Hrows]. split; [now rewrite length_map|].
  apply Forall_forall. intros row Hrow.
  apply in_map_iff in Hrow as (v & <- & Hv).
  rewrite Forall_forall in Hrows. auto.
Qed.

Lemma has_shape3_map {R} (f : list R -> list R) (b s h c : nat)
    (t : tensor3 R) :
  (forall v, length v = h -> length (f v) = c) ->
  has_shape3 b s h t -> has_shape3 b s c (map (map f) t).
Proof.
  intros Hf [Hb Hrows]. split; [now rewrite length_map|].
  apply Forall_forall. intros m Hm.
  apply in_map_iff in Hm as (m0 & <- & Hm0).
  rewrite Forall_forall in Hrows.
  apply (has_shape2_map f s h c); auto.
Qed.

(** X19.  The shape contract of [MiniClassifier.forward] for the pooling
    strategies other than "mean".  If the three linear layers map vectors
    of size [input_size] to [cla_hidden_size], [cla_hidden_size] to
    [cla_hidden_size] and [cla_hidden_size] to [labels_num], and the
    attention keeps the shape of its input, then on a batch of [b]
    sentences of [s >= 1] positions the head returns, without raising, one
    row of [labels_num] logits per sentence. *)
Theorem head_logits_shape {R W Mask} (ops : HeadOps R W Mask)
    (pooling : string) (w : W) (mask : Mask)
    (b s input_size cla_hidden_size labels_num : nat) (hidden : tensor3 R) :
  (forall v, length v = input_size ->
             length (output_layer_0 ops w v) = cla_hidden_size) ->
  (forall x, has_shape3 b s cla_hidden_size x ->
             has_shape3 b s cla_hidden_size (self_atten ops w x x x mask)) ->
  (forall v, length v = cla_hidden_size ->
             length (output_layer_1 ops w v) = cla_hidden_size) ->
  (forall v, length v = cla_hidden_size ->
             length (output_layer_2 ops w v) = labels_num) ->
  pooling <> "mean" -> 1 <= s ->
  has_shape3 b s input_size hidden ->
  exists logits,
    MiniClassifier_forward ops pooling w hidden mask = Ok logits /\
    has_shape2 b labels_num logits.
Proof.
  intros H0 Hatt H1 H2 Hpool Hs Hshape. unfold MiniClassifier_forward.
  assert (Hin : has_shape3 b s cla_hidden_size
                  (map (map (fun v => map (tanh ops) (output_layer_0 ops w v)))
                       hidden)).
  { apply (has_shape3_map _ b s input_size); [|assumption].
    intros v Hv. rewrite length_map. auto. }
  apply Hatt in Hin.
  destruct (sequence_pooling_shape ops pooling b s cla_hidden_size _ Hpool Hs
              Hin) as (t & -> & Ht).
  simpl. eexists. split; [reflexivity|].
  apply (has_shape2_map _ b cla_hidden_size); [assumption|].
  apply (has_shape2_map _ b cla_hidden_size); [|assumption].
  intros v Hv. rewrite length_map. auto.
Qed.

Lemma head_logits_shape_witness :
  exists logits,
    MiniClassifier_forward Toy.head_ops "max" 0%Z Toy.hidden_1_2_3 tt
    = Ok logits /\
    has_shape2 1 3 logits.
Proof.
  apply (head_logits_shape Toy.head_ops "max" 0%Z tt 1 2 3 3 3
           Toy.hidden_1_2_3).
  - intros v Hv. exact Hv.
  - intros x Hx. exact Hx.
  - intros v Hv. exact Hv.
  - intros v Hv. exact Hv.
  - discriminate.
  - lia.
  - split; [reflexivity|]. repeat constructor.
Defined.

(** ** What a training run leaves on disk *)

(** X20.  When [fit] returns, the file at [model_saving_path] holds the
    parameters the model has in memory, and the checkpoints written since
    the end of phase 1 are one per self-distillation epoch followed by the
    final one, all at that path.  With at least one self-distillation
    epoch the final [save_model] of [fit] writes again the very snapshot
    the last epoch has just written. *)
Theorem fit_leaves_the_final_model (E : Env) (sentences_train : list string)
    (labels_train : list label) (kwargs : FitKwargs) (st st' : State E) :
  fit E sentences_train labels_train kwargs st = (Ok tt, st') ->
  let path :=
    kwargs_get (kw_model_saving_path kwargs) (tmp_model_saving_path E) in
  let epochs_num := kwargs_get (kw_distilling_epochs_num kwargs) 10%Z in
  files st' path = Some (params st') /\
  exists earlier distilled,
    saved_snapshots E (trace st')
    = earlier ++ distilled ++ [(path, params st')] /\
    length distilled = Z.to_nat epochs_num /\
    Forall (fun s => fst s = path) distilled /\
    ((0 < epochs_num)%Z ->
     exists d, distilled = d ++ [(path, params st')]).
Proof.
  unfold fit. cbv zeta. intros H.
  set (path := kwargs_get (kw_model_saving_path kwargs) _) in *.
  set (epochs_num := kwargs_get (kw_distilling_epochs_num kwargs) _) in *.
  apply mbind_ok in H as ([] & st1 & _ & H).
  apply mbind_ok in H as ([] & st2 & Hphase2 & Hsave).
  unfold save_model in Hsave. inversion Hsave; subst st'. clear Hsave.
  simpl. split; [now rewrite String.eqb_refl|].
  unfold self_distillation in Hphase2.
  apply mbind_ok in Hphase2 as ([steps_num o] & sa & Hsetup & Hphase2).
  apply mbind_ok in Hphase2 as (v' & sb & Hloop & Hret).
  unfold ret in Hret. inversion Hret; subst sb. clear Hret.
  pose proof (training_setup_keeps_checkpoints E (len sentences_train)
                (kwargs_get (kw_batch_size kwargs) 16%Z)
                (fmul (kwargs_get (kw_learning_rate kwargs) f2em5)
                      (float_of_Z 10))
                epochs_num (kwargs_get (kw_warmup kwargs) f0_1) st1)
    as [Hs _].
  rewrite Hsetup in Hs. simpl in Hs.
  apply distillation_epochs_return in Hloop
    as (new & Hnew & Hlen & Hpath & Hlast).
  exists (saved_snapshots E (trace st1)), new.
  split; [|split; [|split]].
  - rewrite saved_snapshots_app, Hnew, Hs. simpl.
    now rewrite app_assoc.
  - rewrite Hlen. unfold range. apply length_seq.
  - assumption.
  - intros Hpos.
    assert (Hne : range epochs_num <> []).
    { unfold range. destruct (Z.to_nat epochs_num) eqn:Hn;
        [lia | discriminate]. }
    destruct (Hlast Hne) as (_ & Hl & _).
    assert (Hnew_ne : new <> []).
    { intros ->. simpl in Hlen. unfold range in Hlen.
      rewrite length_seq in Hlen. lia. }
    exists (removelast new). rewrite <- Hl.
    now apply app_removelast_last.
Qed.

Lemma fit_leaves_the_final_model_witness :
  let st := Toy.state0 0 None in
  let run := fit Toy.E Toy.sentences_train Toy.labels_train Toy.kwargs_dev
               st in
  fst run = Ok tt /\
  files (snd run) Toy.path = Some (params (snd run)) /\
  exists earlier distilled,
    saved_snapshots Toy.E (trace (snd run))
    = earlier ++ distilled ++ [(Toy.path, params (snd run))] /\
    length distilled = 2 /\
    Forall (fun s => fst s = Toy.path) distilled /\
    ((0 < 2)%Z ->
     exists d, distilled = d ++ [(Toy.path, params (snd run))]).
Proof.
  intros st run. split; [vm_compute; reflexivity|].
  apply (fit_leaves_the_final_model Toy.E Toy.sentences_train
           Toy.labels_train Toy.kwargs_dev st (snd run)).
  vm_compute. reflexivity.
Defined.
